(** * pdblp: the BCon request/collect/reshape calls

    A shallow embedding of [pdblp/pdblp.py]: the five calls of [BCon]
    ([bdh], [ref], [ref_hist], [bdib], [custom_req]) together with the part
    of the vendor session API and of the table library they rely on.

    - The vendor session is a queue of already pending events followed by the
      events later polls will deliver; every call on the session API is
      written to a log, so that the order of the calls can be stated.
    - [while True] loops take a fuel argument.
    - Python dictionaries are [gmap]s, lists are lists, exceptions are the
      constructors of [Exn].
    - [logging] calls have no effect on the results and are left out. *)

From stdpp Require Import base option numbers list sorting gmap strings.
From Stdlib Require Import QArith Qcanon Field.

Local Open Scope Z_scope.
Local Set Warnings "-register-all".

(** ** Python values delivered by the vendor *)

(** A scalar leaf value.  Dates and datetimes are day (or instant) ordinals. *)
Inductive Scalar :=
| SNum (z : Z)
| SStr (s : string)
| SDate (d : Z).

Global Instance Scalar_eq_dec : EqDecision Scalar.
Proof. solve_decision. Defined.

(** ** blpapi elements *)

(** An element is a named simple value, a named array of values, or a named
    sequence of sub-elements. *)
Inductive Element :=
| Simple (name : string) (v : Scalar)
| Array (name : string) (vals : list Element)
| Sequence (name : string) (elems : list Element).

(** What [Element.getValue] hands back: a Python scalar for a simple value,
    an [Element] for a sequence. *)
Inductive Item :=
| IScalar (v : Scalar)
| IElem (e : Element).

(** A Python value stored in a record: one item, or the list built by [ref]
    for an array-typed field. *)
Inductive PyVal :=
| PItem (i : Item)
| PList (l : list Item).

Record Message := {
  correlationIds : list Scalar;
  asElement : Element
}.

Inductive EventType :=
| ADMIN | SESSION_STATUS | SERVICE_STATUS | REQUEST_STATUS
| PARTIAL_RESPONSE | RESPONSE | TIMEOUT.

Global Instance EventType_eq_dec : EqDecision EventType.
Proof. solve_decision. Defined.

Record Event := {
  eventType : EventType;
  messages : list Message
}.

(** ** Exceptions *)

Inductive Exn :=
| LookupError (m : Message)
| RuntimeError (text : string)
| IndexError
| KeyError
| ValueError
| AttributeError
| ZeroDivisionError
| NotFoundException
| IndexOutOfRangeException
| SchemaViolation.
(** [NotFoundException] and [IndexOutOfRangeException] are blpapi's.
    [SchemaViolation] marks vendor data for which the Python behaviour is
    outside this model: a security name that is not a string, a row key or a
    correlation value that is not a date. *)

Inductive result (A : Type) :=
| Ok (a : A)
| Err (e : Exn).
Arguments Ok {A} a.
Arguments Err {A} e.

Global Instance result_ret : MRet result := @Ok.
Global Instance result_bind : MBind result := λ A B f r,
  match r with
  | Ok a => f a
  | Err e => Err e
  end.
Global Instance result_fmap : FMap result := λ A B f r,
  match r with
  | Ok a => Ok (f a)
  | Err e => Err e
  end.

(** [for x in l: d = f x d], stopping at the first exception. *)
Fixpoint foldM {A D : Type} (f : A → D → result D) (l : list A) (d : D)
  : result D :=
  match l with
  | [] => Ok d
  | x :: l' => d' ← f x d; foldM f l' d'
  end.

Module Elem.

Definition name (e : Element) : string :=
  match e with
  | Simple n _ | Array n _ | Sequence n _ => n
  end.

Definition isArray (e : Element) : bool :=
  match e with
  | Array _ _ => true
  | _ => false
  end.

Definition numValues (e : Element) : nat :=
  match e with
  | Array _ vals => length vals
  | _ => 1%nat
  end.

Definition numElements (e : Element) : nat :=
  match e with
  | Sequence _ elems => length elems
  | _ => 0%nat
  end.

Definition elements (e : Element) : list Element :=
  match e with
  | Sequence _ elems => elems
  | _ => []
  end.

Definition hasElement (e : Element) (n : string) : bool :=
  bool_decide (n ∈ name <$> elements e).

(** [e.getElement("n")]: the first sub-element of that name. *)
Definition getElement (e : Element) (n : string) : result Element :=
  match list_find (λ c, name c = n) (elements e) with
  | Some (_, c) => Ok c
  | None => Err NotFoundException
  end.

(** [e.getElement(i)]: the sub-element at a position. *)
Definition getElementAt (e : Element) (i : nat) : result Element :=
  match elements e !! i with
  | Some c => Ok c
  | None => Err IndexOutOfRangeException
  end.

Definition as_item (e : Element) : Item :=
  match e with
  | Simple _ v => IScalar v
  | _ => IElem e
  end.

(** [e.getValue(i)] *)
Definition getValue (e : Element) (i : nat) : result Item :=
  match e with
  | Array _ vals =>
      match vals !! i with
      | Some c => Ok (as_item c)
      | None => Err IndexOutOfRangeException
      end
  | _ =>
      match i with
      | O => Ok (as_item e)
      | _ => Err IndexOutOfRangeException
      end
  end.

End Elem.

(** A Python value on which an [Element] method is called. *)
Definition as_element (i : Item) : result Element :=
  match i with
  | IElem e => Ok e
  | IScalar _ => Err AttributeError
  end.

Definition as_str (i : Item) : result string :=
  match i with
  | IScalar (SStr s) => Ok s
  | _ => Err SchemaViolation
  end.

Definition as_date (i : Item) : result Z :=
  match i with
  | IScalar (SDate d) => Ok d
  | _ => Err SchemaViolation
  end.

(** [l[i]] on a Python list with a non-negative index. *)
Definition py_index {A : Type} (l : list A) (i : nat) : result A :=
  match l !! i with
  | Some x => Ok x
  | None => Err IndexError
  end.

(** [msg.getElement(n)] and [msg.hasElement(n)] go through the message's
    top-level element. *)
Definition msg_getElement (m : Message) (n : string) : result Element :=
  Elem.getElement (asElement m) n.

(** ** Requests *)

(** An override entry is the list of the sub-elements set on it so far. *)
Definition Override := list (string * Scalar).

Record Request := {
  operation : string;
  securities : list string;
  fields : list string;
  settings : list (string * Scalar);
  overrides : list Override
}.

Definition createRequest_obj (op : string) : Request :=
  {| operation := op; securities := []; fields := []; settings := [];
     overrides := [] |}.

Definition append_security (t : string) (r : Request) : Request :=
  {| operation := operation r; securities := securities r ++ [t];
     fields := fields r; settings := settings r; overrides := overrides r |}.

Definition append_field (f : string) (r : Request) : Request :=
  {| operation := operation r; securities := securities r;
     fields := fields r ++ [f]; settings := settings r;
     overrides := overrides r |}.

Definition request_set (k : string) (v : Scalar) (r : Request) : Request :=
  {| operation := operation r; securities := securities r;
     fields := fields r; settings := settings r ++ [(k, v)];
     overrides := overrides r |}.

Definition set_overrides (o : list Override) (r : Request) : Request :=
  {| operation := operation r; securities := securities r;
     fields := fields r; settings := settings r; overrides := o |}.

(** [ovrd.setElement(k, v)]: set or replace the sub-element [k]. *)
Fixpoint setElement (k : string) (v : Scalar) (o : Override) : Override :=
  match o with
  | [] => [(k, v)]
  | (k', v') :: o' =>
      if decide (k' = k) then (k, v) :: o' else (k', v') :: setElement k v o'
  end.

(** [for t in tickers: request.getElement("securities").appendValue(t)]
    and the same for the fields. *)
Definition fill_request (tickers flds : list string) (r : Request) : Request :=
  foldl (λ r f, append_field f r) (foldl (λ r t, append_security t r) r tickers)
        flds.

(** [for ovrd_fld, ovrd_val in ovrds: ...] *)
Definition fill_overrides (ovrds : list (string * Scalar)) (r : Request)
  : Request :=
  foldl (λ r p, set_overrides
                  (overrides r ++
                     [setElement "value" p.2
                        (setElement "fieldId" (SStr p.1) [])]) r)
        r ovrds.

(** An argument that may be one string or a list of strings. *)
Inductive StrOrList :=
| One (s : string)
| Many (l : list string).

(** [if type(x) is not list: x = [x]] *)
Definition as_list (x : StrOrList) : list string :=
  match x with
  | One s => [s]
  | Many l => l
  end.

(** ** The session and the connection object *)

(** [pending]: the events already queued.  [arrivals]: what the polls will
    deliver once the queue is empty, timeout events included; [polled]
    counts the polls answered from [arrivals]. *)
Record Session := {
  start_ok : bool;
  open_ok : bool;
  pending : list Event;
  arrivals : nat → Event;
  polled : nat
}.

(** The calls made on the vendor API, in the order they are made. *)
Inductive Op :=
| NewSession (n : nat)
| SessionStart (ok : bool)
| OpenService (uri : string) (ok : bool)
| GetService (uri : string)
| TryNextEvent (r : option Event)
| NextEvent (timeout : option Z) (ev : Event)
| CreateRequest (op : string)
| SendRequest (r : Request) (cid : option Scalar).

(** The [BCon] object ([session], [refDataService]) and its surroundings:
    [fresh n] is the session that the [n]-th call of [blpapi.Session(...)]
    creates, [log] the calls made so far. *)
Record World := {
  session : Session;
  refDataService : option string;
  fresh : nat → Session;
  created : nat;
  log : list Op
}.

Definition set_session (s : Session) (w : World) : World :=
  {| session := s; refDataService := refDataService w; fresh := fresh w;
     created := created w; log := log w |}.

Definition set_service (svc : string) (w : World) : World :=
  {| session := session w; refDataService := Some svc; fresh := fresh w;
     created := created w; log := log w |}.

Definition set_created (n : nat) (w : World) : World :=
  {| session := session w; refDataService := refDataService w;
     fresh := fresh w; created := n; log := log w |}.

Definition log_op (o : Op) (w : World) : World :=
  {| session := session w; refDataService := refDataService w;
     fresh := fresh w; created := created w; log := log w ++ [o] |}.

Definition pop_pending (s : Session) : Session :=
  {| start_ok := start_ok s; open_ok := open_ok s; pending := tail (pending s);
     arrivals := arrivals s; polled := polled s |}.

Definition advance (s : Session) : Session :=
  {| start_ok := start_ok s; open_ok := open_ok s; pending := pending s;
     arrivals := arrivals s; polled := S (polled s) |}.

(** ** The monad of the calls: state, exceptions and fuel *)

Inductive Outcome (A : Type) :=
| Ret (a : A)
| Raise (e : Exn)
| OutOfFuel.
Arguments Ret {A} a.
Arguments Raise {A} e.
Arguments OutOfFuel {A}.

Definition M (A : Type) : Type := World → Outcome A * World.

Global Instance M_ret : MRet M := λ A a w, (Ret a, w).
Global Instance M_bind : MBind M := λ A B f m w,
  match m w with
  | (Ret a, w') => f a w'
  | (Raise e, w') => (Raise e, w')
  | (OutOfFuel, w') => (OutOfFuel, w')
  end.

Definition raise {A : Type} (e : Exn) : M A := λ w, (Raise e, w).
Definition out_of_fuel {A : Type} : M A := λ w, (OutOfFuel, w).

Definition lift {A : Type} (r : result A) : M A :=
  match r with
  | Ok a => mret a
  | Err e => raise e
  end.

Definition emit (o : Op) : M unit := λ w, (Ret (), log_op o w).

Module Sess.

(** [blpapi.Session(options)] assigned to [self.session] *)
Definition create : M unit := λ w,
  (Ret (), log_op (NewSession (created w))
             (set_created (S (created w)) (set_session (fresh w (created w)) w))).

Definition start : M bool := λ w,
  (Ret (start_ok (session w)), log_op (SessionStart (start_ok (session w))) w).

Definition openService (uri : string) : M bool := λ w,
  (Ret (open_ok (session w)), log_op (OpenService uri (open_ok (session w))) w).

Definition getService (uri : string) : M string := λ w,
  (Ret uri, log_op (GetService uri) w).

(** The queue is served first; an empty queue gives [None]. *)
Definition tryNextEvent : M (option Event) := λ w,
  match pending (session w) with
  | ev :: _ =>
      (Ret (Some ev),
       log_op (TryNextEvent (Some ev)) (set_session (pop_pending (session w)) w))
  | [] => (Ret None, log_op (TryNextEvent None) w)
  end.

(** The queue is served first; on an empty queue the poll delivers the
    next arrival (a timeout event when nothing came in time). *)
Definition nextEvent (timeout : option Z) : M Event := λ w,
  match pending (session w) with
  | ev :: _ =>
      (Ret ev, log_op (NextEvent timeout ev)
                 (set_session (pop_pending (session w)) w))
  | [] =>
      let ev := arrivals (session w) (polled (session w)) in
      (Ret ev, log_op (NextEvent timeout ev)
                 (set_session (advance (session w)) w))
  end.

Definition sendRequest (r : Request) (cid : option Scalar) : M unit :=
  emit (SendRequest r cid).

End Sess.

(** [self.refDataService.createRequest(op)] *)
Definition createRequest (op : string) : M Request := λ w,
  match refDataService w with
  | Some _ => (Ret (createRequest_obj op), log_op (CreateRequest op) w)
  | None => (Raise AttributeError, w)
  end.

(** [BCon.start] *)
Definition start : M unit :=
  ok ← Sess.start;
  if negb ok then mret ()
  else
    _ ← Sess.nextEvent None;
    ok ← Sess.openService "//blp/refdata";
    if negb ok then mret ()
    else
      _ ← Sess.nextEvent None;
      svc ← Sess.getService "//blp/refdata";
      _ ← (λ w, (Ret (), set_service svc w)) : M unit;
      _ ← Sess.nextEvent None;
      mret ().

(** [BCon.restart] *)
Definition restart : M unit :=
  _ ← Sess.create;
  start.

(** [while(self.session.tryNextEvent()): pass] *)
Fixpoint flush (fuel : nat) : M unit :=
  match fuel with
  | O => out_of_fuel
  | S fuel' =>
      r ← Sess.tryNextEvent;
      match r with
      | Some _ => flush fuel'
      | None => mret ()
      end
  end.

(** The shape shared by the five collecting loops:
    [while True: ev = nextEvent(timeout); for msg in ev: ...; if <stop>: break].
    [on_msg] is the body of the [for] loop, [stop] the test after it (which
    in [ref_hist] may itself raise). *)
Fixpoint event_loop {D : Type} (fuel : nat) (timeout : option Z)
    (on_msg : Message → D → result D) (stop : Event → D → result bool)
    (d : D) : M D :=
  match fuel with
  | O => out_of_fuel
  | S fuel' =>
      ev ← Sess.nextEvent timeout;
      d' ← lift (foldM on_msg (messages ev) d);
      b ← lift (stop ev d');
      if b : bool then mret d' else event_loop fuel' timeout on_msg stop d'
  end.

(** [if ev.eventType() == blpapi.Event.RESPONSE: break] *)
Definition stop_on_response {D : Type} (ev : Event) (_ : D) : result bool :=
  Ok (bool_decide (eventType ev = RESPONSE)).

(** ** Tables *)

(** Tuples of two strings compare as Python tuples do. *)
Definition pair_le (p q : string * string) : Prop :=
  String.le p.1 q.1 ∧ (p.1 = q.1 → String.le p.2 q.2).

Global Instance pair_le_dec : RelDecision pair_le.
Proof. intros p q. unfold pair_le. apply _. Defined.

(** The column labels of a table: one level, or two levels of tuples. *)
Inductive ColIndex :=
| Index (labels : list string)
| MultiIndex (labels : list (string * string)).

(** A table: row labels, column labels and one list of cells per column,
    aligned with the row labels; [None] is NaN. *)
Record DataFrame (R : Type) := mkDF {
  index : list R;
  columns : ColIndex;
  values : list (list (option PyVal))
}.
Arguments mkDF {R} index columns values.
Arguments index {R} d.
Arguments columns {R} d.
Arguments values {R} d.

(** The sorted keys of a dictionary. *)
Definition sorted_keys {K V : Type} `{Countable K} (le : relation K)
    `{!RelDecision le} (data : gmap K V) : list K :=
  merge_sort le (elements (dom data)).

(** The sorted union of the keys of the inner dictionaries. *)
Definition sorted_rows {K : Type} `{Countable K} (data : gmap K (gmap Z PyVal))
  : list Z :=
  merge_sort Z.le (elements (⋃ ((dom <$> (map_to_list data).*2) : list (gset Z)))).

Definition dict_cells {K : Type} `{Countable K} (data : gmap K (gmap Z PyVal))
    (rows : list Z) (cols : list K) : list (list (option PyVal)) :=
  (λ k, (λ r, data !! k ≫= λ col, col !! r) <$> rows) <$> cols.

(** [DataFrame(data)] on a dictionary of dictionaries, as the table library
    of the code's time builds it: the keys of a plain dictionary become the
    columns in sorted order, the inner keys the sorted row labels.  Tuple
    keys give a two-level column index; an empty dictionary gives an empty
    one-level index. *)
Definition DataFrame_of_tuple_dict (data : gmap (string * string) (gmap Z PyVal))
  : DataFrame Z :=
  let rows := sorted_rows data in
  let cols := sorted_keys pair_le data in
  mkDF rows (if decide (data = ∅) then Index [] else MultiIndex cols)
       (dict_cells data rows cols).

Definition DataFrame_of_str_dict (data : gmap string (gmap Z PyVal))
  : DataFrame Z :=
  let rows := sorted_rows data in
  let cols := sorted_keys String.le data in
  mkDF rows (Index cols) (dict_cells data rows cols).

(** [data.columns.names = ['ticker', 'field']]: two names need two levels. *)
Definition set_column_names2 {R : Type} (df : DataFrame R) : result (DataFrame R) :=
  match columns df with
  | MultiIndex _ => Ok df
  | Index _ => Err ValueError
  end.

(** [data.columns = data.columns.droplevel(-1)] *)
Definition droplevel_last {R : Type} (df : DataFrame R) : result (DataFrame R) :=
  match columns df with
  | MultiIndex l => Ok (mkDF (index df) (Index (l.*1)) (values df))
  | Index _ => Err ValueError
  end.

(** The positions at which a label occurs, counted from [i]. *)
Fixpoint positions_from {A : Type} `{EqDecision A} (i : nat) (labels : list A)
    (x : A) : list nat :=
  match labels with
  | [] => []
  | y :: labels' =>
      (if decide (y = x) then [i] else []) ++ positions_from (S i) labels' x
  end.

Definition positions {A : Type} `{EqDecision A} (labels : list A) (x : A)
  : list nat :=
  positions_from 0 labels x.

(** Selection by a list of labels, [.loc] style: every wanted label gives the
    entries that carry it, or one missing entry when there is none; when not
    a single wanted label is present the selection raises. *)
Definition locate {A : Type} `{EqDecision A} (labels want : list A)
  : result (list (A * option nat)) :=
  if bool_decide (want ≠ [] ∧ Forall (λ x, x ∉ labels) want) then Err KeyError
  else Ok (want ≫= λ x,
             match positions labels x with
             | [] => [(x, None)]
             | ps => (λ i, (x, Some i)) <$> ps
             end).

(** Selection by a list of labels, [df[list]] style: every label must be
    present. *)
Definition locate_strict {A : Type} `{EqDecision A} (labels want : list A)
  : result (list (A * option nat)) :=
  if bool_decide (Forall (λ x, x ∈ labels) want)
  then Ok (want ≫= λ x, (λ i, (x, Some i)) <$> positions labels x)
  else Err KeyError.

Definition pick {V : Type} (nan : V) (l : list V) (p : option nat) : V :=
  match p with
  | Some i => default nan (l !! i)
  | None => nan
  end.

Definition one_level {R : Type} (df : DataFrame R) : result (list string) :=
  match columns df with
  | Index l => Ok l
  | MultiIndex _ => Err KeyError
  end.

(** [data.loc[:, want]] *)
Definition loc_columns {R : Type} (want : list string) (df : DataFrame R)
  : result (DataFrame R) :=
  labels ← one_level df;
  ps ← locate labels want;
  Ok (mkDF (index df) (Index (ps.*1))
        (pick ((λ _, None) <$> index df) (values df) <$> ps.*2)).

(** [data[want]] *)
Definition getitem_columns {R : Type} (want : list string) (df : DataFrame R)
  : result (DataFrame R) :=
  labels ← one_level df;
  ps ← locate_strict labels want;
  Ok (mkDF (index df) (Index (ps.*1))
        (pick ((λ _, None) <$> index df) (values df) <$> ps.*2)).

(** [data.loc[want, :]] *)
Definition loc_rows {R : Type} `{EqDecision R} (want : list R) (df : DataFrame R)
  : result (DataFrame R) :=
  ps ← locate (index df) want;
  Ok (mkDF (ps.*1) (columns df)
        ((λ col, pick None col <$> ps.*2) <$> values df)).

(** [DataFrame(data).pivot(0, 1, 2)] on the list of (field, ticker, value)
    tuples: rows are the sorted distinct first components, columns the
    sorted distinct second components; an empty list has no column 0, and a
    repeated (row, column) pair cannot be reshaped. *)
Definition pivot (data : list (string * string * PyVal))
  : result (DataFrame string) :=
  match data with
  | [] => Err KeyError
  | _ =>
      if decide (NoDup (data.*1))
      then
        let cells : gmap (string * string) PyVal := list_to_map data in
        let rows := merge_sort String.le (elements (list_to_set (data.*1.*1) : gset string)) in
        let cols := merge_sort String.le (elements (list_to_set (data.*1.*2) : gset string)) in
        Ok (mkDF rows (Index cols)
              ((λ c, (λ r, cells !! (r, c)) <$> rows) <$> cols))
      else Err ValueError
  end.

(** The records of [ref_hist]: (field, ticker, value, date). *)
Definition HistRecord : Type := string * string * Item * Scalar.

Definition hist_key (r : HistRecord) : result (Z * (string * string)) :=
  d ← as_date (IScalar r.2);
  Ok (d, (r.1.1.2, r.1.1.1)).

(** [pd.DataFrame(data)] with the four column names, then
    [pivot_table(values='value', index='date', columns=['ticker', 'field'],
    aggfunc=lambda x: x)]: rows are the sorted dates, columns the sorted
    (ticker, field) pairs.  An empty list cannot take four column names; the
    identity aggregation does not reduce a group of several values. *)
Definition pivot_table (data : list HistRecord) : result (DataFrame Z) :=
  match data with
  | [] => Err ValueError
  | _ =>
      keys ← mapM (M := result) hist_key data;
      if decide (NoDup keys)
      then
        let cells : gmap (Z * (string * string)) PyVal :=
          list_to_map (zip keys ((λ r : HistRecord, PItem r.1.2) <$> data)) in
        let rows := merge_sort Z.le (elements (list_to_set (keys.*1) : gset Z)) in
        let cols := merge_sort pair_le
                      (elements (list_to_set (keys.*2) : gset (string * string))) in
        Ok (mkDF rows (MultiIndex cols)
              ((λ c, (λ r, cells !! (r, c)) <$> rows) <$> cols))
      else Err ValueError
  end.

(** ** Dates *)

(** Days are ordinals in Python's numbering, where day 1 is a Monday:
    [weekday] is 0 for Monday and 6 for Sunday. *)
Definition weekday (d : Z) : Z := (d + 6) `mod` 7.

Definition is_business_day (d : Z) : Prop := weekday d < 5.

(** [pd.date_range(start_date, end_date, freq='b')]: the business days from
    [start_date] to [end_date], both included.  The source passes the two
    dates as YYYYmmdd text; here they are the days themselves. *)
Definition bdate_range (start_date end_date : Z) : list Z :=
  filter is_business_day (seqZ start_date (end_date - start_date + 1)).

(** ** Python's true division *)

(** [a / b] on numbers, taken over the rationals. *)
Definition truediv (a b : Qc) : result Qc :=
  if decide (b = 0%Qc) then Err ZeroDivisionError else Ok (a / b)%Qc.

Definition len {A : Type} (l : list A) : Qc := Qc_of_Z (Z.of_nat (length l)).

(** ** The bodies of the collecting loops *)

(** [data[k][dt] = val] on a [defaultdict(dict)] *)
Definition dict_put {K : Type} `{Countable K} (k : K) (dt : Z) (val : PyVal)
    (data : gmap K (gmap Z PyVal)) : gmap K (gmap Z PyVal) :=
  <[k := <[dt := val]> (default ∅ (data !! k))]> data.

Section bdh_body.
Variable flds : list string.

(** The body of [for i in range(fldData.numValues())] in [bdh]. *)
Definition bdh_row (ticker : Item) (fldData : Element) (i : nat)
    (data : gmap (string * string) (gmap Z PyVal))
  : result (gmap (string * string) (gmap Z PyVal)) :=
  row_i ← Elem.getValue fldData i;
  row ← as_element row_i;
  e0 ← Elem.getElementAt row 0;
  dt ← Elem.getValue e0 0;
  foldM (λ j data,
           ej ← Elem.getElementAt row j;
           val ← Elem.getValue ej 0;
           fld ← py_index flds (j - 1);
           t ← as_str ticker;
           d ← as_date dt;
           Ok (dict_put (t, fld) d (PItem val) data))
        (seq 1 (Elem.numElements row - 1)) data.

(** The body of [for msg in ev] in [bdh]. *)
Definition bdh_msg (msg : Message)
    (data : gmap (string * string) (gmap Z PyVal))
  : result (gmap (string * string) (gmap Z PyVal)) :=
  sd ← msg_getElement msg "securityData";
  if Elem.hasElement sd "securityError" then Err (LookupError msg)
  else
    sec ← Elem.getElement sd "security";
    ticker ← Elem.getValue sec 0;
    fldData ← Elem.getElement sd "fieldData";
    foldM (bdh_row ticker fldData) (seq 0 (Elem.numValues fldData)) data.

(** The value [ref] records for the field [fld] of one security. *)
Definition ref_value (reqFldsData : Element) (fld : string) : result PyVal :=
  e ← Elem.getElement reqFldsData fld;
  if Elem.isArray e
  then
    val ← foldM (λ k val,
                   entry ← Elem.getValue e k;
                   entry ← as_element entry;
                   foldM (λ elm val, v ← Elem.getValue elm 0; Ok (val ++ [v]))
                         (Elem.elements entry) val)
                (seq 0 (Elem.numValues e)) [];
    Ok (PList val)
  else PItem <$> Elem.getValue e 0.

(** The body of [for i in range(fldData.numValues())] in [ref]. *)
Definition ref_security (fldData : Element) (i : nat)
    (data : list (string * string * PyVal))
  : result (list (string * string * PyVal)) :=
  sec_i ← Elem.getValue fldData i;
  sec ← as_element sec_i;
  tk ← Elem.getElement sec "security";
  ticker ← Elem.getValue tk 0;
  reqFldsData ← Elem.getElement sec "fieldData";
  foldM (λ j data,
           fld ← py_index flds j;
           val ← ref_value reqFldsData fld;
           t ← as_str ticker;
           Ok (data ++ [(fld, t, val)]))
        (seq 0 (Elem.numElements reqFldsData)) data.

(** The body of [for msg in ev] in [ref]. *)
Definition ref_msg (msg : Message) (data : list (string * string * PyVal))
  : result (list (string * string * PyVal)) :=
  fldData ← msg_getElement msg "securityData";
  foldM (ref_security fldData) (seq 0 (Elem.numValues fldData)) data.

(** The body of [for i in range(fldData.numValues())] in [ref_hist]. *)
Definition ref_hist_security (corrID : Scalar) (fldData : Element) (i : nat)
    (data : list HistRecord) : result (list HistRecord) :=
  sec_i ← Elem.getValue fldData i;
  sec ← as_element sec_i;
  tk ← Elem.getElement sec "security";
  tckr ← Elem.getValue tk 0;
  reqFldsData ← Elem.getElement sec "fieldData";
  foldM (λ j data,
           fld ← py_index flds j;
           e ← Elem.getElement reqFldsData fld;
           val ← Elem.getValue e 0;
           t ← as_str tckr;
           Ok (data ++ [(fld, t, val, corrID)]))
        (seq 0 (Elem.numElements reqFldsData)) data.

(** The body of [for msg in ev] in [ref_hist]. *)
Definition ref_hist_msg (msg : Message) (data : list HistRecord)
  : result (list HistRecord) :=
  corrID ← py_index (correlationIds msg) 0;
  fldData ← msg_getElement msg "securityData";
  foldM (ref_hist_security corrID fldData) (seq 0 (Elem.numValues fldData)) data.

(** The test after the [for] loop in [ref_hist]. *)
Definition ref_hist_stop (tickers : list string) (dates : list Z)
    (ev : Event) (data : list HistRecord) : result bool :=
  if decide (eventType ev = TIMEOUT)
  then
    q ← truediv (len data) (len flds);
    q ← truediv q (len tickers);
    if decide (q = len dates) then Ok true
    else Err (RuntimeError "Timeout, increase timeout parameter")
  else Ok false.

End bdh_body.

Definition bar_flds : list string := ["open"; "high"; "low"; "close"; "volume"].

(** The body of [for msg in ev] in [bdib]. *)
Definition bdib_msg (flds : list string) (msg : Message)
    (data : gmap string (gmap Z PyVal)) : result (gmap string (gmap Z PyVal)) :=
  barData ← msg_getElement msg "barData";
  barTick ← Elem.getElement barData "barTickData";
  foldM (λ i data,
           foldM (λ fld data,
                    bar_i ← Elem.getValue barTick i;
                    bar ← as_element bar_i;
                    e0 ← Elem.getElementAt bar 0;
                    dt ← Elem.getValue e0 0;
                    ef ← Elem.getElement bar fld;
                    val ← Elem.getValue ef 0;
                    d ← as_date dt;
                    Ok (dict_put fld d (PItem val) data))
                 flds data)
        (seq 0 (Elem.numValues barTick)) data.

(** ** The reshaping after the loops *)

Definition bdh_frame (tickers flds : list string)
    (data : gmap (string * string) (gmap Z PyVal)) : result (DataFrame Z) :=
  df ← set_column_names2 (DataFrame_of_tuple_dict data);
  if decide (length flds = 1%nat)
  then df ← droplevel_last df; loc_columns tickers df
  else Ok df.

Definition ref_frame (tickers flds : list string)
    (data : list (string * string * PyVal)) : result (DataFrame string) :=
  df ← pivot data;
  df ← loc_rows flds df;
  loc_columns tickers df.

Definition ref_hist_frame (tickers flds : list string) (data : list HistRecord)
  : result (DataFrame Z) :=
  df ← pivot_table data;
  if decide (length flds = 1%nat)
  then df ← droplevel_last df; loc_columns tickers df
  else Ok df.

Definition bdib_frame (flds : list string) (data : gmap string (gmap Z PyVal))
  : result (DataFrame Z) :=
  getitem_columns flds (DataFrame_of_str_dict data).

(** ** The calls of [BCon] *)

Definition bdh (fuel : nat) (tickers flds : StrOrList)
    (start_date end_date periodselection : string)
    (ovrds : list (string * Scalar)) : M (DataFrame Z) :=
  _ ← flush fuel;
  let tickers := as_list tickers in
  let flds := as_list flds in
  request ← createRequest "HistoricalDataRequest";
  let request := fill_request tickers flds request in
  let request := request_set "periodicityAdjustment" (SStr "ACTUAL") request in
  let request := request_set "periodicitySelection" (SStr periodselection) request in
  let request := request_set "startDate" (SStr start_date) request in
  let request := request_set "endDate" (SStr end_date) request in
  let request := fill_overrides ovrds request in
  _ ← Sess.sendRequest request None;
  data ← event_loop fuel (Some 500) (bdh_msg flds) stop_on_response ∅;
  lift (bdh_frame tickers flds data).

Definition ref (fuel : nat) (tickers flds : StrOrList)
    (ovrds : list (string * Scalar)) : M (DataFrame string) :=
  _ ← flush fuel;
  let tickers := as_list tickers in
  let flds := as_list flds in
  request ← createRequest "ReferenceDataRequest";
  let request := fill_request tickers flds request in
  let request := fill_overrides ovrds request in
  _ ← Sess.sendRequest request None;
  data ← event_loop fuel (Some 500) (ref_msg flds) stop_on_response [];
  lift (ref_frame tickers flds data).

(** [for dt in dates: ...] in [ref_hist]: the one override entry [ovrd] (at
    position [i]) is set to the day and the request is sent under the day as
    correlation value.  The day stands for its YYYYmmdd text. *)
Fixpoint send_dates (i : nat) (dates : list Z) (request : Request) : M unit :=
  match dates with
  | [] => mret ()
  | dt :: dates' =>
      let request :=
        set_overrides
          (alter (λ o, setElement "value" (SDate dt)
                         (setElement "fieldId" (SStr "REFERENCE_DATE") o))
                 i (overrides request)) request in
      _ ← Sess.sendRequest request (Some (SDate dt));
      send_dates i dates' request
  end.

Definition ref_hist (fuel : nat) (tickers flds : StrOrList)
    (start_date end_date : Z) (timeout : Z) : M (DataFrame Z) :=
  _ ← restart;
  let tickers := as_list tickers in
  let flds := as_list flds in
  request ← createRequest "ReferenceDataRequest";
  let request := fill_request tickers flds request in
  let dates := bdate_range start_date end_date in
  let i := length (overrides request) in
  let request := set_overrides (overrides request ++ [[]]) request in
  _ ← send_dates i dates request;
  data ← event_loop fuel (Some timeout) (ref_hist_msg flds)
           (ref_hist_stop flds tickers dates) [];
  lift (ref_hist_frame tickers flds data).

Definition bdib (fuel : nat) (ticker startDateTime endDateTime eventType : string)
    (interval : Z) : M (DataFrame Z) :=
  _ ← flush fuel;
  request ← createRequest "IntradayBarRequest";
  let request := request_set "security" (SStr ticker) request in
  let request := request_set "eventType" (SStr eventType) request in
  let request := request_set "interval" (SNum interval) request in
  let request := request_set "startDateTime" (SStr startDateTime) request in
  let request := request_set "endDateTime" (SStr endDateTime) request in
  _ ← Sess.sendRequest request None;
  let flds := bar_flds in
  data ← event_loop fuel (Some 500) (bdib_msg flds) stop_on_response ∅;
  lift (bdib_frame flds data).

Definition custom_req (fuel : nat) (request : Request) : M (list Message) :=
  _ ← flush fuel;
  _ ← Sess.sendRequest request None;
  event_loop fuel (Some 500) (λ msg messages, Ok (messages ++ [msg]))
             stop_on_response [].

(** * Vocabulary of the statements *)

(** ** The events a session will deliver *)

(** The event the next poll returns, and the session after it. *)
Definition peek (s : Session) : Event :=
  match pending s with
  | ev :: _ => ev
  | [] => arrivals s (polled s)
  end.

Definition pop (s : Session) : Session :=
  match pending s with
  | _ :: _ => pop_pending s
  | [] => advance s
  end.

(** The [i]-th event the polls of [nextEvent] will return. *)
Definition upcoming (s : Session) (i : nat) : Event := peek (Nat.iter i pop s).

Definition upcoming_list (s : Session) (k : nat) : list Event :=
  upcoming s <$> seq 0 k.

Definition log_ops (os : list Op) (w : World) : World :=
  {| session := session w; refDataService := refDataService w;
     fresh := fresh w; created := created w; log := log w ++ os |}.

(** The world after [k] polls with the given timeout. *)
Definition polls (timeout : option Z) (k : nat) (w : World) : World :=
  log_ops (NextEvent timeout <$> upcoming_list (session w) k)
          (set_session (Nat.iter k pop (session w)) w).

(** The world after the queue has been drained. *)
Definition clear_pending (s : Session) : Session :=
  {| start_ok := start_ok s; open_ok := open_ok s; pending := [];
     arrivals := arrivals s; polled := polled s |}.

Definition flushed (w : World) : World :=
  log_ops ((TryNextEvent ∘ Some <$> pending (session w)) ++ [TryNextEvent None])
          (set_session (clear_pending (session w)) w).

(** What a call added to the log. *)
Definition call_log (w w' : World) : list Op := drop (length (log w)) (log w').

Definition polled_event (o : Op) : list Event :=
  match o with
  | NextEvent _ ev => [ev]
  | _ => []
  end.

(** The messages a call received through [nextEvent]. *)
Definition received (w w' : World) : list Message :=
  (call_log w w' ≫= polled_event) ≫= messages.

(** [skips f stop evs d d']: the loop reads the events [evs] one after the
    other, starting with the accumulator [d], without raising and without
    stopping, and is left with [d']. *)
Inductive skips {D : Type} (f : Message → D → result D)
    (stop : Event → D → result bool) : list Event → D → D → Prop :=
| skips_nil d : skips f stop [] d d
| skips_cons ev evs d d1 d' :
    foldM f (messages ev) d = Ok d1 →
    stop ev d1 = Ok false →
    skips f stop evs d1 d' →
    skips f stop (ev :: evs) d d'.

(** ** The calls that drain the queue *)

(** The world in which such a call starts to poll: the queue drained, then
    the operations [ops] (creating and sending the request) logged. *)
Definition submitted (ops : list Op) (w : World) : World :=
  log_ops ops (flushed w).

(** What follows the collecting loop: the reshaping of the collected data. *)
Definition finish {D R : Type} (post : D → result R) (r : Outcome D * World)
  : Outcome R * World :=
  match r with
  | (Ret data, w) => lift (post data) w
  | (Raise e, w) => (Raise e, w)
  | (OutOfFuel, w) => (OutOfFuel, w)
  end.

(** The requests the calls build. *)
Definition bdh_request (tickers flds : list string)
    (start_date end_date periodselection : string)
    (ovrds : list (string * Scalar)) : Request :=
  fill_overrides ovrds
    (request_set "endDate" (SStr end_date)
       (request_set "startDate" (SStr start_date)
          (request_set "periodicitySelection" (SStr periodselection)
             (request_set "periodicityAdjustment" (SStr "ACTUAL")
                (fill_request tickers flds
                   (createRequest_obj "HistoricalDataRequest")))))).

Definition ref_request (tickers flds : list string)
    (ovrds : list (string * Scalar)) : Request :=
  fill_overrides ovrds
    (fill_request tickers flds (createRequest_obj "ReferenceDataRequest")).

Definition bdib_request (ticker startDateTime endDateTime eventType : string)
    (interval : Z) : Request :=
  request_set "endDateTime" (SStr endDateTime)
    (request_set "startDateTime" (SStr startDateTime)
       (request_set "interval" (SNum interval)
          (request_set "eventType" (SStr eventType)
             (request_set "security" (SStr ticker)
                (createRequest_obj "IntradayBarRequest"))))).

(** ** Sample inputs *)

Definition timeout_event : Event := {| eventType := TIMEOUT; messages := [] |}.

(** A started session with the queue [queue] whose polls deliver [evs] and
    then time out for ever. *)
Definition session_of (queue evs : list Event) : Session :=
  {| start_ok := true; open_ok := true; pending := queue;
     arrivals := λ n, default timeout_event (evs !! n); polled := 0 |}.

(** A connection on the session [s]; every later [blpapi.Session(...)]
    creates the session [s'].  *)
Definition world_of (s s' : Session) : World :=
  {| session := s; refDataService := Some "//blp/refdata";
     fresh := λ _, s'; created := 1; log := [] |}.

(** A connection on which nothing but timeouts will ever arrive. *)
Definition silent_world : World :=
  world_of (session_of [] []) (session_of [] []).

Definition sample_request : Request :=
  append_security "IBM US Equity" (createRequest_obj "ReferenceDataRequest").

(** The vendor's messages, as the calls read them. *)

(** One row of a historical-data response: the date, then the fields. *)
Definition hist_row (d : Z) (cells : list (string * Z)) : Element :=
  Sequence "fieldData"
    (Simple "date" (SDate d) :: ((λ c : string * Z, Simple c.1 (SNum c.2)) <$> cells)).

Definition hist_message (ticker : string) (rows : list Element) : Message :=
  {| correlationIds := [SNum 1];
     asElement :=
       Sequence "HistoricalDataResponse"
         [Sequence "securityData"
            [Simple "security" (SStr ticker); Array "fieldData" rows]] |}.

(** A historical-data response that reports a security-level error. *)
Definition security_error_message (ticker : string) : Message :=
  {| correlationIds := [SNum 1];
     asElement :=
       Sequence "HistoricalDataResponse"
         [Sequence "securityData"
            [Simple "security" (SStr ticker);
             Sequence "securityError" [Simple "message" (SStr "Unknown/Invalid security")];
             Array "fieldData" []]] |}.

(** One security of a reference-data response with its field elements. *)
Definition ref_security_data (ticker : string) (fieldData : list Element) : Element :=
  Sequence "securityData"
    [Simple "security" (SStr ticker); Sequence "fieldData" fieldData].

Definition ref_message (cid : Scalar) (secs : list Element) : Message :=
  {| correlationIds := [cid];
     asElement := Sequence "ReferenceDataResponse" [Array "securityData" secs] |}.

(** ** Vocabulary of the error claims *)

(** The message's [securityData] has a [securityError] element. *)
Definition has_security_error (msg : Message) : Prop :=
  ∃ sd, msg_getElement msg "securityData" = Ok sd ∧
        Elem.hasElement sd "securityError" = true.

(** A time-series exchange in which the third security is unknown: a partial
    response for the first security, then the closing response with the
    second security and the error. *)
Definition error_exchange : World :=
  world_of
    (session_of [timeout_event]
       [ {| eventType := PARTIAL_RESPONSE;
            messages := [hist_message "A" [hist_row 10 [("PX_LAST", 5)]]] |};
         {| eventType := RESPONSE;
            messages := [hist_message "B" [hist_row 10 [("PX_LAST", 7)]];
                         security_error_message "C"] |} ])
    (session_of [] []).

(** ** Vocabulary of [ref_hist] *)

(** What [start] does on the session [s]: the operations it logs and the
    number of events it reads. *)
Definition start_ops (s : Session) : list Op :=
  if start_ok s
  then SessionStart true :: NextEvent None (upcoming s 0) ::
       (if open_ok s
        then [OpenService "//blp/refdata" true; NextEvent None (upcoming s 1);
              GetService "//blp/refdata"; NextEvent None (upcoming s 2)]
        else [OpenService "//blp/refdata" false])
  else [SessionStart false].

Definition start_polls (s : Session) : nat :=
  if start_ok s then (if open_ok s then 3 else 1) else 0.

(** The world after [restart]. *)
Definition restarted (w : World) : World :=
  let s := fresh w (created w) in
  {| session := Nat.iter (start_polls s) pop s;
     refDataService :=
       if start_ok s && open_ok s then Some "//blp/refdata" else refDataService w;
     fresh := fresh w;
     created := S (created w);
     log := log w ++ NewSession (created w) :: start_ops s |}.

(** The override entry of the request sent for the day [d]. *)
Definition dated (d : Z) : Override :=
  [("fieldId", SStr "REFERENCE_DATE"); ("value", SDate d)].

(** The request [ref_hist] sends for the day [d], and the sending of it. *)
Definition hist_request (tickers flds : list string) (d : Z) : Request :=
  set_overrides [dated d]
    (fill_request tickers flds (createRequest_obj "ReferenceDataRequest")).

Definition hist_send (tickers flds : list string) (d : Z) : Op :=
  SendRequest (hist_request tickers flds d) (Some (SDate d)).

(** The world in which [ref_hist] starts to poll. *)
Definition hist_submitted (tickers flds : list string) (dates : list Z)
    (w : World) : World :=
  log_ops (CreateRequest "ReferenceDataRequest" :: (hist_send tickers flds <$> dates))
          (restarted w).

(** Operations of [start]. *)
Definition is_start_op (o : Op) : Prop :=
  match o with
  | SessionStart _ | OpenService _ _ | GetService _ | NextEvent None _ => True
  | _ => False
  end.

(** A session as [blpapi.Session(...)] creates it: the three status events
    that [start] reads are queued, then [evs] arrive. *)
Definition new_session_of (evs : list Event) : Session :=
  session_of [ {| eventType := SESSION_STATUS; messages := [] |};
               {| eventType := SERVICE_STATUS; messages := [] |};
               {| eventType := SERVICE_STATUS; messages := [] |} ] evs.

Definition px (ticker : string) (v : Z) : Element :=
  ref_security_data ticker [Simple "PX_LAST" (SNum v)].

(** A time-sliced exchange over the days 1 and 2 (a Monday and a Tuesday)
    for two securities and one field: the second security is missing from
    the answer for day 2, so that three of the four records arrive before
    the polls time out. *)
Definition short_exchange : World :=
  world_of (session_of [] [])
    (new_session_of
       [ {| eventType := RESPONSE;
            messages := [ref_message (SDate 1) [px "A" 10; px "B" 20]] |};
         {| eventType := RESPONSE;
            messages := [ref_message (SDate 2) [px "A" 11]] |} ]).

(** The same exchange with the complete answer for day 2. *)
Definition full_exchange : World :=
  world_of (session_of [] [])
    (new_session_of
       [ {| eventType := RESPONSE;
            messages := [ref_message (SDate 2) [px "B" 21; px "A" 11]] |};
         {| eventType := RESPONSE;
            messages := [ref_message (SDate 1) [px "A" 10; px "B" 20]] |} ]).

(** ** Vocabulary of the order of the operations *)

(** The operations of the drain of the queue of [w]. *)
Definition drain_ops (w : World) : list Op :=
  (TryNextEvent ∘ Some <$> pending (session w)) ++ [TryNextEvent None].

(** [k] polls with the timeout [t], answered by the arrivals of [w]. *)
Definition arrival_reads (t : option Z) (w : World) (k : nat) : list Op :=
  NextEvent t <$>
    ((λ i, arrivals (session w) (polled (session w) + i)%nat) <$> seq 0 k).

(** The order of the operations as the specification words it: the request
    is built, then the queue is drained until it is empty, and only then the
    request is sent. *)
Definition built_then_drained_then_sent (ops : list Op) : Prop :=
  ∃ i j k op r cid,
    (i < j < k)%nat ∧
    ops !! i = Some (CreateRequest op) ∧
    ops !! j = Some (TryNextEvent None) ∧
    ops !! k = Some (SendRequest r cid).

Definition is_drain_op (o : Op) : Prop :=
  match o with
  | TryNextEvent _ => True
  | _ => False
  end.

(** ** Vocabulary of the attribution of values to fields *)

(** [getValue()] of every element of a list. *)
Definition values_of (es : list Element) : result (list Item) :=
  mapM (M := result) (λ e, Elem.getValue e 0) es.

(** The writes of one row of [bdh] when the [j]-th value goes under the
    [j]-th requested name. *)
Definition put_row (t : string) (d : Z) (flds : list string) (vs : list Item)
    (data : gmap (string * string) (gmap Z PyVal))
  : gmap (string * string) (gmap Z PyVal) :=
  foldl (λ data p, dict_put (t, p.1) d (PItem p.2) data) data (zip flds vs).

(** Attribution by position in [ref], as the specification words it: the
    value of the [j]-th field element of a security is recorded under the
    [j]-th requested name. *)
Definition ref_attributes_by_position : Prop :=
  ∀ (flds : list string) (ticker : string) (elems : list Element)
    (data' : list (string * string * PyVal)) (j : nat) (e : Element)
    (v : Item) (fld : string),
    ref_security flds (Array "securityData" [ref_security_data ticker elems])
      0 [] = Ok data' →
    elems !! j = Some e →
    Elem.getValue e 0 = Ok v →
    flds !! j = Some fld →
    (fld, ticker, PItem v) ∈ data'.

(** ** Vocabulary of the array-typed fields *)

(** The values of the sub-elements of one entry of an array, in order. *)
Definition entry_values (c : Element) : result (list Item) :=
  entry ← as_element (Elem.as_item c);
  values_of (Elem.elements entry).

(** The flat list of an array-typed field, as the specification words it:
    the values of all sub-elements of all entries, entry after entry. *)
Definition flattened (vals : list Element) : result PyVal :=
  (λ vss, PList (concat vss)) <$> mapM (M := result) entry_values vals.

(** An array entry made of simple sub-elements. *)
Definition simple_entry (nm : string) (subs : list (string * Scalar)) : Element :=
  Sequence nm ((λ p : string * Scalar, Simple p.1 p.2) <$> subs).

(** ** Vocabulary of the tables *)


(** The value a list of (field, ticker, value) records holds for a field of
    a security, if any. *)
Definition recorded (data : list (string * string * PyVal)) (fld ticker : string)
  : option PyVal :=
  (list_to_map data : gmap (string * string) PyVal) !! (fld, ticker).

(** The table with the rows [flds] and the columns [tickers] whose cells are
    the recorded values. *)
Definition ref_table (tickers flds : list string)
    (data : list (string * string * PyVal)) : DataFrame string :=
  mkDF flds (Index tickers)
       ((λ t, (λ f, recorded data f t) <$> flds) <$> tickers).



(** A reference exchange: the second security comes first, its fields in
    another order than requested, one of them array-typed. *)
Definition ref_exchange : World :=
  world_of
    (session_of [timeout_event]
       [ {| eventType := PARTIAL_RESPONSE;
            messages :=
              [ref_message (SNum 1)
                 [ref_security_data "B"
                    [Array "HOLDERS"
                       [simple_entry "HOLDERS" [("who", SStr "x"); ("n", SNum 3)]];
                     Simple "NAME" (SStr "bee")]]] |};
         {| eventType := RESPONSE;
            messages :=
              [ref_message (SNum 1)
                 [ref_security_data "A"
                    [Simple "NAME" (SStr "ay"); Array "HOLDERS" []]]] |} ])
    (session_of [] []).

(** One bar of an intraday response; the vendor's order of the fields is not
    the order of the columns. *)
Definition bar (time volume open high low close : Z) : Element :=
  Sequence "barTickData"
    [Simple "time" (SDate time); Simple "volume" (SNum volume);
     Simple "close" (SNum close); Simple "low" (SNum low);
     Simple "high" (SNum high); Simple "open" (SNum open);
     Simple "numEvents" (SNum 1)].




(** A one-field time-series exchange: the securities answer in another
    order than requested, the later row first. *)
Definition px_exchange : World :=
  world_of
    (session_of []
       [ {| eventType := RESPONSE;
            messages :=
              [hist_message "A" [hist_row 11 [("PX_LAST", 6)];
                                 hist_row 10 [("PX_LAST", 5)]];
               hist_message "B" [hist_row 10 [("PX_LAST", 7)]]] |} ])
    (session_of [] []).



(** The exchange [px_exchange] with its two messages in the other order. *)
Definition px_exchange_swapped : World :=
  world_of
    (session_of []
       [ {| eventType := RESPONSE;
            messages :=
              [hist_message "B" [hist_row 10 [("PX_LAST", 7)]];
               hist_message "A" [hist_row 11 [("PX_LAST", 6)];
                                 hist_row 10 [("PX_LAST", 5)]]] |} ])
    (session_of [] []).



(** A step that only appends to the list it is given, the same records
    whatever the list. *)
Definition appending {B : Type} (h : list B → result (list B)) : Prop :=
  ∀ d, h d = (λ rs, d ++ rs) <$> h [].

(** The exchange [ref_exchange] with its securities in one message, in the
    other order. *)
Definition ref_exchange_swapped : World :=
  world_of
    (session_of []
       [ {| eventType := RESPONSE;
            messages :=
              [ref_message (SNum 1)
                 [ref_security_data "A"
                    [Simple "NAME" (SStr "ay"); Array "HOLDERS" []]];
               ref_message (SNum 1)
                 [ref_security_data "B"
                    [Array "HOLDERS"
                       [simple_entry "HOLDERS" [("who", SStr "x"); ("n", SNum 3)]];
                     Simple "NAME" (SStr "bee")]]] |} ])
    (session_of [] []).

(** The table both reference exchanges give. *)
Definition name_holders_table : DataFrame string :=
  mkDF ["NAME"; "HOLDERS"] (Index ["A"; "B"])
    [[Some (PItem (IScalar (SStr "ay"))); Some (PList [])];
     [Some (PItem (IScalar (SStr "bee")));
      Some (PList [IScalar (SStr "x"); IScalar (SNum 3)])]].

(** A session that cannot be started, and a connection on it that never
    obtained its service. *)
Definition dead_session : Session :=
  {| start_ok := false; open_ok := false; pending := [timeout_event];
     arrivals := λ _, timeout_event; polled := 0 |}.

Definition unstarted_world : World :=
  {| session := dead_session; refDataService := None;
     fresh := λ _, dead_session; created := 1; log := [] |}.

(** The requests a list of operations sends, with their correlation
    values. *)
Definition sent_request (o : Op) : list (Request * option Scalar) :=
  match o with
  | SendRequest r cid => [(r, cid)]
  | _ => []
  end.

Definition sent_requests (ops : list Op) : list (Request * option Scalar) :=
  ops ≫= sent_request.

(** The override entry built from a pair of the [ovrds] argument. *)
Definition override_of (p : string * Scalar) : Override :=
  [("fieldId", SStr p.1); ("value", p.2)].



(** ** Vocabulary of the table of [ref_hist] *)

(** The cells, rows and columns of the pivot table built from the records
    [data], whose (date, (ticker, field)) keys are [keys]. *)
Definition hist_cells (data : list HistRecord) (keys : list (Z * (string * string)))
  : gmap (Z * (string * string)) PyVal :=
  list_to_map (zip keys ((λ r : HistRecord, PItem r.1.2) <$> data)).

Definition hist_rows (keys : list (Z * (string * string))) : list Z :=
  merge_sort Z.le (elements (list_to_set (keys.*1) : gset Z)).

Definition hist_cols (keys : list (Z * (string * string))) : list (string * string) :=
  merge_sort pair_le (elements (list_to_set (keys.*2) : gset (string * string))).

(** * Lemmas *)

Lemma World_eq (w1 w2 : World) :
  session w1 = session w2 → refDataService w1 = refDataService w2 →
  fresh w1 = fresh w2 → created w1 = created w2 → log w1 = log w2 → w1 = w2.
Proof. destruct w1, w2; simpl; intros; subst; reflexivity. Qed.

Lemma Session_eq (s1 s2 : Session) :
  start_ok s1 = start_ok s2 → open_ok s1 = open_ok s2 →
  pending s1 = pending s2 → arrivals s1 = arrivals s2 → polled s1 = polled s2 →
  s1 = s2.
Proof. destruct s1, s2; simpl; intros; subst; reflexivity. Qed.

Lemma nextEvent_eq t w :
  Sess.nextEvent t w =
  (Ret (peek (session w)),
   log_op (NextEvent t (peek (session w))) (set_session (pop (session w)) w)).
Proof.
  unfold Sess.nextEvent, peek, pop. destruct (pending (session w)); reflexivity.
Qed.

Lemma iter_pop_succ k s : Nat.iter k pop (pop s) = Nat.iter (S k) pop s.
Proof. induction k as [|k IH]; simpl in *; [reflexivity|]. by rewrite IH. Qed.

Lemma upcoming_pop s i : upcoming (pop s) i = upcoming s (S i).
Proof. unfold upcoming. by rewrite iter_pop_succ. Qed.

Lemma upcoming_list_succ s k :
  upcoming_list s (S k) = peek s :: upcoming_list (pop s) k.
Proof.
  unfold upcoming_list. simpl. f_equal.
  rewrite <- fmap_S_seq, <- list_fmap_compose.
  apply list_fmap_ext. intros _ i _. simpl. by rewrite upcoming_pop.
Qed.

Lemma polls_0 t w : polls t 0 w = w.
Proof.
  apply World_eq; simpl; try reflexivity. by rewrite app_nil_r.
Qed.

Lemma polls_succ t k w :
  polls t (S k) w =
  polls t k (log_op (NextEvent t (peek (session w)))
               (set_session (pop (session w)) w)).
Proof.
  apply World_eq; try reflexivity.
  - cbn [polls log_ops set_session log_op session]. by rewrite iter_pop_succ.
  - cbn [polls log_ops set_session log_op session log].
    rewrite upcoming_list_succ, fmap_cons, <- app_assoc. reflexivity.
Qed.

Lemma polls_log t k w :
  log (polls t k w) = log w ++ (NextEvent t <$> upcoming_list (session w) k).
Proof. reflexivity. Qed.

Lemma polls_session t k w : session (polls t k w) = Nat.iter k pop (session w).
Proof. reflexivity. Qed.

Lemma upcoming_no_pending s i :
  pending s = [] → upcoming s i = arrivals s (polled s + i)%nat.
Proof.
  revert s. induction i as [|i IH]; intros s Hs.
  - unfold upcoming, peek. simpl. rewrite Hs. f_equal. lia.
  - rewrite <- upcoming_pop. unfold pop. rewrite Hs.
    rewrite IH by done. simpl. f_equal. lia.
Qed.

(** ** The monad *)

Lemma bind_eq {A B : Type} (m : M A) (f : A → M B) w :
  (m ≫= f) w =
  match m w with
  | (Ret a, w') => f a w'
  | (Raise e, w') => (Raise e, w')
  | (OutOfFuel, w') => (OutOfFuel, w')
  end.
Proof. reflexivity. Qed.

Lemma bind_ret_inv {A B : Type} (m : M A) (f : A → M B) w b w' :
  (m ≫= f) w = (Ret b, w') →
  ∃ a w1, m w = (Ret a, w1) ∧ f a w1 = (Ret b, w').
Proof.
  rewrite bind_eq. destruct (m w) as [[a|e|] w1]; [eauto|done..].
Qed.

Lemma lift_ret_inv {A : Type} (r : result A) w a w' :
  lift r w = (Ret a, w') → r = Ok a ∧ w' = w.
Proof. destruct r; inversion 1; auto. Qed.

(** ** Draining the queue *)

Lemma flush_enough fuel w :
  (length (pending (session w)) < fuel)%nat → flush fuel w = (Ret (), flushed w).
Proof.
  revert w. induction fuel as [|fuel IH]; intros w Hlen; [lia|].
  cbn [flush]. rewrite bind_eq. unfold Sess.tryNextEvent.
  destruct (pending (session w)) as [|ev q] eqn:Hq.
  - cbn. f_equal. apply World_eq; cbn; rewrite ?Hq; try reflexivity.
    apply Session_eq; cbn; auto.
  - rewrite IH.
    + f_equal. apply World_eq; cbn; try reflexivity.
      rewrite Hq. cbn. rewrite <- app_assoc. reflexivity.
    + cbn. rewrite Hq. cbn in *. lia.
Qed.

Lemma flush_short fuel w :
  (fuel ≤ length (pending (session w)))%nat → (flush fuel w).1 = OutOfFuel.
Proof.
  revert w. induction fuel as [|fuel IH]; intros w Hlen; [reflexivity|].
  cbn [flush]. rewrite bind_eq. unfold Sess.tryNextEvent.
  destruct (pending (session w)) as [|ev q] eqn:Hq; [cbn in Hlen; lia|].
  apply IH. cbn. rewrite Hq. cbn in *. lia.
Qed.

Lemma flush_ret_inv fuel w u w' :
  flush fuel w = (Ret u, w') →
  w' = flushed w ∧ (length (pending (session w)) < fuel)%nat.
Proof.
  intros H. destruct (decide (length (pending (session w)) < fuel)%nat) as [Hlt|Hge].
  - rewrite flush_enough in H by done. by inversion H.
  - pose proof (flush_short fuel w ltac:(lia)) as Hs. rewrite H in Hs. done.
Qed.

Lemma flush_not_raise fuel w e w' : flush fuel w ≠ (Raise e, w').
Proof.
  intros H. destruct (decide (length (pending (session w)) < fuel)%nat) as [Hlt|Hge].
  - rewrite flush_enough in H by done. done.
  - pose proof (flush_short fuel w ltac:(lia)) as Hs. rewrite H in Hs. done.
Qed.

(** ** The collecting loop *)

Section event_loop.
Context {D : Type} (t : option Z) (f : Message → D → result D)
        (stop : Event → D → result bool).

Lemma event_loop_eq fuel d w :
  event_loop (S fuel) t f stop d w =
  let ev := peek (session w) in
  let w1 := log_op (NextEvent t ev) (set_session (pop (session w)) w) in
  match foldM f (messages ev) d with
  | Err e => (Raise e, w1)
  | Ok d1 =>
      match stop ev d1 with
      | Err e => (Raise e, w1)
      | Ok true => (Ret d1, w1)
      | Ok false => event_loop fuel t f stop d1 w1
      end
  end.
Proof.
  cbn [event_loop]. rewrite bind_eq, nextEvent_eq. cbn zeta.
  rewrite bind_eq. destruct (foldM f _ d) as [d1|e]; [|reflexivity].
  cbn [lift]. unfold mret at 1, M_ret at 1. rewrite bind_eq.
  destruct (stop _ d1) as [[|]|e]; reflexivity.
Qed.

(** Whatever the outcome, the loop has only polled. *)
Lemma event_loop_world fuel d w :
  ∃ k, (k ≤ fuel)%nat ∧ (event_loop fuel t f stop d w).2 = polls t k w.
Proof.
  revert d w. induction fuel as [|fuel IH]; intros d w.
  - exists 0%nat. split; [lia|]. by rewrite polls_0.
  - rewrite event_loop_eq. cbn zeta.
    destruct (foldM f _ d) as [d1|e].
    + destruct (stop _ d1) as [[|]|e].
      * exists 1%nat. split; [lia|]. by rewrite polls_succ, polls_0.
      * destruct (IH d1 (log_op (NextEvent t (peek (session w)))
                           (set_session (pop (session w)) w))) as (k & Hk & ->).
        exists (S k). split; [lia|]. by rewrite polls_succ.
      * exists 1%nat. split; [lia|]. by rewrite polls_succ, polls_0.
    + exists 1%nat. split; [lia|]. by rewrite polls_succ, polls_0.
Qed.

(** A returning loop has skipped some events and stopped at the next. *)
Lemma event_loop_ret_inv fuel d w d' w' :
  event_loop fuel t f stop d w = (Ret d', w') →
  ∃ k d1,
    (k < fuel)%nat ∧
    skips f stop (upcoming_list (session w) k) d d1 ∧
    foldM f (messages (upcoming (session w) k)) d1 = Ok d' ∧
    stop (upcoming (session w) k) d' = Ok true ∧
    w' = polls t (S k) w.
Proof.
  revert d w. induction fuel as [|fuel IH]; intros d w; [done|].
  rewrite event_loop_eq. cbn zeta.
  destruct (foldM f _ d) as [d1|e] eqn:Hf; [|done].
  destruct (stop _ d1) as [[|]|e] eqn:Hs; [| |done].
  - inversion 1; subst. exists 0%nat, d. split; [lia|].
    split; [constructor|]. split; [done|]. split; [done|].
    by rewrite polls_succ, polls_0.
  - intros H. apply IH in H as (k & d2 & Hk & Hsk & Hfk & Hst & ->).
    cbn [session set_session log_op] in *.
    exists (S k), d2. split; [lia|].
    rewrite upcoming_list_succ, <- !upcoming_pop.
    split; [by econstructor|]. split; [done|]. split; [done|].
    by rewrite (polls_succ t (S k)).
Qed.

(** Skipped events only move the loop forward. *)
Lemma event_loop_skips evs fuel d d1 w :
  upcoming_list (session w) (length evs) = evs →
  skips f stop evs d d1 →
  event_loop (length evs + fuel) t f stop d w =
  event_loop fuel t f stop d1 (polls t (length evs) w).
Proof.
  intros Hup Hsk. revert w Hup.
  induction Hsk as [d|ev evs d d1 d' Hf Hs Hsk IH]; intros w Hup.
  - by rewrite polls_0.
  - cbn [length] in *. rewrite upcoming_list_succ in Hup.
    injection Hup as Hev Hrest.
    replace (S (length evs) + fuel)%nat with (S (length evs + fuel)) by lia.
    rewrite event_loop_eq. cbn zeta. rewrite Hev, Hf, Hs.
    rewrite IH by (cbn; rewrite Hrest; done).
    by rewrite (polls_succ t (length evs)), Hev.
Qed.

Lemma skips_app evs1 evs2 d d1 d2 :
  skips f stop evs1 d d1 → skips f stop evs2 d1 d2 →
  skips f stop (evs1 ++ evs2) d d2.
Proof. induction 1; cbn; eauto using skips. Qed.

End event_loop.

Lemma foldM_app {A D : Type} (f : A → D → result D) l1 l2 d :
  foldM f (l1 ++ l2) d = foldM f l1 d ≫= foldM f l2.
Proof.
  revert d. induction l1 as [|x l1 IH]; intros d; [reflexivity|].
  cbn. destruct (f x d); cbn; [apply IH|reflexivity].
Qed.

Lemma foldM_ok_app {A D : Type} (f : A → D → result D) l1 l2 d d1 d2 :
  foldM f l1 d = Ok d1 → foldM f l2 d1 = Ok d2 → foldM f (l1 ++ l2) d = Ok d2.
Proof. intros H1 H2. by rewrite foldM_app, H1. Qed.

(** Every element of a fold that went through was processed without an
    exception. *)
Lemma foldM_ok_each {A D : Type} (f : A → D → result D) l d d' x :
  foldM f l d = Ok d' → x ∈ l → ∃ d0 d1, f x d0 = Ok d1.
Proof.
  revert d. induction l as [|y l IH]; intros d Hf Hx; [by apply elem_of_nil in Hx|].
  cbn in Hf. destruct (f y d) as [d1|] eqn:Hy; [|done].
  apply elem_of_cons in Hx as [->|Hx]; eauto.
Qed.

(** ** Loops that stop on the response-complete event *)

Lemma skips_response {D : Type} (f : Message → D → result D) evs d d1 :
  skips f stop_on_response evs d d1 →
  Forall (λ ev, eventType ev ≠ RESPONSE) evs ∧
  foldM f (evs ≫= messages) d = Ok d1.
Proof.
  induction 1 as [d|ev evs d d1 d' Hf Hs _ [IH1 IH2]]; [by split; [constructor|]|].
  split.
  - constructor; [|done]. unfold stop_on_response in Hs.
    injection Hs as Hs. by apply bool_decide_eq_false in Hs.
  - cbn. by eapply foldM_ok_app.
Qed.

Lemma upcoming_list_lookup s k i :
  (i < k)%nat → upcoming_list s k !! i = Some (upcoming s i).
Proof.
  intros Hi. unfold upcoming_list. rewrite list_lookup_fmap, lookup_seq_lt by done.
  reflexivity.
Qed.

Lemma upcoming_list_snoc s k :
  upcoming_list s (S k) = upcoming_list s k ++ [upcoming s k].
Proof. unfold upcoming_list. by rewrite seq_S, fmap_app. Qed.

Lemma response_loop_ret_inv {D : Type} t (f : Message → D → result D)
    fuel d w d' w' :
  event_loop fuel t f stop_on_response d w = (Ret d', w') →
  ∃ k,
    (k < fuel)%nat ∧
    eventType (upcoming (session w) k) = RESPONSE ∧
    (∀ i, (i < k)%nat → eventType (upcoming (session w) i) ≠ RESPONSE) ∧
    foldM f (upcoming_list (session w) (S k) ≫= messages) d = Ok d' ∧
    w' = polls t (S k) w.
Proof.
  intros H. apply event_loop_ret_inv in H as (k & d1 & Hk & Hsk & Hf & Hs & ->).
  apply skips_response in Hsk as [Hall Hfold].
  exists k. split; [done|]. split.
  { injection Hs as Hs. by apply bool_decide_eq_true in Hs. }
  split.
  { intros i Hi. eapply Forall_lookup_1 in Hall; [exact Hall|].
    by apply upcoming_list_lookup. }
  split; [|done].
  rewrite upcoming_list_snoc, bind_app. cbn. rewrite app_nil_r.
  by eapply foldM_ok_app.
Qed.

(** On a stream without a response-complete event such a loop never
    returns. *)
Lemma response_loop_never_returns {D : Type} t (f : Message → D → result D)
    fuel d w d' w' :
  (∀ i, eventType (upcoming (session w) i) ≠ RESPONSE) →
  event_loop fuel t f stop_on_response d w ≠ (Ret d', w').
Proof.
  intros Hno H. apply response_loop_ret_inv in H as (k & _ & Hk & _). by eapply Hno.
Qed.

Lemma call_log_ops w os : call_log w (log_ops os w) = os.
Proof. unfold call_log. cbn. by rewrite drop_app_length. Qed.

Lemma call_log_app w w' os :
  log w' = log w ++ os → call_log w w' = os.
Proof. unfold call_log. intros ->. by rewrite drop_app_length. Qed.

(** ** The calls that drain the queue *)

Lemma upcoming_submitted ops w i :
  upcoming (session (submitted ops w)) i =
  arrivals (session w) (polled (session w) + i)%nat.
Proof. cbn. by rewrite upcoming_no_pending. Qed.

Section drained_call.
Context {D R : Type} (op : string) (build : Request → Request)
        (f : Message → D → result D) (post : D → result R) (d0 : D).

Let call (fuel : nat) : M R :=
  _ ← flush fuel;
  request ← createRequest op;
  _ ← Sess.sendRequest (build request) None;
  data ← event_loop fuel (Some 500) f stop_on_response d0;
  lift (post data).

Lemma drained_call_eq fuel w :
  (length (pending (session w)) < fuel)%nat →
  is_Some (refDataService w) →
  call fuel w =
  finish post
    (event_loop fuel (Some 500) f stop_on_response d0
       (submitted [CreateRequest op;
                   SendRequest (build (createRequest_obj op)) None] w)).
Proof.
  intros Hlen [svc Hsvc]. unfold call. rewrite bind_eq, flush_enough by done.
  rewrite bind_eq. unfold createRequest at 1.
  cbn [refDataService flushed log_ops set_session].
  rewrite Hsvc. rewrite bind_eq. unfold Sess.sendRequest, emit.
  rewrite bind_eq.
  match goal with
  | |- match event_loop _ _ _ _ _ ?w1 with _ => _ end =
       finish _ (event_loop _ _ _ _ _ ?w2) =>
      replace w1 with w2
  end.
  - unfold finish. destruct (event_loop _ _ _ _ _ _) as [[data|e|] w2]; reflexivity.
  - apply World_eq; cbn; try reflexivity.
    rewrite <- !app_assoc. reflexivity.
Qed.

Lemma drained_call_no_service fuel w :
  (length (pending (session w)) < fuel)%nat →
  refDataService w = None →
  call fuel w = (Raise AttributeError, flushed w).
Proof.
  intros Hlen Hsvc. unfold call. rewrite bind_eq, flush_enough by done.
  rewrite bind_eq. unfold createRequest.
  cbn [refDataService flushed log_ops set_session].
  by rewrite Hsvc.
Qed.

Lemma drained_call_short fuel w :
  (fuel ≤ length (pending (session w)))%nat → (call fuel w).1 = OutOfFuel.
Proof.
  intros Hlen. unfold call. rewrite bind_eq.
  pose proof (flush_short fuel w Hlen) as Hs.
  destruct (flush fuel w) as [[u|e|] w1]; cbn in Hs; done.
Qed.

(** A returning call drained the queue, sent its request, read the
    arrivals up to the first response-complete event and reshaped what
    their messages gave. *)
Lemma drained_call_ret_inv fuel w r w' :
  call fuel w = (Ret r, w') →
  ∃ k data,
    (length (pending (session w)) < fuel)%nat ∧ (k < fuel)%nat ∧
    eventType (arrivals (session w) (polled (session w) + k)%nat) = RESPONSE ∧
    (∀ i, (i < k)%nat →
          eventType (arrivals (session w) (polled (session w) + i)%nat) ≠ RESPONSE) ∧
    foldM f (upcoming_list (clear_pending (session w)) (S k) ≫= messages) d0
      = Ok data ∧
    post data = Ok r ∧
    w' = polls (Some 500) (S k)
           (submitted [CreateRequest op;
                       SendRequest (build (createRequest_obj op)) None] w).
Proof.
  intros H.
  destruct (decide (length (pending (session w)) < fuel)%nat) as [Hlen|Hlen].
  2:{ pose proof (drained_call_short fuel w ltac:(lia)) as Hs.
      rewrite H in Hs. done. }
  destruct (refDataService w) as [svc|] eqn:Hsvc.
  2:{ rewrite drained_call_no_service in H by done. done. }
  rewrite drained_call_eq in H by eauto.
  unfold finish in H.
  destruct (event_loop _ _ _ _ _ _) as [[data|e|] w2] eqn:Hloop; [|done..].
  apply lift_ret_inv in H as [Hpost ->].
  apply response_loop_ret_inv in Hloop as (k & Hk & Hresp & Hbefore & Hfold & ->).
  exists k, data. split; [done|]. split; [done|].
  rewrite upcoming_submitted in Hresp. split; [done|]. split.
  { intros i Hi. specialize (Hbefore i Hi). by rewrite upcoming_submitted in Hbefore. }
  done.
Qed.

End drained_call.

Lemma polled_event_next t evs : (NextEvent t <$> evs) ≫= polled_event = evs.
Proof. induction evs as [|ev evs IH]; [done|]. cbn. by rewrite IH. Qed.

Lemma polled_event_try evs :
  (TryNextEvent ∘ Some <$> evs) ≫= polled_event = [].
Proof. induction evs as [|ev evs IH]; [done|]. cbn. by rewrite IH. Qed.

Lemma polled_event_none ops :
  Forall (λ o, polled_event o = []) ops → ops ≫= polled_event = [].
Proof. induction 1 as [|o ops Ho _ IH]; [done|]. cbn. by rewrite Ho, IH. Qed.

Lemma call_log_drained ops t k w :
  call_log w (polls t k (submitted ops w)) =
  (TryNextEvent ∘ Some <$> pending (session w)) ++ [TryNextEvent None] ++ ops ++
  (NextEvent t <$> upcoming_list (clear_pending (session w)) k).
Proof.
  apply call_log_app. rewrite polls_log. cbn. rewrite <- !app_assoc. reflexivity.
Qed.

Lemma polled_events_drained ops t k w :
  Forall (λ o, polled_event o = []) ops →
  call_log w (polls t k (submitted ops w)) ≫= polled_event =
  upcoming_list (clear_pending (session w)) k.
Proof.
  intros Hops. rewrite call_log_drained, !bind_app.
  rewrite polled_event_try, (polled_event_none ops), polled_event_next by done.
  reflexivity.
Qed.

Lemma custom_req_eq fuel request w :
  (length (pending (session w)) < fuel)%nat →
  custom_req fuel request w =
  event_loop fuel (Some 500) (λ msg messages, Ok (messages ++ [msg]))
    stop_on_response [] (submitted [SendRequest request None] w).
Proof.
  intros Hlen. unfold custom_req. rewrite bind_eq, flush_enough by done.
  rewrite bind_eq. reflexivity.
Qed.

Lemma custom_req_short fuel request w :
  (fuel ≤ length (pending (session w)))%nat →
  (custom_req fuel request w).1 = OutOfFuel.
Proof.
  intros Hlen. unfold custom_req. rewrite bind_eq.
  pose proof (flush_short fuel w Hlen) as Hs.
  destruct (flush fuel w) as [[u|e|] w1]; cbn in Hs; done.
Qed.

Lemma custom_req_ret_inv fuel request w r w' :
  custom_req fuel request w = (Ret r, w') →
  ∃ k,
    (length (pending (session w)) < fuel)%nat ∧ (k < fuel)%nat ∧
    eventType (arrivals (session w) (polled (session w) + k)%nat) = RESPONSE ∧
    (∀ i, (i < k)%nat →
          eventType (arrivals (session w) (polled (session w) + i)%nat) ≠ RESPONSE) ∧
    w' = polls (Some 500) (S k) (submitted [SendRequest request None] w).
Proof.
  intros H.
  destruct (decide (length (pending (session w)) < fuel)%nat) as [Hlen|Hlen].
  2:{ pose proof (custom_req_short fuel request w ltac:(lia)) as Hs.
      rewrite H in Hs. done. }
  rewrite custom_req_eq in H by done.
  apply response_loop_ret_inv in H as (k & Hk & Hresp & Hbefore & _ & ->).
  exists k. split; [done|]. split; [done|].
  rewrite upcoming_submitted in Hresp. split; [done|]. split; [|done].
  intros i Hi. specialize (Hbefore i Hi). by rewrite upcoming_submitted in Hbefore.
Qed.

(** The collecting loop of [custom_req] cannot raise. *)
Lemma collect_loop_total fuel t d w :
  ∀ e w', event_loop fuel t (λ msg messages, Ok (messages ++ [msg]))
            stop_on_response d w ≠ (Raise e, w').
Proof.
  revert d w. induction fuel as [|fuel IH]; intros d w e w'; [done|].
  rewrite event_loop_eq. cbn zeta.
  assert (∀ l d, ∃ d1, foldM (λ (msg : Message) messages, Ok (messages ++ [msg])) l d
                       = Ok d1) as Hfold.
  { clear. induction l as [|x l IHl]; intros d; cbn; eauto. }
  destruct (Hfold (messages (peek (session w))) d) as [d1 ->].
  unfold stop_on_response. case_bool_decide; [done|]. apply IH.
Qed.

(** ** The three shaping calls that drain the queue, as instances *)

Lemma bdh_ret_inv fuel tickers flds sd ed ps ov w df w' :
  bdh fuel tickers flds sd ed ps ov w = (Ret df, w') →
  ∃ k data,
    (length (pending (session w)) < fuel)%nat ∧ (k < fuel)%nat ∧
    eventType (arrivals (session w) (polled (session w) + k)%nat) = RESPONSE ∧
    (∀ i, (i < k)%nat →
          eventType (arrivals (session w) (polled (session w) + i)%nat) ≠ RESPONSE) ∧
    foldM (bdh_msg (as_list flds))
      (upcoming_list (clear_pending (session w)) (S k) ≫= messages) ∅ = Ok data ∧
    bdh_frame (as_list tickers) (as_list flds) data = Ok df ∧
    w' = polls (Some 500) (S k)
           (submitted
              [CreateRequest "HistoricalDataRequest";
               SendRequest
                 (bdh_request (as_list tickers) (as_list flds) sd ed ps ov) None] w).
Proof.
  exact (drained_call_ret_inv "HistoricalDataRequest"
           (λ request,
              fill_overrides ov
                (request_set "endDate" (SStr ed)
                   (request_set "startDate" (SStr sd)
                      (request_set "periodicitySelection" (SStr ps)
                         (request_set "periodicityAdjustment" (SStr "ACTUAL")
                            (fill_request (as_list tickers) (as_list flds) request))))))
           (bdh_msg (as_list flds)) (bdh_frame (as_list tickers) (as_list flds)) ∅
           fuel w df w').
Qed.

Lemma ref_ret_inv fuel tickers flds ov w df w' :
  ref fuel tickers flds ov w = (Ret df, w') →
  ∃ k data,
    (length (pending (session w)) < fuel)%nat ∧ (k < fuel)%nat ∧
    eventType (arrivals (session w) (polled (session w) + k)%nat) = RESPONSE ∧
    (∀ i, (i < k)%nat →
          eventType (arrivals (session w) (polled (session w) + i)%nat) ≠ RESPONSE) ∧
    foldM (ref_msg (as_list flds))
      (upcoming_list (clear_pending (session w)) (S k) ≫= messages) [] = Ok data ∧
    ref_frame (as_list tickers) (as_list flds) data = Ok df ∧
    w' = polls (Some 500) (S k)
           (submitted
              [CreateRequest "ReferenceDataRequest";
               SendRequest (ref_request (as_list tickers) (as_list flds) ov) None] w).
Proof.
  exact (drained_call_ret_inv "ReferenceDataRequest"
           (λ request,
              fill_overrides ov (fill_request (as_list tickers) (as_list flds) request))
           (ref_msg (as_list flds)) (ref_frame (as_list tickers) (as_list flds)) []
           fuel w df w').
Qed.

Lemma bdib_ret_inv fuel ticker sdt edt et interval w df w' :
  bdib fuel ticker sdt edt et interval w = (Ret df, w') →
  ∃ k data,
    (length (pending (session w)) < fuel)%nat ∧ (k < fuel)%nat ∧
    eventType (arrivals (session w) (polled (session w) + k)%nat) = RESPONSE ∧
    (∀ i, (i < k)%nat →
          eventType (arrivals (session w) (polled (session w) + i)%nat) ≠ RESPONSE) ∧
    foldM (bdib_msg bar_flds)
      (upcoming_list (clear_pending (session w)) (S k) ≫= messages) ∅ = Ok data ∧
    bdib_frame bar_flds data = Ok df ∧
    w' = polls (Some 500) (S k)
           (submitted
              [CreateRequest "IntradayBarRequest";
               SendRequest (bdib_request ticker sdt edt et interval) None] w).
Proof.
  exact (drained_call_ret_inv "IntradayBarRequest"
           (λ request,
              request_set "endDateTime" (SStr edt)
                (request_set "startDateTime" (SStr sdt)
                   (request_set "interval" (SNum interval)
                      (request_set "eventType" (SStr et)
                         (request_set "security" (SStr ticker) request)))))
           (bdib_msg bar_flds) (bdib_frame bar_flds) ∅
           fuel w df w').
Qed.

Lemma bdh_eq fuel tickers flds sd ed ps ov w :
  (length (pending (session w)) < fuel)%nat →
  is_Some (refDataService w) →
  bdh fuel tickers flds sd ed ps ov w =
  finish (bdh_frame (as_list tickers) (as_list flds))
    (event_loop fuel (Some 500) (bdh_msg (as_list flds)) stop_on_response ∅
       (submitted
          [CreateRequest "HistoricalDataRequest";
           SendRequest
             (bdh_request (as_list tickers) (as_list flds) sd ed ps ov) None] w)).
Proof.
  exact (drained_call_eq "HistoricalDataRequest"
           (λ request,
              fill_overrides ov
                (request_set "endDate" (SStr ed)
                   (request_set "startDate" (SStr sd)
                      (request_set "periodicitySelection" (SStr ps)
                         (request_set "periodicityAdjustment" (SStr "ACTUAL")
                            (fill_request (as_list tickers) (as_list flds) request))))))
           (bdh_msg (as_list flds)) (bdh_frame (as_list tickers) (as_list flds)) ∅
           fuel w).
Qed.

Lemma ref_eq fuel tickers flds ov w :
  (length (pending (session w)) < fuel)%nat →
  is_Some (refDataService w) →
  ref fuel tickers flds ov w =
  finish (ref_frame (as_list tickers) (as_list flds))
    (event_loop fuel (Some 500) (ref_msg (as_list flds)) stop_on_response []
       (submitted
          [CreateRequest "ReferenceDataRequest";
           SendRequest (ref_request (as_list tickers) (as_list flds) ov) None] w)).
Proof.
  exact (drained_call_eq "ReferenceDataRequest"
           (λ request,
              fill_overrides ov (fill_request (as_list tickers) (as_list flds) request))
           (ref_msg (as_list flds)) (ref_frame (as_list tickers) (as_list flds)) []
           fuel w).
Qed.

Lemma bdib_eq fuel ticker sdt edt et interval w :
  (length (pending (session w)) < fuel)%nat →
  is_Some (refDataService w) →
  bdib fuel ticker sdt edt et interval w =
  finish (bdib_frame bar_flds)
    (event_loop fuel (Some 500) (bdib_msg bar_flds) stop_on_response ∅
       (submitted
          [CreateRequest "IntradayBarRequest";
           SendRequest (bdib_request ticker sdt edt et interval) None] w)).
Proof.
  exact (drained_call_eq "IntradayBarRequest"
           (λ request,
              request_set "endDateTime" (SStr edt)
                (request_set "startDateTime" (SStr sdt)
                   (request_set "interval" (SNum interval)
                      (request_set "eventType" (SStr et)
                         (request_set "security" (SStr ticker) request)))))
           (bdib_msg bar_flds) (bdib_frame bar_flds) ∅
           fuel w).
Qed.

Lemma upcoming_list_drained s k :
  upcoming_list (clear_pending s) k =
  (λ i, arrivals s (polled s + i)%nat) <$> seq 0 k.
Proof.
  unfold upcoming_list. apply list_fmap_ext. intros _ i _.
  by rewrite upcoming_no_pending.
Qed.

Lemma create_send_not_polled op r :
  Forall (λ o, polled_event o = []) [CreateRequest op; SendRequest r None].
Proof. repeat constructor. Qed.

(** ** Running the loop forward *)

Section event_loop_forward.
Context {D : Type} (t : option Z) (f : Message → D → result D)
        (stop : Event → D → result bool).

Lemma event_loop_at k fuel d d1 w :
  (k < fuel)%nat →
  skips f stop (upcoming_list (session w) k) d d1 →
  event_loop fuel t f stop d w =
  let ev := upcoming (session w) k in
  match foldM f (messages ev) d1 with
  | Err e => (Raise e, polls t (S k) w)
  | Ok d2 =>
      match stop ev d2 with
      | Err e => (Raise e, polls t (S k) w)
      | Ok true => (Ret d2, polls t (S k) w)
      | Ok false => event_loop (fuel - S k) t f stop d2 (polls t (S k) w)
      end
  end.
Proof.
  intros Hk Hsk.
  assert (length (upcoming_list (session w) k) = k) as Hlen.
  { unfold upcoming_list. by rewrite length_fmap, length_seq. }
  replace fuel with (length (upcoming_list (session w) k) + S (fuel - S k))%nat
    at 1 by lia.
  rewrite (event_loop_skips t f stop _ _ d d1 w); [|by rewrite Hlen|done].
  rewrite Hlen, event_loop_eq. cbn zeta.
  assert (peek (session (polls t k w)) = upcoming (session w) k) as -> by done.
  assert (log_op (NextEvent t (upcoming (session w) k))
            (set_session (pop (session (polls t k w))) (polls t k w))
          = polls t (S k) w) as ->.
  { apply World_eq; try reflexivity.
    cbn [log polls log_ops log_op set_session session].
    rewrite upcoming_list_snoc, fmap_app, <- app_assoc. reflexivity. }
  reflexivity.
Qed.

End event_loop_forward.

Lemma foldM_err_at {A D : Type} (f : A → D → result D) pre x post d d1 e :
  foldM f pre d = Ok d1 → f x d1 = Err e → foldM f (pre ++ x :: post) d = Err e.
Proof. intros H1 H2. rewrite foldM_app, H1. cbn. by rewrite H2. Qed.

(** ** The cardinality check of [ref_hist] *)

Lemma truediv_twice (a k m n : nat) :
  k ≠ 0%nat → m ≠ 0%nat →
  (len (replicate a ()) / len (replicate k ()) / len (replicate m ())
   = len (replicate n ()))%Qc ↔ a = (n * m * k)%nat.
Proof.
  intros Hk Hm. unfold len. rewrite !length_replicate.
  assert (Qc_of_Z (Z.of_nat k) ≠ 0%Qc) as Hk'.
  { rewrite <- Z2Qc_inj_0. intros H%Z2Qc_inj. lia. }
  assert (Qc_of_Z (Z.of_nat m) ≠ 0%Qc) as Hm'.
  { rewrite <- Z2Qc_inj_0. intros H%Z2Qc_inj. lia. }
  split.
  - intros H.
    assert (Qc_of_Z (Z.of_nat a)
            = (Qc_of_Z (Z.of_nat n) * Qc_of_Z (Z.of_nat m) * Qc_of_Z (Z.of_nat k))%Qc)
      as Ha.
    { rewrite <- H. field. auto. }
    rewrite <- !Z2Qc_inj_mul in Ha. apply Z2Qc_inj in Ha. lia.
  - intros ->. rewrite !Nat2Z.inj_mul, !Z2Qc_inj_mul. field. auto.
Qed.

Lemma len_replicate {A : Type} (l : list A) : len l = len (replicate (length l) ()).
Proof. unfold len. by rewrite length_replicate. Qed.

Section ref_hist_stop.
Context (flds tickers : list string) (dates : list Z).

Lemma ref_hist_stop_other ev data :
  eventType ev ≠ TIMEOUT → ref_hist_stop flds tickers dates ev data = Ok false.
Proof. intros H. unfold ref_hist_stop. by rewrite decide_False. Qed.

Lemma ref_hist_stop_timeout ev (data : list HistRecord) :
  eventType ev = TIMEOUT → flds ≠ [] → tickers ≠ [] →
  ref_hist_stop flds tickers dates ev data =
  if decide (length data = (length dates * length tickers * length flds)%nat)
  then Ok true
  else Err (RuntimeError "Timeout, increase timeout parameter").
Proof.
  intros Hev Hf Ht. unfold ref_hist_stop. rewrite decide_True by done.
  assert (length flds ≠ 0%nat) as Hk by (by destruct flds).
  assert (length tickers ≠ 0%nat) as Hm by (by destruct tickers).
  unfold truediv.
  rewrite (decide_False (P := len flds = 0%Qc)).
  2:{ unfold len. rewrite <- Z2Qc_inj_0. intros H%Z2Qc_inj. lia. }
  cbn. rewrite (decide_False (P := len tickers = 0%Qc)).
  2:{ unfold len. rewrite <- Z2Qc_inj_0. intros H%Z2Qc_inj. lia. }
  cbn.
  pose proof (truediv_twice (length data) (length flds) (length tickers)
                (length dates) Hk Hm) as Hiff.
  rewrite <- !len_replicate in Hiff.
  destruct (decide (len data / len flds / len tickers = len dates)%Qc) as [Hq|Hq];
    destruct (decide (length data = _)) as [Hn|Hn]; try reflexivity.
  - by apply Hiff in Hq.
  - by apply Hiff in Hn.
Qed.

(** The check lets the loop end only on a timeout event with the exact
    count. *)
Lemma ref_hist_stop_true ev (data : list HistRecord) :
  ref_hist_stop flds tickers dates ev data = Ok true →
  eventType ev = TIMEOUT ∧
  length data = (length dates * length tickers * length flds)%nat.
Proof.
  intros H.
  destruct (decide (eventType ev = TIMEOUT)) as [Hev|Hev].
  2:{ by rewrite ref_hist_stop_other in H. }
  split; [done|].
  destruct (decide (flds = [])) as [->|Hf].
  { unfold ref_hist_stop in H. rewrite decide_True in H by done. done. }
  destruct (decide (tickers = [])) as [->|Ht].
  { unfold ref_hist_stop, truediv in H. rewrite decide_True in H by done.
    destruct (decide (len flds = 0%Qc)); [done|]. cbn in H. done. }
  rewrite ref_hist_stop_timeout in H by done.
  by destruct (decide (length data = _)).
Qed.

End ref_hist_stop.

(** * The claims *)

(** C10.  The collecting loops of [bdh], [ref], [bdib] and [custom_req]
    leave only at a RESPONSE event: a call that returns has polled the
    arrivals up to and including the first RESPONSE event, all earlier ones
    (timeout events included) being of another type; hence on a stream
    without any RESPONSE event none of these calls returns, whatever the
    fuel, and [custom_req], which cannot raise, polls for ever. *)
Theorem loops_leave_only_on_response (fuel : nat) (w : World) :
  let arr := λ i, arrivals (session w) (polled (session w) + i)%nat in
  let at_first_response := λ w' : World,
    ∃ k, eventType (arr k) = RESPONSE ∧
         (∀ i, (i < k)%nat → eventType (arr i) ≠ RESPONSE) ∧
         call_log w w' ≫= polled_event = arr <$> seq 0 (S k) in
  ((∀ tickers flds sd ed ps ov df w',
      bdh fuel tickers flds sd ed ps ov w = (Ret df, w') → at_first_response w') ∧
   (∀ tickers flds ov df w',
      ref fuel tickers flds ov w = (Ret df, w') → at_first_response w') ∧
   (∀ ticker sdt edt et interval df w',
      bdib fuel ticker sdt edt et interval w = (Ret df, w') → at_first_response w') ∧
   (∀ request msgs w',
      custom_req fuel request w = (Ret msgs, w') → at_first_response w')) ∧
  ((∀ n, eventType (arrivals (session w) n) ≠ RESPONSE) →
   (∀ tickers flds sd ed ps ov df w',
      bdh fuel tickers flds sd ed ps ov w ≠ (Ret df, w')) ∧
   (∀ tickers flds ov df w', ref fuel tickers flds ov w ≠ (Ret df, w')) ∧
   (∀ ticker sdt edt et interval df w',
      bdib fuel ticker sdt edt et interval w ≠ (Ret df, w')) ∧
   (∀ request, (custom_req fuel request w).1 = OutOfFuel)).
Proof.
  intros arr at_first_response.
  assert ((∀ tickers flds sd ed ps ov df w',
      bdh fuel tickers flds sd ed ps ov w = (Ret df, w') → at_first_response w') ∧
   (∀ tickers flds ov df w',
      ref fuel tickers flds ov w = (Ret df, w') → at_first_response w') ∧
   (∀ ticker sdt edt et interval df w',
      bdib fuel ticker sdt edt et interval w = (Ret df, w') → at_first_response w') ∧
   (∀ request msgs w',
      custom_req fuel request w = (Ret msgs, w') → at_first_response w'))
    as Hret.
  { repeat split.
    - intros * H. apply bdh_ret_inv in H as (k & data & _ & _ & Hr & Hb & _ & _ & ->).
      exists k. split; [done|]. split; [done|].
      rewrite polled_events_drained by apply create_send_not_polled.
      apply upcoming_list_drained.
    - intros * H. apply ref_ret_inv in H as (k & data & _ & _ & Hr & Hb & _ & _ & ->).
      exists k. split; [done|]. split; [done|].
      rewrite polled_events_drained by apply create_send_not_polled.
      apply upcoming_list_drained.
    - intros * H. apply bdib_ret_inv in H as (k & data & _ & _ & Hr & Hb & _ & _ & ->).
      exists k. split; [done|]. split; [done|].
      rewrite polled_events_drained by apply create_send_not_polled.
      apply upcoming_list_drained.
    - intros * H. apply custom_req_ret_inv in H as (k & _ & _ & Hr & Hb & ->).
      exists k. split; [done|]. split; [done|].
      rewrite polled_events_drained by (repeat constructor).
      apply upcoming_list_drained. }
  split; [exact Hret|].
  intros Hno. destruct Hret as (Hbdh & Href & Hbdib & Hcust).
  repeat split.
  - intros * H. apply Hbdh in H as (k & Hr & _). by eapply Hno.
  - intros * H. apply Href in H as (k & Hr & _). by eapply Hno.
  - intros * H. apply Hbdib in H as (k & Hr & _). by eapply Hno.
  - intros request.
    destruct (decide (length (pending (session w)) < fuel)%nat) as [Hlen|Hlen];
      [|apply custom_req_short; lia].
    destruct (custom_req fuel request w) as [[msgs|e|] w'] eqn:H; [| |done].
    + apply Hcust in H as (k & Hr & _). by eapply Hno in Hr.
    + rewrite custom_req_eq in H by done. by apply collect_loop_total in H.
Qed.

Lemma loops_leave_only_on_response_witness :
  (custom_req 25 sample_request silent_world).1 = OutOfFuel.
Proof.
  destruct (loops_leave_only_on_response 25 silent_world) as [_ Hnever].
  apply Hnever. intros n. cbn. discriminate.
Defined.

(** C2.  In [bdh], a received message whose [securityData] carries a
    [securityError] element makes the body of the loop raise [LookupError]
    on that message; so a call that returns a table has received no such
    message, and a call whose earlier messages went through raises
    [LookupError] at the first such message.  [LookupError] is another
    exception than the [RuntimeError] of the cardinality check. *)
Theorem bdh_security_error_raises (fuel : nat) (tickers flds : StrOrList)
    (sd ed ps : string) (ov : list (string * Scalar)) (w : World) :
  (∀ msg data, has_security_error msg →
     bdh_msg (as_list flds) msg data = Err (LookupError msg)) ∧
  (∀ df w', bdh fuel tickers flds sd ed ps ov w = (Ret df, w') →
     ∀ msg, msg ∈ received w w' → ¬ has_security_error msg) ∧
  (∀ k d1 d2 pre msg post,
     (length (pending (session w)) < fuel)%nat → (k < fuel)%nat →
     is_Some (refDataService w) →
     skips (bdh_msg (as_list flds)) stop_on_response
       (upcoming_list (clear_pending (session w)) k) ∅ d1 →
     messages (arrivals (session w) (polled (session w) + k)%nat)
       = pre ++ msg :: post →
     foldM (bdh_msg (as_list flds)) pre d1 = Ok d2 →
     has_security_error msg →
     (bdh fuel tickers flds sd ed ps ov w).1 = Raise (LookupError msg)) ∧
  (∀ msg text, LookupError msg ≠ RuntimeError text).
Proof.
  assert (∀ msg data, has_security_error msg →
            bdh_msg (as_list flds) msg data = Err (LookupError msg)) as Hmsg.
  { intros msg data (sd' & Hsd & Herr). unfold bdh_msg. rewrite Hsd. cbn.
    by rewrite Herr. }
  split; [exact Hmsg|]. split; [|split; [|done]].
  - intros df w' H msg Hin Herr.
    apply bdh_ret_inv in H as (k & data & _ & _ & _ & _ & Hfold & _ & ->).
    unfold received in Hin.
    rewrite polled_events_drained in Hin by apply create_send_not_polled.
    destruct (foldM_ok_each _ _ _ _ _ Hfold Hin) as (d0 & d1 & Hok).
    rewrite (Hmsg msg d0 Herr) in Hok. done.
  - intros k d1 d2 pre msg post Hlen Hk Hsvc Hsk Hmsgs Hpre Herr.
    rewrite bdh_eq by done.
    rewrite (event_loop_at _ _ _ k fuel ∅ d1) by done.
    cbn zeta. rewrite upcoming_submitted, Hmsgs.
    rewrite (foldM_err_at _ pre msg post d1 d2 (LookupError msg)) by auto.
    reflexivity.
Qed.

Lemma bdh_security_error_raises_witness :
  (bdh 5 (Many ["A"; "B"; "C"]) (One "PX_LAST") "20200101" "20200131" "DAILY" []
       error_exchange).1
  = Raise (LookupError (security_error_message "C")).
Proof.
  destruct (bdh_security_error_raises 5 (Many ["A"; "B"; "C"]) (One "PX_LAST")
              "20200101" "20200131" "DAILY" [] error_exchange)
    as (_ & _ & Hraise & _).
  eapply (Hraise 1%nat _ _ [hist_message "B" [hist_row 10 [("PX_LAST", 7)]]]
            (security_error_message "C") []).
  - cbn. lia.
  - lia.
  - by eexists.
  - eapply skips_cons; [vm_compute; reflexivity|reflexivity|apply skips_nil].
  - vm_compute. reflexivity.
  - vm_compute. reflexivity.
  - eexists. split; vm_compute; reflexivity.
Defined.

(** ** [restart] and the sending loop of [ref_hist] *)

Lemma restart_eq w : restart w = (Ret (), restarted w).
Proof.
  unfold restart, start. rewrite bind_eq. unfold Sess.create at 1.
  rewrite bind_eq. unfold Sess.start at 1. cbn [session log_op set_created set_session].
  unfold restarted, start_ops, start_polls. cbn zeta.
  destruct (start_ok (fresh w (created w))) eqn:Hs; cbn [negb andb].
  2:{ unfold mret, M_ret. f_equal. apply World_eq; cbn; try reflexivity.
      by rewrite <- app_assoc. }
  rewrite bind_eq, nextEvent_eq. rewrite bind_eq. unfold Sess.openService at 1.
  cbn [session log_op set_created set_session].
  destruct (open_ok (pop (fresh w (created w)))) eqn:Ho.
  - assert (open_ok (fresh w (created w)) = true) as ->.
    { revert Ho. unfold pop. by destruct (pending _). }
    cbn [negb]. rewrite bind_eq, nextEvent_eq. rewrite bind_eq.
    unfold Sess.getService at 1. rewrite bind_eq, bind_eq, nextEvent_eq.
    unfold mret, M_ret. f_equal. apply World_eq; cbn; try reflexivity.
    rewrite <- !app_assoc. reflexivity.
  - assert (open_ok (fresh w (created w)) = false) as ->.
    { revert Ho. unfold pop. by destruct (pending _). }
    cbn [negb]. unfold mret, M_ret. f_equal. apply World_eq; cbn; try reflexivity.
    rewrite <- !app_assoc. reflexivity.
Qed.

Lemma start_ops_are_start_ops s : Forall is_start_op (start_ops s).
Proof.
  unfold start_ops. destruct (start_ok s), (open_ok s); repeat constructor.
Qed.

Lemma stamp_dated d o :
  o = [] ∨ (∃ d', o = dated d') →
  setElement "value" (SDate d) (setElement "fieldId" (SStr "REFERENCE_DATE") o)
  = dated d.
Proof. intros [->|[d' ->]]; reflexivity. Qed.

Lemma Request_eq (r1 r2 : Request) :
  operation r1 = operation r2 → securities r1 = securities r2 →
  fields r1 = fields r2 → settings r1 = settings r2 →
  overrides r1 = overrides r2 → r1 = r2.
Proof. destruct r1, r2; simpl; intros; subst; reflexivity. Qed.

Lemma fill_request_overrides tickers flds r :
  overrides (fill_request tickers flds r) = overrides r ∧
  settings (fill_request tickers flds r) = settings r ∧
  operation (fill_request tickers flds r) = operation r.
Proof.
  unfold fill_request.
  assert (∀ l r, overrides (foldl (λ r t, append_security t r) r l) = overrides r ∧
                 settings (foldl (λ r t, append_security t r) r l) = settings r ∧
                 operation (foldl (λ r t, append_security t r) r l) = operation r) as H1.
  { induction l as [|x l IHl]; intros r0; [done|]. cbn. exact (IHl _). }
  assert (∀ l r, overrides (foldl (λ r f, append_field f r) r l) = overrides r ∧
                 settings (foldl (λ r f, append_field f r) r l) = settings r ∧
                 operation (foldl (λ r f, append_field f r) r l) = operation r) as H2.
  { induction l as [|x l IHl]; intros r0; [done|]. cbn. exact (IHl _). }
  destruct (H2 flds (foldl (λ r t, append_security t r) r tickers)) as (-> & -> & ->).
  apply H1.
Qed.

Lemma send_dates_eq tickers flds dates r w :
  securities r = securities (hist_request tickers flds 0) →
  fields r = fields (hist_request tickers flds 0) →
  operation r = "ReferenceDataRequest" → settings r = [] →
  (overrides r = [[]] ∨ ∃ d', overrides r = [dated d']) →
  send_dates 0 dates r w = (Ret (), log_ops (hist_send tickers flds <$> dates) w).
Proof.
  revert r w. induction dates as [|d dates IH]; intros r w Hsec Hfld Hop Hset Hov.
  - cbn. unfold mret, M_ret. f_equal. apply World_eq; cbn; try reflexivity.
    by rewrite app_nil_r.
  - cbn [send_dates]. rewrite bind_eq. unfold Sess.sendRequest, emit.
    assert (set_overrides
              (alter (λ o, setElement "value" (SDate d)
                             (setElement "fieldId" (SStr "REFERENCE_DATE") o))
                     0%nat (overrides r)) r
            = hist_request tickers flds d) as Hreq.
    { destruct (fill_request_overrides tickers flds
                  (createRequest_obj "ReferenceDataRequest")) as (_ & Hset' & Hop').
      apply Request_eq; cbn; try done.
      - by rewrite Hop, Hop'.
      - by rewrite Hset, Hset'.
      - destruct Hov as [->|[d' ->]]; reflexivity. }
    destruct (fill_request_overrides tickers flds
                (createRequest_obj "ReferenceDataRequest")) as (_ & Hset' & Hop').
    rewrite Hreq, IH; try reflexivity.
    + f_equal. apply World_eq; cbn; try reflexivity. by rewrite <- app_assoc.
    + exact Hop'.
    + exact Hset'.
    + right. by exists d.
Qed.

Lemma ref_hist_eq fuel tickers flds sd ed t w :
  is_Some (refDataService (restarted w)) →
  ref_hist fuel tickers flds sd ed t w =
  finish (ref_hist_frame (as_list tickers) (as_list flds))
    (event_loop fuel (Some t) (ref_hist_msg (as_list flds))
       (ref_hist_stop (as_list flds) (as_list tickers) (bdate_range sd ed)) []
       (hist_submitted (as_list tickers) (as_list flds) (bdate_range sd ed) w)).
Proof.
  intros [svc Hsvc]. unfold ref_hist. rewrite bind_eq, restart_eq.
  rewrite bind_eq. unfold createRequest at 1. rewrite Hsvc. cbn zeta.
  rewrite bind_eq.
  destruct (fill_request_overrides (as_list tickers) (as_list flds)
              (createRequest_obj "ReferenceDataRequest")) as (Hov & Hset & Hop).
  rewrite Hov. cbn [createRequest_obj overrides length app].
  rewrite (send_dates_eq (as_list tickers) (as_list flds)); cbn; auto.
  rewrite bind_eq.
  match goal with
  | |- match event_loop _ _ _ _ _ ?w1 with _ => _ end =
       finish _ (event_loop _ _ _ _ _ ?w2) =>
      replace w1 with w2
  end.
  - unfold finish. destruct (event_loop _ _ _ _ _ _) as [[data|e|] w2]; reflexivity.
  - apply World_eq; cbn; try reflexivity. rewrite <- !app_assoc. reflexivity.
Qed.

Lemma ref_hist_no_service fuel tickers flds sd ed t w :
  refDataService (restarted w) = None →
  ref_hist fuel tickers flds sd ed t w = (Raise AttributeError, restarted w).
Proof.
  intros Hsvc. unfold ref_hist. rewrite bind_eq, restart_eq.
  rewrite bind_eq. unfold createRequest at 1. by rewrite Hsvc.
Qed.

(** C1.  In [ref_hist] over N business days, M instruments and K fields,
    the loop ends normally only at a timeout event at which exactly N*M*K
    records have been accumulated; at a timeout event with any other count,
    in particular one record short, the call raises the [RuntimeError]
    "Timeout, increase timeout parameter" and returns nothing. *)
Theorem ref_hist_cardinality (fuel : nat) (tickers flds : StrOrList)
    (sd ed t : Z) (w : World) :
  let T := as_list tickers in
  let F := as_list flds in
  let dates := bdate_range sd ed in
  let s1 := session (restarted w) in
  let expected := (length dates * length T * length F)%nat in
  (∀ df w', ref_hist fuel tickers flds sd ed t w = (Ret df, w') →
     ∃ k d1 data,
       skips (ref_hist_msg F) (ref_hist_stop F T dates) (upcoming_list s1 k) [] d1 ∧
       foldM (ref_hist_msg F) (messages (upcoming s1 k)) d1 = Ok data ∧
       eventType (upcoming s1 k) = TIMEOUT ∧
       length data = expected ∧
       ref_hist_frame T F data = Ok df) ∧
  (∀ k d1 data,
     is_Some (refDataService (restarted w)) → (k < fuel)%nat →
     T ≠ [] → F ≠ [] →
     skips (ref_hist_msg F) (ref_hist_stop F T dates) (upcoming_list s1 k) [] d1 →
     foldM (ref_hist_msg F) (messages (upcoming s1 k)) d1 = Ok data →
     eventType (upcoming s1 k) = TIMEOUT →
     length data ≠ expected →
     (ref_hist fuel tickers flds sd ed t w).1
     = Raise (RuntimeError "Timeout, increase timeout parameter")).
Proof.
  intros T F dates s1 expected. subst T F dates s1 expected. split.
  - intros df w' H.
    destruct (refDataService (restarted w)) as [svc|] eqn:Hsvc.
    2:{ by rewrite ref_hist_no_service in H. }
    rewrite ref_hist_eq in H by eauto. unfold finish in H.
    destruct (event_loop _ _ _ _ _ _) as [[data|e|] w2] eqn:Hloop; [|done..].
    apply lift_ret_inv in H as [Hpost ->].
    apply event_loop_ret_inv in Hloop as (k & d1 & _ & Hsk & Hf & Hstop & _).
    apply ref_hist_stop_true in Hstop as [Hev Hlen].
    by exists k, d1, data.
  - intros k d1 data Hsvc Hk HT HF Hsk Hf Hev Hlen.
    rewrite ref_hist_eq by done.
    rewrite (event_loop_at _ _ _ k fuel [] d1) by done.
    cbn zeta.
    assert (session (hist_submitted (as_list tickers) (as_list flds)
                       (bdate_range sd ed) w) = session (restarted w)) as ->
        by reflexivity.
    rewrite Hf, ref_hist_stop_timeout by done.
    by rewrite decide_False.
Qed.

Lemma ref_hist_cardinality_witness :
  (ref_hist 10 (Many ["A"; "B"]) (One "PX_LAST") 1 2 2000 short_exchange).1
  = Raise (RuntimeError "Timeout, increase timeout parameter").
Proof.
  destruct (ref_hist_cardinality 10 (Many ["A"; "B"]) (One "PX_LAST") 1 2 2000
              short_exchange) as [_ Hshort].
  eapply (Hshort 2%nat).
  - by eexists.
  - lia.
  - done.
  - done.
  - eapply skips_cons; [vm_compute; reflexivity|reflexivity|].
    eapply skips_cons; [vm_compute; reflexivity|reflexivity|apply skips_nil].
  - vm_compute. reflexivity.
  - reflexivity.
  - vm_compute. lia.
Defined.

(** ** The log of [ref_hist] *)

Lemma finish_world {D R : Type} (post : D → result R) r : (finish post r).2 = r.2.
Proof. destruct r as [[data|e|] w]; cbn; [|done..]. by destruct (post data). Qed.

Lemma bdate_range_spec sd ed d :
  d ∈ bdate_range sd ed ↔ (sd ≤ d ≤ ed ∧ is_business_day d).
Proof.
  unfold bdate_range. rewrite list_elem_of_filter, elem_of_seqZ. split.
  - intros [Hb Hr]. split; [lia|done].
  - intros [Hr Hb]. split; [done|lia].
Qed.

Lemma bdate_range_NoDup sd ed : NoDup (bdate_range sd ed).
Proof. apply NoDup_filter, NoDup_seqZ. Qed.

Lemma ref_hist_log fuel tickers flds sd ed t w :
  is_Some (refDataService (restarted w)) →
  ∃ k, (k ≤ fuel)%nat ∧
    call_log w (ref_hist fuel tickers flds sd ed t w).2 =
    NewSession (created w) :: start_ops (fresh w (created w)) ++
    CreateRequest "ReferenceDataRequest" ::
    (hist_send (as_list tickers) (as_list flds) <$> bdate_range sd ed) ++
    (NextEvent (Some t) <$> upcoming_list (session (restarted w)) k).
Proof.
  intros Hsvc. rewrite ref_hist_eq, finish_world by done.
  destruct (event_loop_world (Some t) (ref_hist_msg (as_list flds))
              (ref_hist_stop (as_list flds) (as_list tickers) (bdate_range sd ed))
              fuel []
              (hist_submitted (as_list tickers) (as_list flds) (bdate_range sd ed) w))
    as (k & Hk & ->).
  exists k. split; [done|]. apply call_log_app. rewrite polls_log.
  cbn [hist_submitted log_ops log restarted session].
  rewrite <- !app_assoc. reflexivity.
Qed.

(** C7.  Every call of [ref_hist] begins by replacing the session with a
    newly created one, which it starts; nothing is built or sent before.
    When the connection then has its reference-data service, the call
    creates its request and sends it once for every business day from
    [start_date] to [end_date], in order, each sending under the day as
    correlation value; the days are distinct, so the values are; after the
    sendings the call only polls. *)
Theorem ref_hist_restarts_then_sends (fuel : nat) (tickers flds : StrOrList)
    (sd ed t : Z) (w : World) :
  let T := as_list tickers in
  let F := as_list flds in
  let new := fresh w (created w) in
  let w' := (ref_hist fuel tickers flds sd ed t w).2 in
  (∃ rest, call_log w w' = NewSession (created w) :: start_ops new ++ rest) ∧
  Forall is_start_op (start_ops new) ∧
  session (restarted w) = Nat.iter (start_polls new) pop new ∧
  (is_Some (refDataService (restarted w)) →
   (∃ k, call_log w w' =
         NewSession (created w) :: start_ops new ++
         CreateRequest "ReferenceDataRequest" ::
         (hist_send T F <$> bdate_range sd ed) ++
         (NextEvent (Some t) <$> upcoming_list (session (restarted w)) k)) ∧
   (∀ d, hist_send T F d = SendRequest (hist_request T F d) (Some (SDate d))) ∧
   (∀ d, d ∈ bdate_range sd ed ↔ sd ≤ d ≤ ed ∧ is_business_day d) ∧
   NoDup (bdate_range sd ed) ∧
   NoDup ((Some ∘ SDate) <$> bdate_range sd ed)).
Proof.
  intros T F new w'. subst T F new w'.
  split; [|split; [apply start_ops_are_start_ops|split; [reflexivity|]]].
  - destruct (refDataService (restarted w)) as [svc|] eqn:Hsvc.
    + destruct (ref_hist_log fuel tickers flds sd ed t w) as (k & _ & ->); [by eexists|].
      eauto.
    + rewrite ref_hist_no_service by done. exists [].
      apply call_log_app. cbn. by rewrite app_nil_r.
  - intros Hsvc. split.
    { destruct (ref_hist_log fuel tickers flds sd ed t w Hsvc) as (k & _ & ->). eauto. }
    split; [reflexivity|]. split; [apply bdate_range_spec|].
    split; [apply bdate_range_NoDup|].
    apply NoDup_fmap_2; [|apply bdate_range_NoDup].
    intros d1 d2 H. by injection H.
Qed.

Lemma ref_hist_restarts_then_sends_witness :
  ∃ k, call_log short_exchange
         (ref_hist 10 (Many ["A"; "B"]) (One "PX_LAST") 1 7 2000 short_exchange).2 =
       NewSession 1 :: start_ops (new_session_of
         [ {| eventType := RESPONSE;
              messages := [ref_message (SDate 1) [px "A" 10; px "B" 20]] |};
           {| eventType := RESPONSE;
              messages := [ref_message (SDate 2) [px "A" 11]] |} ]) ++
       CreateRequest "ReferenceDataRequest" ::
       (hist_send ["A"; "B"] ["PX_LAST"] <$> [1; 2; 3; 4; 5]) ++
       (NextEvent (Some 2000) <$>
          upcoming_list (session (restarted short_exchange)) k).
Proof.
  destruct (ref_hist_restarts_then_sends 10 (Many ["A"; "B"]) (One "PX_LAST")
              1 7 2000 short_exchange) as (_ & _ & _ & Hsends).
  destruct Hsends as [Hlog _]; [by eexists|]. exact Hlog.
Defined.

(** ** The log of the calls that drain the queue *)

Section drained_call_log.
Context {D R : Type} (op : string) (build : Request → Request)
        (f : Message → D → result D) (post : D → result R) (d0 : D).

Let call (fuel : nat) : M R :=
  _ ← flush fuel;
  request ← createRequest op;
  _ ← Sess.sendRequest (build request) None;
  data ← event_loop fuel (Some 500) f stop_on_response d0;
  lift (post data).

Lemma drained_call_log fuel w :
  (length (pending (session w)) < fuel)%nat →
  ∃ k, (k ≤ fuel)%nat ∧
    call_log w (call fuel w).2 =
    drain_ops w ++
    match refDataService w with
    | Some _ =>
        [CreateRequest op; SendRequest (build (createRequest_obj op)) None] ++
        arrival_reads (Some 500) w k
    | None => []
    end.
Proof.
  intros Hlen. destruct (refDataService w) as [svc|] eqn:Hsvc.
  - unfold call.
    rewrite (drained_call_eq op build f post d0 fuel w Hlen) by eauto.
    rewrite finish_world.
    destruct (event_loop_world (Some 500) f stop_on_response fuel d0
                (submitted [CreateRequest op;
                            SendRequest (build (createRequest_obj op)) None] w))
      as (k & Hk & ->).
    exists k. split; [done|]. rewrite call_log_drained.
    unfold drain_ops, arrival_reads. rewrite upcoming_list_drained.
    rewrite <- !app_assoc. reflexivity.
  - exists 0%nat. split; [lia|]. unfold call.
    rewrite (drained_call_no_service op build f post d0 fuel w Hlen Hsvc).
    apply call_log_app. cbn. rewrite app_nil_r. reflexivity.
Qed.

End drained_call_log.

Lemma custom_req_log fuel request w :
  (length (pending (session w)) < fuel)%nat →
  ∃ k, (k ≤ fuel)%nat ∧
    call_log w (custom_req fuel request w).2 =
    drain_ops w ++ [SendRequest request None] ++ arrival_reads (Some 500) w k.
Proof.
  intros Hlen. rewrite custom_req_eq by done.
  destruct (event_loop_world (Some 500) (λ (msg : Message) messages, Ok (messages ++ [msg]))
              stop_on_response fuel [] (submitted [SendRequest request None] w))
    as (k & Hk & ->).
  exists k. split; [done|]. rewrite call_log_drained.
  unfold drain_ops, arrival_reads. rewrite upcoming_list_drained.
  rewrite <- !app_assoc. reflexivity.
Qed.

Lemma ref_hist_never_drains fuel tickers flds sd ed t w :
  Forall (λ o, ¬ is_drain_op o)
         (call_log w (ref_hist fuel tickers flds sd ed t w).2).
Proof.
  assert (Forall (λ o, ¬ is_drain_op o) (start_ops (fresh w (created w)))) as Hstart.
  { unfold start_ops.
    destruct (start_ok (fresh w (created w))), (open_ok (fresh w (created w)));
      repeat constructor; auto. }
  destruct (refDataService (restarted w)) as [svc|] eqn:Hsvc.
  - destruct (ref_hist_log fuel tickers flds sd ed t w) as (k & _ & ->); [by eexists|].
    constructor; [auto|]. apply Forall_app. split; [done|].
    constructor; [auto|]. apply Forall_app. split.
    + apply Forall_fmap, Forall_true. auto.
    + apply Forall_fmap, Forall_true. auto.
  - rewrite ref_hist_no_service by done. cbn [snd].
    rewrite (call_log_app w (restarted w)
               (NewSession (created w) :: start_ops (fresh w (created w))))
      by reflexivity.
    constructor; auto.
Qed.

(** C8, as the code has it.  [bdh], [ref], [bdib] and [custom_req] first
    drain the queue until it is empty, then create their request
    ([custom_req] receives it built) and send it, and from then on only
    poll: every event they read is an arrival, none was queued before the
    call.  [ref_hist] never drains: it starts by replacing the session with
    a new one. *)
Theorem calls_drain_then_build_then_send (fuel : nat) (w : World) :
  (length (pending (session w)) < fuel)%nat →
  (∀ tickers flds sd ed ps ov, ∃ k,
     call_log w (bdh fuel tickers flds sd ed ps ov w).2 =
     drain_ops w ++
     match refDataService w with
     | Some _ =>
         [CreateRequest "HistoricalDataRequest";
          SendRequest (bdh_request (as_list tickers) (as_list flds) sd ed ps ov) None]
         ++ arrival_reads (Some 500) w k
     | None => []
     end) ∧
  (∀ tickers flds ov, ∃ k,
     call_log w (ref fuel tickers flds ov w).2 =
     drain_ops w ++
     match refDataService w with
     | Some _ =>
         [CreateRequest "ReferenceDataRequest";
          SendRequest (ref_request (as_list tickers) (as_list flds) ov) None]
         ++ arrival_reads (Some 500) w k
     | None => []
     end) ∧
  (∀ ticker sdt edt et interval, ∃ k,
     call_log w (bdib fuel ticker sdt edt et interval w).2 =
     drain_ops w ++
     match refDataService w with
     | Some _ =>
         [CreateRequest "IntradayBarRequest";
          SendRequest (bdib_request ticker sdt edt et interval) None]
         ++ arrival_reads (Some 500) w k
     | None => []
     end) ∧
  (∀ request, ∃ k,
     call_log w (custom_req fuel request w).2 =
     drain_ops w ++ [SendRequest request None] ++ arrival_reads (Some 500) w k) ∧
  (∀ tickers flds sd ed t,
     Forall (λ o, ¬ is_drain_op o)
            (call_log w (ref_hist fuel tickers flds sd ed t w).2) ∧
     ∃ rest, call_log w (ref_hist fuel tickers flds sd ed t w).2
             = NewSession (created w) :: rest).
Proof.
  intros Hlen. repeat split.
  - intros tickers flds sd ed ps ov.
    destruct (drained_call_log "HistoricalDataRequest"
           (λ request,
              fill_overrides ov
                (request_set "endDate" (SStr ed)
                   (request_set "startDate" (SStr sd)
                      (request_set "periodicitySelection" (SStr ps)
                         (request_set "periodicityAdjustment" (SStr "ACTUAL")
                            (fill_request (as_list tickers) (as_list flds) request))))))
           (bdh_msg (as_list flds)) (bdh_frame (as_list tickers) (as_list flds)) ∅
           fuel w Hlen) as (k & _ & Hlog).
    exists k. exact Hlog.
  - intros tickers flds ov.
    destruct (drained_call_log "ReferenceDataRequest"
           (λ request,
              fill_overrides ov (fill_request (as_list tickers) (as_list flds) request))
           (ref_msg (as_list flds)) (ref_frame (as_list tickers) (as_list flds)) []
           fuel w Hlen) as (k & _ & Hlog).
    exists k. exact Hlog.
  - intros ticker sdt edt et interval.
    destruct (drained_call_log "IntradayBarRequest"
           (λ request,
              request_set "endDateTime" (SStr edt)
                (request_set "startDateTime" (SStr sdt)
                   (request_set "interval" (SNum interval)
                      (request_set "eventType" (SStr et)
                         (request_set "security" (SStr ticker) request)))))
           (bdib_msg bar_flds) (bdib_frame bar_flds) ∅
           fuel w Hlen) as (k & _ & Hlog).
    exists k. exact Hlog.
  - intros request.
    destruct (custom_req_log fuel request w Hlen) as (k & _ & Hlog). eauto.
  - apply ref_hist_never_drains.
  - destruct (refDataService (restarted w)) as [svc|] eqn:Hsvc.
    + destruct (ref_hist_log fuel tickers flds sd ed t w) as (k & _ & ->); [by eexists|].
      eauto.
    + rewrite ref_hist_no_service by done. cbn [snd].
      rewrite (call_log_app w (restarted w)
                 (NewSession (created w) :: start_ops (fresh w (created w))))
        by reflexivity.
      eauto.
Qed.

Lemma calls_drain_then_build_then_send_witness :
  ∃ k, call_log error_exchange
         (custom_req 5 sample_request error_exchange).2 =
       [TryNextEvent (Some timeout_event); TryNextEvent None;
        SendRequest sample_request None]
       ++ arrival_reads (Some 500) error_exchange k.
Proof.
  destruct (calls_drain_then_build_then_send 5 error_exchange) as (_ & _ & _ & H & _).
  - cbn. lia.
  - exact (H sample_request).
Defined.

(** C8, as it is worded, fails: in [bdh] the request is created after the
    drain has ended, and [ref_hist] does not drain at all. *)
Lemma build_precedes_drain_counterexample :
  ¬ built_then_drained_then_sent
      (call_log error_exchange
         (bdh 5 (Many ["A"; "B"; "C"]) (One "PX_LAST") "20200101" "20200131"
              "DAILY" [] error_exchange).2) ∧
  ¬ built_then_drained_then_sent
      (call_log short_exchange
         (ref_hist 10 (Many ["A"; "B"]) (One "PX_LAST") 1 2 2000 short_exchange).2).
Proof.
  split.
  - intros (i & j & k & op & r & cid & [Hij Hjk] & Hi & Hj & Hk).
    vm_compute in Hi, Hj.
    destruct j as [|[|j]].
    + lia.
    + assert (i = 0%nat) as -> by lia. discriminate Hi.
    + do 4 (destruct j as [|j]; [discriminate Hj|]). discriminate Hj.
  - intros (i & j & k & op & r & cid & _ & _ & Hj & _).
    pose proof (ref_hist_never_drains 10 (Many ["A"; "B"]) (One "PX_LAST") 1 2 2000
                  short_exchange) as Hall.
    eapply Forall_lookup_1 in Hall; [|exact Hj]. by apply Hall.
Qed.

(** ** Attribution of the values to the requested fields *)

Lemma foldM_ext {A D : Type} (f g : A → D → result D) l d :
  (∀ x d, f x d = g x d) → foldM f l d = foldM g l d.
Proof.
  intros Hfg. revert d. induction l as [|x l IH]; intros d; [done|].
  cbn. rewrite Hfg. destruct (g x d); cbn; auto.
Qed.

Lemma py_index_drop {A : Type} (l : list A) a x l' :
  drop a l = x :: l' → py_index l a = Ok x ∧ drop (S a) l = l'.
Proof.
  intros H. unfold py_index.
  assert (l !! a = Some x) as ->.
  { rewrite <- (Nat.add_0_r a), <- lookup_drop, H. done. }
  split; [done|].
  replace (S a) with (a + 1)%nat by lia. by rewrite <- drop_drop, H.
Qed.

(** A loop over [range(n)] that appends one record for the [j]-th requested
    name collects the records of the first [n] names. *)
Lemma foldM_collect {B : Type} (flds : list string) (g : string → result B)
    a n (data : list B) :
  (a + n ≤ length flds)%nat →
  foldM (λ j data, fld ← py_index flds j; r ← g fld; Ok (data ++ [r]))
        (seq a n) data
  = (λ rs, data ++ rs) <$> mapM (M := result) g (take n (drop a flds)).
Proof.
  revert a data. induction n as [|n IH]; intros a data Hlen.
  - rewrite take_0. cbn. by rewrite app_nil_r.
  - destruct (drop a flds) as [|fld rest] eqn:Hdrop.
    { apply (f_equal length) in Hdrop. rewrite length_drop in Hdrop. cbn in Hdrop. lia. }
    destruct (py_index_drop _ _ _ _ Hdrop) as [Hidx Hrest].
    cbn [seq foldM take]. rewrite Hidx. cbn.
    destruct (g fld) as [r|e]; [|reflexivity]. cbn.
    rewrite IH by lia. rewrite Hrest.
    destruct (mapM g (take n rest)) as [rs|e]; cbn; [|reflexivity].
    by rewrite <- app_assoc.
Qed.

(** The rows of [bdh]: the [j]-th value goes under the [j]-th name. *)
Lemma bdh_row_loop flds ticker t dt d row es vs a data :
  ticker = IScalar (SStr t) → dt = IScalar (SDate d) →
  drop (S a) (Elem.elements row) = es →
  values_of es = Ok vs →
  (length es ≤ length (drop a flds))%nat →
  foldM (λ j data,
           ej ← Elem.getElementAt row j;
           val ← Elem.getValue ej 0;
           fld ← py_index flds (j - 1);
           t ← as_str ticker;
           d ← as_date dt;
           Ok (dict_put (t, fld) d (PItem val) data))
        (seq (S a) (length es)) data
  = Ok (put_row t d (drop a flds) vs data).
Proof.
  intros -> ->. revert vs a data.
  induction es as [|e es IH]; intros vs a data Hes Hvs Hlen.
  - cbn in Hvs. injection Hvs as <-. unfold put_row. by rewrite zip_with_nil_r.
  - cbn in Hvs. destruct (Elem.getValue e 0) as [v|] eqn:Hv; [|done]. cbn in Hvs.
    destruct (mapM _ es) as [vs'|] eqn:Hvs'; [|done]. cbn in Hvs.
    injection Hvs as <-.
    destruct (drop a flds) as [|fld rest] eqn:Hdrop; [cbn in Hlen; lia|].
    destruct (py_index_drop _ _ _ _ Hdrop) as [Hidx Hrest].
    destruct (py_index_drop _ _ _ _ Hes) as [He Hes'].
    assert (Elem.getElementAt row (S a) = Ok e) as He'.
    { unfold Elem.getElementAt. unfold py_index in He.
      by destruct (Elem.elements row !! S a). }
    cbn [length seq foldM]. rewrite He'. cbn [mbind result_bind].
    rewrite Hv. cbn [mbind result_bind].
    replace (S a - 1)%nat with a by lia. rewrite Hidx.
    cbn [mbind result_bind as_str as_date].
    rewrite (IH vs' (S a)); [|done|done|rewrite Hrest; cbn in Hlen; lia].
    rewrite Hrest. reflexivity.
Qed.

Lemma bdh_row_by_position flds t d fldData i nm e0 es vs data :
  Elem.getValue fldData i = Ok (IElem (Sequence nm (e0 :: es))) →
  Elem.getValue e0 0 = Ok (IScalar (SDate d)) →
  values_of es = Ok vs →
  (length es ≤ length flds)%nat →
  bdh_row flds (IScalar (SStr t)) fldData i data = Ok (put_row t d flds vs data).
Proof.
  intros Hrow Hdt Hvs Hlen. unfold bdh_row. rewrite Hrow. cbn.
  rewrite Hdt. cbn. replace (length es - 0)%nat with (length es) by lia.
  exact (bdh_row_loop flds (IScalar (SStr t)) t (IScalar (SDate d)) d
           (Sequence nm (e0 :: es)) es vs 0 data eq_refl eq_refl eq_refl Hvs Hlen).
Qed.

Lemma ref_security_by_name flds fldData i sec tk t rfd data :
  Elem.getValue fldData i = Ok (IElem sec) →
  Elem.getElement sec "security" = Ok tk →
  Elem.getValue tk 0 = Ok (IScalar (SStr t)) →
  Elem.getElement sec "fieldData" = Ok rfd →
  (Elem.numElements rfd ≤ length flds)%nat →
  ref_security flds fldData i data
  = (λ rs, data ++ rs) <$>
      mapM (M := result) (λ fld, (λ val, (fld, t, val)) <$> ref_value rfd fld)
        (take (Elem.numElements rfd) flds).
Proof.
  intros Hsec Htk Ht Hrfd Hlen. unfold ref_security.
  rewrite Hsec. cbn. rewrite Htk. cbn. rewrite Ht. cbn. rewrite Hrfd. cbn.
  rewrite <- (foldM_collect flds _ 0 _ data) by (cbn; lia).
  apply foldM_ext. intros j d. destruct (py_index flds j) as [fld|]; [|done]. cbn.
  by destruct (ref_value rfd fld).
Qed.

Lemma ref_hist_security_by_name flds corrID fldData i sec tk t rfd data :
  Elem.getValue fldData i = Ok (IElem sec) →
  Elem.getElement sec "security" = Ok tk →
  Elem.getValue tk 0 = Ok (IScalar (SStr t)) →
  Elem.getElement sec "fieldData" = Ok rfd →
  (Elem.numElements rfd ≤ length flds)%nat →
  ref_hist_security flds corrID fldData i data
  = (λ rs, data ++ rs) <$>
      mapM (M := result)
        (λ fld, e ← Elem.getElement rfd fld;
                val ← Elem.getValue e 0;
                Ok (fld, t, val, corrID))
        (take (Elem.numElements rfd) flds).
Proof.
  intros Hsec Htk Ht Hrfd Hlen. unfold ref_hist_security.
  rewrite Hsec. cbn. rewrite Htk. cbn. rewrite Ht. cbn. rewrite Hrfd. cbn.
  rewrite <- (foldM_collect flds _ 0 _ data) by (cbn; lia).
  apply foldM_ext. intros j d. destruct (py_index flds j) as [fld|]; [|done]. cbn.
  destruct (Elem.getElement rfd fld) as [e|]; [|done]. cbn.
  by destruct (Elem.getValue e 0).
Qed.

Lemma fmap_NoDup_inj {A B : Type} (f : A → B) (l : list A) x y :
  NoDup (f <$> l) → x ∈ l → y ∈ l → f x = f y → x = y.
Proof.
  intros Hnd [i Hi]%list_elem_of_lookup [j Hj]%list_elem_of_lookup Hxy.
  assert (i = j) as ->.
  { eapply (NoDup_lookup _ i j (f x) Hnd).
    - by rewrite list_lookup_fmap, Hi.
    - by rewrite list_lookup_fmap, Hj, Hxy. }
  congruence.
Qed.

(** A lookup by name does not depend on the order of the sub-elements. *)
Lemma getElement_permutation nm nm' es es' n :
  NoDup (Elem.name <$> es) → es ≡ₚ es' →
  Elem.getElement (Sequence nm es) n = Elem.getElement (Sequence nm' es') n.
Proof.
  intros Hnd Hperm. unfold Elem.getElement. cbn.
  destruct (list_find _ es) as [[i c]|] eqn:H1;
    destruct (list_find _ es') as [[i' c']|] eqn:H2.
  - apply list_find_Some in H1 as (Hc & Hn & _).
    apply list_find_Some in H2 as (Hc' & Hn' & _).
    f_equal. apply (fmap_NoDup_inj Elem.name es); [done| | |congruence].
    + by eapply list_elem_of_lookup_2.
    + rewrite Hperm. by eapply list_elem_of_lookup_2.
  - apply list_find_Some in H1 as (Hc & Hn & _).
    apply list_find_None in H2.
    apply list_elem_of_lookup_2 in Hc. rewrite Hperm in Hc.
    rewrite Forall_forall in H2. by apply H2 in Hc.
  - apply list_find_Some in H2 as (Hc & Hn & _).
    apply list_find_None in H1.
    apply list_elem_of_lookup_2 in Hc. rewrite <- Hperm in Hc.
    rewrite Forall_forall in H1. by apply H1 in Hc.
  - done.
Qed.

(** C9, as the code has it.  In [bdh] a value is attributed by position
    alone: when a row carries its date and then at most as many elements as
    there are requested fields, the value of the [j]-th of them is written
    under the [j]-th requested name, whatever the elements are called.  In
    [ref] and [ref_hist] only the number of field elements is positional:
    for each of the first that many requested names the element of that name
    is looked up and its value recorded under the name, and such a lookup
    does not depend on the order of the elements. *)
Theorem attribution_of_values (flds : list string) :
  (∀ t d fldData i nm e0 es vs data,
     Elem.getValue fldData i = Ok (IElem (Sequence nm (e0 :: es))) →
     Elem.getValue e0 0 = Ok (IScalar (SDate d)) →
     values_of es = Ok vs →
     (length es ≤ length flds)%nat →
     bdh_row flds (IScalar (SStr t)) fldData i data
     = Ok (put_row t d flds vs data)) ∧
  (∀ fldData i sec tk t rfd data,
     Elem.getValue fldData i = Ok (IElem sec) →
     Elem.getElement sec "security" = Ok tk →
     Elem.getValue tk 0 = Ok (IScalar (SStr t)) →
     Elem.getElement sec "fieldData" = Ok rfd →
     (Elem.numElements rfd ≤ length flds)%nat →
     ref_security flds fldData i data
     = (λ rs, data ++ rs) <$>
         mapM (M := result) (λ fld, (λ val, (fld, t, val)) <$> ref_value rfd fld)
           (take (Elem.numElements rfd) flds)) ∧
  (∀ corrID fldData i sec tk t rfd data,
     Elem.getValue fldData i = Ok (IElem sec) →
     Elem.getElement sec "security" = Ok tk →
     Elem.getValue tk 0 = Ok (IScalar (SStr t)) →
     Elem.getElement sec "fieldData" = Ok rfd →
     (Elem.numElements rfd ≤ length flds)%nat →
     ref_hist_security flds corrID fldData i data
     = (λ rs, data ++ rs) <$>
         mapM (M := result)
           (λ fld, e ← Elem.getElement rfd fld;
                   val ← Elem.getValue e 0;
                   Ok (fld, t, val, corrID))
           (take (Elem.numElements rfd) flds)) ∧
  (∀ nm nm' es es' n,
     NoDup (Elem.name <$> es) → es ≡ₚ es' →
     Elem.getElement (Sequence nm es) n = Elem.getElement (Sequence nm' es') n).
Proof.
  split; [|split; [|split]].
  - intros. by eapply bdh_row_by_position.
  - intros. by eapply ref_security_by_name.
  - intros. by eapply ref_hist_security_by_name.
  - intros. by apply getElement_permutation.
Qed.

Lemma attribution_of_values_witness :
  ref_security ["NAME"; "PX_LAST"]
    (Array "securityData"
       [ref_security_data "A" [Simple "PX_LAST" (SNum 1); Simple "NAME" (SStr "ay")]])
    0 []
  = Ok [("NAME", "A", PItem (IScalar (SStr "ay")));
        ("PX_LAST", "A", PItem (IScalar (SNum 1)))].
Proof.
  destruct (attribution_of_values ["NAME"; "PX_LAST"]) as (_ & Href & _).
  rewrite (Href _ 0%nat
             (ref_security_data "A" [Simple "PX_LAST" (SNum 1); Simple "NAME" (SStr "ay")])
             (Simple "security" (SStr "A")) "A"
             (Sequence "fieldData" [Simple "PX_LAST" (SNum 1); Simple "NAME" (SStr "ay")])
             []); reflexivity.
Defined.

(** C9, as it is worded, fails for [ref]: a security whose field elements
    come in another order than the requested names has each value recorded
    under the name of its element, not under the name at its position. *)
Lemma ref_attributes_by_position_counterexample : ¬ ref_attributes_by_position.
Proof.
  intros H.
  specialize (H ["NAME"; "PX_LAST"] "A"
                [Simple "PX_LAST" (SNum 1); Simple "NAME" (SStr "ay")]
                [("NAME", "A", PItem (IScalar (SStr "ay")));
                 ("PX_LAST", "A", PItem (IScalar (SNum 1)))]
                0%nat (Simple "PX_LAST" (SNum 1)) (IScalar (SNum 1)) "NAME"
                eq_refl eq_refl eq_refl eq_refl).
  apply elem_of_cons in H as [H|H]; [discriminate H|].
  apply elem_of_cons in H as [H|H]; [discriminate H|].
  by apply elem_of_nil in H.
Qed.

(** ** Array-typed fields in [ref] *)

Lemma foldM_append {A B : Type} (g : A → result B) l (acc : list B) :
  foldM (λ x acc, v ← g x; Ok (acc ++ [v])) l acc
  = (λ vs, acc ++ vs) <$> mapM (M := result) g l.
Proof.
  revert acc. induction l as [|x l IH]; intros acc.
  - cbn. by rewrite app_nil_r.
  - cbn. destruct (g x) as [v|e]; [|reflexivity]. cbn. rewrite IH.
    destruct (mapM g l) as [vs|e]; cbn; [|reflexivity]. by rewrite <- app_assoc.
Qed.

(** A loop over the positions of a list is a loop over the list. *)
Lemma foldM_positions {A B D : Type} (get : nat → result B) (conv : A → B)
    (h : B → D → result D) (l : list A) a (d : D) :
  (∀ j x, l !! j = Some x → get (a + j)%nat = Ok (conv x)) →
  foldM (λ k d, x ← get k; h x d) (seq a (length l)) d
  = foldM (λ x d, h (conv x) d) l d.
Proof.
  revert a d. induction l as [|x l IH]; intros a d Hget; [done|].
  cbn [length seq foldM]. rewrite <- (Nat.add_0_r a) at 1.
  rewrite (Hget 0%nat x) by done. cbn.
  destruct (h (conv x) d) as [d1|e]; [|reflexivity]. cbn.
  apply IH. intros j y Hj. replace (S a + j)%nat with (a + S j)%nat by lia.
  by apply Hget.
Qed.

Lemma foldM_concat {A B : Type} (g : A → result (list B)) l (acc : list B) :
  foldM (λ x acc, (λ vs, acc ++ vs) <$> g x) l acc
  = (λ vss, acc ++ concat vss) <$> mapM (M := result) g l.
Proof.
  revert acc. induction l as [|x l IH]; intros acc.
  - cbn. by rewrite app_nil_r.
  - cbn. destruct (g x) as [vs|e]; [|reflexivity]. cbn. rewrite IH.
    destruct (mapM g l) as [vss|e]; cbn; [|reflexivity]. by rewrite <- app_assoc.
Qed.

Lemma ref_value_array rfd fld nm vals :
  Elem.getElement rfd fld = Ok (Array nm vals) →
  ref_value rfd fld = flattened vals.
Proof.
  intros He. unfold ref_value, flattened. rewrite He. cbn.
  rewrite (foldM_positions (Elem.getValue (Array nm vals)) Elem.as_item
             (λ entry val,
                entry ← as_element entry;
                foldM (λ elm val, v ← Elem.getValue elm 0; Ok (val ++ [v]))
                      (Elem.elements entry) val) vals 0 []).
  2:{ intros j x Hj. cbn. by rewrite Hj. }
  rewrite (foldM_ext _ (λ x acc, (λ vs, acc ++ vs) <$> entry_values x)).
  2:{ intros c acc. unfold entry_values.
      destruct (as_element (Elem.as_item c)) as [entry|e]; [|reflexivity]. cbn.
      apply foldM_append. }
  rewrite foldM_concat. by destruct (mapM entry_values vals).
Qed.

Lemma values_of_simple subs :
  values_of ((λ p : string * Scalar, Simple p.1 p.2) <$> subs)
  = Ok (IScalar <$> subs.*2).
Proof.
  unfold values_of. induction subs as [|[n v] subs IH]; [done|].
  cbn in *. by rewrite IH.
Qed.

Lemma flattened_simple (entries : list (string * list (string * Scalar))) :
  flattened ((λ p, simple_entry p.1 p.2) <$> entries)
  = Ok (PList (IScalar <$> concat ((λ p, p.2.*2) <$> entries))).
Proof.
  unfold flattened.
  assert (mapM (M := result) entry_values ((λ p, simple_entry p.1 p.2) <$> entries)
          = Ok ((λ p : string * list (string * Scalar), IScalar <$> p.2.*2) <$> entries))
    as ->.
  { induction entries as [|[n subs] entries IH]; [done|].
    cbn [fmap list_fmap mapM fst snd].
    assert (entry_values (simple_entry n subs) = Ok (IScalar <$> subs.*2)) as ->.
    { unfold entry_values, simple_entry. cbn [Elem.as_item as_element Elem.elements].
      cbn [mbind result_bind]. apply values_of_simple. }
    cbn [mbind result_bind]. cbn [fmap list_fmap] in IH.
    rewrite IH. reflexivity. }
  cbn. f_equal. f_equal.
  induction entries as [|[n subs] entries IH]; [done|].
  cbn. by rewrite fmap_app, IH.
Qed.

Lemma mapM_ok_elem {A B : Type} (g : A → result B) l rs x :
  mapM (M := result) g l = Ok rs → x ∈ l → ∃ r, g x = Ok r ∧ r ∈ rs.
Proof.
  revert rs. induction l as [|y l IH]; intros rs H Hx; [by apply elem_of_nil in Hx|].
  cbn in H. destruct (g y) as [r|] eqn:Hy; [|done]. cbn in H.
  destruct (mapM g l) as [rs'|] eqn:Hl; [|done]. cbn in H. injection H as <-.
  apply elem_of_cons in Hx as [->|Hx].
  - exists r. split; [done|]. apply elem_of_cons. by left.
  - destruct (IH rs' eq_refl Hx) as (r' & Hr & Hin). exists r'. split; [done|].
    apply elem_of_cons. by right.
Qed.

(** A security that went through has at most as many field elements as
    there are requested fields. *)
Lemma ref_security_ok_bound flds fldData i sec tk ticker rfd data data' :
  Elem.getValue fldData i = Ok (IElem sec) →
  Elem.getElement sec "security" = Ok tk →
  Elem.getValue tk 0 = Ok ticker →
  Elem.getElement sec "fieldData" = Ok rfd →
  ref_security flds fldData i data = Ok data' →
  (Elem.numElements rfd ≤ length flds)%nat.
Proof.
  intros Hsec Htk Ht Hrfd. unfold ref_security.
  rewrite Hsec. cbn. rewrite Htk. cbn. rewrite Ht. cbn. rewrite Hrfd. cbn.
  intros H.
  destruct (decide (Elem.numElements rfd ≤ length flds)%nat) as [|Hgt]; [done|].
  assert (length flds ∈ seq 0 (Elem.numElements rfd)) as Hin.
  { apply elem_of_seq. lia. }
  destruct (foldM_ok_each _ _ _ _ _ H Hin) as (d0 & d1 & Hok).
  unfold py_index in Hok. rewrite lookup_ge_None_2 in Hok by lia. done.
Qed.

(** C5.  In [ref], the value of an array-typed field is one flat list: the
    values of all sub-elements of all entries of the array, entry after
    entry and, within an entry, in the order of its sub-elements; this list
    is what the record appended for the field holds.  For entries made of
    simple sub-elements the list is the concatenation of their values. *)
Theorem ref_flattens_arrays (flds : list string) :
  (∀ rfd fld nm vals,
     Elem.getElement rfd fld = Ok (Array nm vals) →
     ref_value rfd fld = flattened vals) ∧
  (∀ entries : list (string * list (string * Scalar)),
     flattened ((λ p, simple_entry p.1 p.2) <$> entries)
     = Ok (PList (IScalar <$> concat ((λ p, p.2.*2) <$> entries)))) ∧
  (∀ fldData i sec tk t rfd data data' j fld nm vals,
     Elem.getValue fldData i = Ok (IElem sec) →
     Elem.getElement sec "security" = Ok tk →
     Elem.getValue tk 0 = Ok (IScalar (SStr t)) →
     Elem.getElement sec "fieldData" = Ok rfd →
     ref_security flds fldData i data = Ok data' →
     (j < Elem.numElements rfd)%nat →
     flds !! j = Some fld →
     Elem.getElement rfd fld = Ok (Array nm vals) →
     ∃ val, flattened vals = Ok val ∧ (fld, t, val) ∈ data').
Proof.
  split; [|split].
  - intros. by eapply ref_value_array.
  - apply flattened_simple.
  - intros fldData i sec tk t rfd data data' j fld nm vals
           Hsec Htk Ht Hrfd Hok Hj Hfld Harr.
    pose proof (ref_security_ok_bound _ _ _ _ _ _ _ _ _ Hsec Htk Ht Hrfd Hok) as Hlen.
    rewrite (ref_security_by_name flds fldData i sec tk t rfd data) in Hok by done.
    destruct (mapM _ (take (Elem.numElements rfd) flds)) as [rs|] eqn:Hrs; [|done].
    cbn in Hok. injection Hok as <-.
    assert (fld ∈ take (Elem.numElements rfd) flds) as Hin.
    { apply list_elem_of_lookup. exists j. by rewrite lookup_take_lt. }
    destruct (mapM_ok_elem _ _ _ _ Hrs Hin) as (r & Hr & Hrin).
    rewrite (ref_value_array rfd fld nm vals Harr) in Hr.
    destruct (flattened vals) as [val|]; [|done]. cbn in Hr. injection Hr as <-.
    exists val. split; [done|]. apply elem_of_app. by right.
Qed.

Lemma ref_flattens_arrays_witness :
  ref_value
    (Sequence "fieldData"
       [Simple "NAME" (SStr "ay");
        Array "HOLDERS"
          [simple_entry "HOLDERS" [("who", SStr "x"); ("n", SNum 3)];
           simple_entry "HOLDERS" [("who", SStr "y"); ("n", SNum 4)]]])
    "HOLDERS"
  = Ok (PList [IScalar (SStr "x"); IScalar (SNum 3);
               IScalar (SStr "y"); IScalar (SNum 4)]).
Proof.
  destruct (ref_flattens_arrays ["NAME"; "HOLDERS"]) as (Hval & Hflat & _).
  rewrite (Hval _ "HOLDERS" "HOLDERS"
             [simple_entry "HOLDERS" [("who", SStr "x"); ("n", SNum 3)];
              simple_entry "HOLDERS" [("who", SStr "y"); ("n", SNum 4)]])
    by reflexivity.
  exact (Hflat [("HOLDERS", [("who", SStr "x"); ("n", SNum 3)]);
                ("HOLDERS", [("who", SStr "y"); ("n", SNum 4)])]).
Defined.

(** ** Selection by labels *)

Lemma positions_from_absent {A : Type} `{EqDecision A} i (labels : list A) x :
  x ∉ labels → positions_from i labels x = [].
Proof.
  revert i. induction labels as [|y labels IH]; intros i Hx; [done|].
  apply not_elem_of_cons in Hx as [Hxy Hx]. cbn.
  rewrite decide_False by done. by apply IH.
Qed.

Lemma positions_from_unique {A : Type} `{EqDecision A} i (labels : list A) x :
  NoDup labels → x ∈ labels → ∃ p, positions_from i labels x = [p].
Proof.
  revert i. induction labels as [|y labels IH]; intros i Hnd Hx;
    [by apply elem_of_nil in Hx|].
  apply NoDup_cons in Hnd as [Hy Hnd]. cbn.
  destruct (decide (y = x)) as [->|Hne].
  - exists i. by rewrite positions_from_absent.
  - apply elem_of_cons in Hx as [->|Hx]; [done|]. cbn. by apply IH.
Qed.

Lemma locate_entries_labels {A : Type} `{EqDecision A} (labels want : list A) :
  NoDup labels →
  (want ≫= λ x, match positions labels x with
                | [] => [(x, None)]
                | ps => (λ i, (x, Some i)) <$> ps
                end).*1 = want.
Proof.
  intros Hnd. induction want as [|x want IH]; [done|].
  cbn [mbind list_bind]. rewrite fmap_app, IH. unfold positions.
  destruct (decide (x ∈ labels)) as [Hx|Hx].
  - destruct (positions_from_unique 0 labels x Hnd Hx) as [p ->]. reflexivity.
  - rewrite positions_from_absent by done. reflexivity.
Qed.

Lemma locate_labels {A : Type} `{EqDecision A} (labels want : list A) ps :
  NoDup labels → locate labels want = Ok ps → ps.*1 = want.
Proof.
  intros Hnd. unfold locate. case_bool_decide; [done|].
  intros Hps. injection Hps as <-. by apply locate_entries_labels.
Qed.

Lemma locate_strict_labels {A : Type} `{EqDecision A} (labels want : list A) ps :
  NoDup labels → locate_strict labels want = Ok ps → ps.*1 = want.
Proof.
  intros Hnd. unfold locate_strict. case_bool_decide as Hall; [|done].
  intros Hps. injection Hps as <-.
  induction Hall as [|x want Hx _ IH]; [done|].
  cbn [mbind list_bind]. rewrite fmap_app, IH. unfold positions.
  destruct (positions_from_unique 0 labels x Hnd Hx) as [p ->]. reflexivity.
Qed.

(** * Further properties of the calls *)

(** ** Sorted keys and labels *)

Lemma merge_sort_elements_NoDup {K : Type} `{Countable K} (le : relation K)
    `{!RelDecision le} (X : gset K) :
  NoDup (merge_sort le (elements X)).
Proof.
  rewrite merge_sort_Permutation. apply NoDup_elements.
Qed.

Lemma merge_sort_elements_elem {K : Type} `{Countable K} (le : relation K)
    `{!RelDecision le} (X : gset K) x :
  x ∈ merge_sort le (elements X) ↔ x ∈ X.
Proof. by rewrite merge_sort_Permutation, elem_of_elements. Qed.

Lemma sorted_keys_NoDup {K V : Type} `{Countable K} (le : relation K)
    `{!RelDecision le} (data : gmap K V) :
  NoDup (sorted_keys le data).
Proof. apply merge_sort_elements_NoDup. Qed.


(** ** The labels of the tables *)

Lemma pivot_labels data df :
  pivot data = Ok df →
  NoDup (index df) ∧ ∃ cols, columns df = Index cols ∧ NoDup cols.
Proof.
  unfold pivot. destruct data as [|r data]; [done|].
  destruct (decide (NoDup ((r :: data).*1))); [|done].
  intros Hdf. injection Hdf as <-. cbn [index columns]. split.
  - apply merge_sort_elements_NoDup.
  - eexists. split; [reflexivity|]. apply merge_sort_elements_NoDup.
Qed.

Lemma loc_rows_labels {R : Type} `{EqDecision R} (want : list R) df df' :
  NoDup (index df) → loc_rows want df = Ok df' →
  index df' = want ∧ columns df' = columns df.
Proof.
  intros Hnd. unfold loc_rows.
  destruct (locate (index df) want) as [ps|] eqn:Hps; [|done].
  cbn. intros Hdf. injection Hdf as <-. cbn. split; [|done].
  by eapply locate_labels.
Qed.

Lemma loc_columns_labels {R : Type} (want : list string) (df df' : DataFrame R) cols :
  columns df = Index cols → NoDup cols → loc_columns want df = Ok df' →
  columns df' = Index want ∧ index df' = index df.
Proof.
  intros Hcols Hnd. unfold loc_columns, one_level. rewrite Hcols. cbn.
  destruct (locate cols want) as [ps|] eqn:Hps; [|done].
  cbn. intros Hdf. injection Hdf as <-. cbn. split; [|done].
  f_equal. by eapply locate_labels.
Qed.

Lemma getitem_columns_labels {R : Type} (want : list string) (df df' : DataFrame R)
    cols :
  columns df = Index cols → NoDup cols → getitem_columns want df = Ok df' →
  columns df' = Index want ∧ index df' = index df.
Proof.
  intros Hcols Hnd. unfold getitem_columns, one_level. rewrite Hcols. cbn.
  destruct (locate_strict cols want) as [ps|] eqn:Hps; [|done].
  cbn. intros Hdf. injection Hdf as <-. cbn. split; [|done].
  f_equal. by eapply locate_strict_labels.
Qed.

Lemma ref_frame_labels tickers flds data df :
  ref_frame tickers flds data = Ok df →
  index df = flds ∧ columns df = Index tickers.
Proof.
  unfold ref_frame. destruct (pivot data) as [df0|] eqn:Hp; [|done]. cbn.
  destruct (pivot_labels _ _ Hp) as (Hidx & cols & Hcols & Hnd).
  destruct (loc_rows flds df0) as [df1|] eqn:Hr; [|done]. cbn.
  destruct (loc_rows_labels _ _ _ Hidx Hr) as [Hi1 Hc1].
  intros Hc. rewrite Hcols in Hc1.
  destruct (loc_columns_labels _ _ _ _ Hc1 Hnd Hc) as [Hc2 Hi2].
  split; congruence.
Qed.

Lemma bdib_frame_labels flds data df :
  bdib_frame flds data = Ok df →
  columns df = Index flds ∧ index df = sorted_rows data.
Proof.
  unfold bdib_frame. intros Hdf.
  eapply (getitem_columns_labels flds (DataFrame_of_str_dict data)) in Hdf;
    [exact Hdf|reflexivity|apply sorted_keys_NoDup].
Qed.

Lemma fst_ret_inv {A : Type} (r : Outcome A * World) a :
  r.1 = Ret a → r = (Ret a, r.2).
Proof. destruct r as [o w]. cbn. by intros ->. Qed.

(** ** What the loop of [bdh] accumulates *)

Lemma bind_ok_inv {A B : Type} (r : result A) (f : A → result B) b :
  r ≫= f = Ok b → ∃ a, r = Ok a ∧ f a = Ok b.
Proof. destruct r as [a|e]; [eauto|done]. Qed.

Lemma foldM_invariant {A D : Type} (P : D → Prop) (f : A → D → result D) l d d' :
  (∀ x d d', P d → f x d = Ok d' → P d') →
  P d → foldM f l d = Ok d' → P d'.
Proof.
  intros Hstep. revert d. induction l as [|x l IH]; intros d Hd Hf.
  - cbn in Hf. by injection Hf as <-.
  - cbn in Hf. apply bind_ok_inv in Hf as (d1 & Hx & Hf). eauto.
Qed.

Lemma py_index_elem {A : Type} (l : list A) i x : py_index l i = Ok x → x ∈ l.
Proof.
  unfold py_index. destruct (l !! i) as [y|] eqn:Hy; [|done].
  intros Hx. injection Hx as <-. by eapply list_elem_of_lookup_2.
Qed.






(** ** Selection by labels keeps every value under its label *)

Lemma positions_from_found {A : Type} `{EqDecision A} i (labels : list A) x :
  NoDup labels → x ∈ labels →
  ∃ p, positions_from i labels x = [(i + p)%nat] ∧ labels !! p = Some x.
Proof.
  revert i. induction labels as [|y labels IH]; intros i Hnd Hx;
    [by apply elem_of_nil in Hx|].
  apply NoDup_cons in Hnd as [Hy Hnd]. cbn.
  destruct (decide (y = x)) as [->|Hne].
  - exists 0%nat. rewrite positions_from_absent by done.
    split; [|done]. cbn. f_equal. lia.
  - apply elem_of_cons in Hx as [->|Hx]; [done|].
    destruct (IH (S i) Hnd Hx) as (p & -> & Hp).
    exists (S p). split; [|done]. cbn. f_equal. lia.
Qed.

Lemma pick_located {A V : Type} `{EqDecision A} (labels : list A) (g : A → V)
    (nan : V) x :
  NoDup labels → (x ∉ labels → g x = nan) →
  pick nan (g <$> labels)
    <$> (match positions labels x with
         | [] => [(x, None)]
         | ps => (λ i, (x, Some i)) <$> ps
         end).*2
  = [g x].
Proof.
  intros Hnd Hnan. unfold positions.
  destruct (decide (x ∈ labels)) as [Hx|Hx].
  - destruct (positions_from_found 0 labels x Hnd Hx) as (p & -> & Hp).
    cbn. by rewrite list_lookup_fmap, Hp.
  - rewrite positions_from_absent by done. cbn. by rewrite Hnan.
Qed.

Lemma locate_pick {A V : Type} `{EqDecision A} (labels want : list A) ps
    (g : A → V) (nan : V) :
  NoDup labels → (∀ x, x ∉ labels → g x = nan) →
  locate labels want = Ok ps →
  pick nan (g <$> labels) <$> ps.*2 = g <$> want.
Proof.
  intros Hnd Hnan. unfold locate. case_bool_decide as Hk; [done|].
  intros Hps. injection Hps as <-. clear Hk.
  induction want as [|x want IH]; [done|].
  cbn [mbind list_bind]. rewrite !fmap_app, IH.
  rewrite (pick_located labels g nan x) by auto. reflexivity.
Qed.


(** ** The table of [ref] *)

Lemma recorded_some data f t v :
  recorded data f t = Some v → (f, t, v) ∈ data.
Proof. unfold recorded. apply elem_of_list_to_map_2. Qed.

Lemma recorded_row_absent data f t :
  f ∉ merge_sort String.le (elements (list_to_set (data.*1.*1) : gset string)) →
  recorded data f t = None.
Proof.
  intros Hf. destruct (recorded data f t) as [v|] eqn:Hv; [|done].
  exfalso. apply Hf. rewrite merge_sort_elements_elem, elem_of_list_to_set.
  apply recorded_some in Hv.
  apply (list_elem_of_fmap_2 fst) in Hv. apply (list_elem_of_fmap_2 fst) in Hv.
  exact Hv.
Qed.

Lemma recorded_column_absent data f t :
  t ∉ merge_sort String.le (elements (list_to_set (data.*1.*2) : gset string)) →
  recorded data f t = None.
Proof.
  intros Ht. destruct (recorded data f t) as [v|] eqn:Hv; [|done].
  exfalso. apply Ht. rewrite merge_sort_elements_elem, elem_of_list_to_set.
  apply recorded_some in Hv.
  apply (list_elem_of_fmap_2 fst) in Hv. apply (list_elem_of_fmap_2 snd) in Hv.
  exact Hv.
Qed.

Lemma pivot_table_of data df :
  pivot data = Ok df →
  data ≠ [] ∧ NoDup (data.*1) ∧
  df = mkDF (merge_sort String.le (elements (list_to_set (data.*1.*1) : gset string)))
         (Index (merge_sort String.le
                   (elements (list_to_set (data.*1.*2) : gset string))))
         ((λ c, (λ r, recorded data r c)
                  <$> merge_sort String.le
                        (elements (list_to_set (data.*1.*1) : gset string)))
            <$> merge_sort String.le
                  (elements (list_to_set (data.*1.*2) : gset string))).
Proof.
  unfold pivot. destruct data as [|r0 data0]; [done|].
  destruct (decide (NoDup ((r0 :: data0).*1))) as [Hnd|]; [|done].
  intros Hdf. injection Hdf as <-. done.
Qed.

Lemma ref_frame_table tickers flds data df :
  ref_frame tickers flds data = Ok df →
  data ≠ [] ∧ NoDup (data.*1) ∧ df = ref_table tickers flds data.
Proof.
  unfold ref_frame. destruct (pivot data) as [df0|] eqn:Hp; [|done].
  apply pivot_table_of in Hp as (Hne & Hnd & ->).
  cbn [mbind result_bind].
  set (rows := merge_sort String.le (elements (list_to_set (data.*1.*1) : gset string))).
  set (cols := merge_sort String.le (elements (list_to_set (data.*1.*2) : gset string))).
  unfold loc_rows. cbn [index columns values].
  destruct (locate rows flds) as [ps|] eqn:Hps; [|done].
  cbn [mbind result_bind]. unfold loc_columns, one_level.
  cbn [index columns values mbind result_bind].
  destruct (locate cols tickers) as [ps'|] eqn:Hps'; [|done].
  cbn [mbind result_bind]. intros Hdf. injection Hdf as <-.
  split; [done|]. split; [done|].
  assert (NoDup rows) as Hrows by apply merge_sort_elements_NoDup.
  assert (NoDup cols) as Hcols by apply merge_sort_elements_NoDup.
  unfold ref_table.
  rewrite (locate_labels rows flds ps Hrows Hps).
  rewrite (locate_labels cols tickers ps' Hcols Hps').
  f_equal.
  rewrite <- (list_fmap_compose (λ c, (λ r, recorded data r c) <$> rows)
                (λ col, pick None col <$> ps.*2) cols).
  rewrite (list_fmap_ext _ (λ c, (λ f, recorded data f c) <$> flds) cols).
  2:{ intros _ c _. cbn [compose].
      apply (locate_pick rows flds ps (λ r, recorded data r c) None Hrows); [|done].
      intros f Hf. by apply recorded_row_absent. }
  apply (locate_pick cols tickers ps' (λ c, (λ f, recorded data f c) <$> flds)
           ((λ _, None) <$> flds) Hcols); [|done].
  intros t Ht. apply list_fmap_ext. intros _ f _. by apply recorded_column_absent.
Qed.

(** ** The tables of [bdib] and [bdh] *)

Lemma pair_le_total : Total pair_le.
Proof.
  intros [a b] [c d]. unfold pair_le. cbn.
  destruct (decide (a = c)) as [->|Hne].
  - destruct (total String.le b d); [left|right]; split; done.
  - destruct (total String.le a c); [left|right]; split; done.
Qed.









(** ** What the shaping calls return *)

Lemma received_drained ops t k w :
  Forall (λ o, polled_event o = []) ops →
  received w (polls t k (submitted ops w)) =
  upcoming_list (clear_pending (session w)) k ≫= messages.
Proof. intros Hops. unfold received. by rewrite polled_events_drained. Qed.

(** The table [ref] returns: the rows are the requested fields, the columns
    the requested securities, both in the order of the request, and the cell
    of a field and a security is the value recorded for them, NaN where none
    was; at least one record was received, and none twice for one field of
    one security. *)
Theorem ref_returns_table (fuel : nat) (tickers flds : StrOrList)
    (ov : list (string * Scalar)) (w : World) (df : DataFrame string) :
  (ref fuel tickers flds ov w).1 = Ret df →
  ∃ data,
    foldM (ref_msg (as_list flds)) (received w (ref fuel tickers flds ov w).2) []
      = Ok data ∧
    data ≠ [] ∧ NoDup (data.*1) ∧
    df = ref_table (as_list tickers) (as_list flds) data.
Proof.
  intros H. apply fst_ret_inv in H.
  pose proof H as H'. apply ref_ret_inv in H' as (k & data & _ & _ & _ & _ & Hf & Hdf & Hw).
  rewrite Hw, received_drained by apply create_send_not_polled.
  exists data. split; [done|]. by apply ref_frame_table.
Qed.

Lemma ref_returns_table_witness :
  ∃ data,
    foldM (ref_msg ["NAME"; "HOLDERS"])
      (received ref_exchange
         (ref 5 (Many ["A"; "B"]) (Many ["NAME"; "HOLDERS"]) [] ref_exchange).2) []
      = Ok data ∧
    data ≠ [] ∧ NoDup (data.*1) ∧
    mkDF ["NAME"; "HOLDERS"] (Index ["A"; "B"])
      [[Some (PItem (IScalar (SStr "ay"))); Some (PList [])];
       [Some (PItem (IScalar (SStr "bee")));
        Some (PList [IScalar (SStr "x"); IScalar (SNum 3)])]]
    = ref_table ["A"; "B"] ["NAME"; "HOLDERS"] data.
Proof.
  apply (ref_returns_table 5 (Many ["A"; "B"]) (Many ["NAME"; "HOLDERS"]) []
           ref_exchange).
  vm_compute. reflexivity.
Defined.





(** ** Accumulations that do not depend on the order of the messages *)

Section additive.
Context {D X : Type} `{Countable X} (μ : D → gset X).







End additive.



Section bdh_additive.
Context {X : Type} `{Countable X}
        (μ : gmap (string * string) (gmap Z PyVal) → gset X)
        (put : string * string → Z → gset X)
        (Hput : ∀ k dt v d, μ (dict_put k dt v d) = μ d ∪ put k dt).




End bdh_additive.





(** ** The table of [ref] does not depend on the order of the messages *)

Lemma appending_ok {B : Type} (r : B) : appending (λ d, Ok (d ++ [r])).
Proof. intros d. reflexivity. Qed.

Lemma appending_bind {A B : Type} (r : result A) (h : A → list B → result (list B)) :
  (∀ a, appending (h a)) → appending (λ d, a ← r; h a d).
Proof. intros Hh d. destruct r as [a|e]; [|done]. cbn. apply Hh. Qed.

Lemma appending_foldM {A B : Type} (f : A → list B → result (list B)) l :
  (∀ x, appending (f x)) → appending (foldM f l).
Proof.
  intros Hf. induction l as [|x l IH]; intros d.
  - cbn. by rewrite app_nil_r.
  - cbn. rewrite (Hf x d). destruct (f x []) as [r1|e]; [|done]. cbn.
    rewrite (IH (d ++ r1)), (IH r1).
    destruct (foldM f l []) as [r2|e]; [|done]. cbn. by rewrite app_assoc.
Qed.

Lemma foldM_appending_concat {A B : Type} (f : A → list B → result (list B)) l :
  (∀ x, appending (f x)) →
  foldM f l [] = (λ rss, concat rss) <$> mapM (M := result) (λ x, f x []) l.
Proof.
  intros Hf. induction l as [|x l IH]; [done|].
  cbn. destruct (f x []) as [r1|e]; [|done]. cbn.
  rewrite (appending_foldM f l Hf r1), IH.
  by destruct (mapM _ l).
Qed.

Lemma mapM_permutation {A B : Type} (g : A → result B) l l' rs :
  l ≡ₚ l' → mapM (M := result) g l = Ok rs →
  ∃ rs', mapM (M := result) g l' = Ok rs' ∧ rs ≡ₚ rs'.
Proof.
  intros Hperm. revert rs.
  induction Hperm as [|x l l' _ IH|x y l|l1 l2 l3 _ IH1 _ IH2]; intros rs Hrs.
  - eauto.
  - cbn in Hrs. apply bind_ok_inv in Hrs as (r & Hx & Hrs).
    apply bind_ok_inv in Hrs as (rs0 & Hl & Hrs). injection Hrs as <-.
    destruct (IH rs0 Hl) as (rs' & Hl' & Hp).
    exists (r :: rs'). cbn. rewrite Hx. cbn. rewrite Hl'. cbn.
    split; [done|]. by constructor.
  - cbn in Hrs. apply bind_ok_inv in Hrs as (ry & Hy & Hrs).
    apply bind_ok_inv in Hrs as (rs1 & Hrs1 & Hrs). injection Hrs as <-.
    apply bind_ok_inv in Hrs1 as (rx & Hx & Hrs1).
    apply bind_ok_inv in Hrs1 as (rs0 & Hl & Hrs1). injection Hrs1 as <-.
    exists (rx :: ry :: rs0). cbn. rewrite Hx. cbn. rewrite Hy. cbn. rewrite Hl. cbn.
    split; [done|]. apply perm_swap.
  - destruct (IH1 rs Hrs) as (rs2 & H2 & Hp2).
    destruct (IH2 rs2 H2) as (rs3 & H3 & Hp3).
    exists rs3. split; [done|]. by etrans.
Qed.

Lemma ref_security_appending flds fldData i : appending (ref_security flds fldData i).
Proof.
  unfold ref_security.
  apply (appending_bind (Elem.getValue fldData i)). intros sec_i.
  apply (appending_bind (as_element sec_i)). intros sec.
  apply (appending_bind (Elem.getElement sec "security")). intros tk.
  apply (appending_bind (Elem.getValue tk 0)). intros ticker.
  apply (appending_bind (Elem.getElement sec "fieldData")). intros rfd.
  apply appending_foldM. intros j.
  apply (appending_bind (py_index flds j)). intros fld.
  apply (appending_bind (ref_value rfd fld)). intros val.
  apply (appending_bind (as_str ticker)). intros t.
  apply appending_ok.
Qed.

Lemma ref_msg_appending flds msg : appending (ref_msg flds msg).
Proof.
  unfold ref_msg.
  apply (appending_bind (msg_getElement msg "securityData")). intros fldData.
  apply appending_foldM. intros i. apply ref_security_appending.
Qed.

Lemma ref_msgs_permutation flds msgs msgs' data data' :
  msgs ≡ₚ msgs' →
  foldM (ref_msg flds) msgs [] = Ok data →
  foldM (ref_msg flds) msgs' [] = Ok data' →
  data ≡ₚ data'.
Proof.
  intros Hperm. rewrite !foldM_appending_concat by apply ref_msg_appending.
  destruct (mapM _ msgs) as [rs|] eqn:Hrs; [|done].
  destruct (mapM_permutation _ _ _ _ Hperm Hrs) as (rs' & -> & Hp).
  cbn. intros Hd Hd'. injection Hd as <-. injection Hd' as <-. by rewrite Hp.
Qed.

Lemma ref_table_permutation tickers flds data data' :
  NoDup (data.*1) → data ≡ₚ data' →
  ref_table tickers flds data = ref_table tickers flds data'.
Proof.
  intros Hnd Hperm. unfold ref_table. f_equal.
  apply list_fmap_ext. intros _ t _. apply list_fmap_ext. intros _ f _.
  unfold recorded. by rewrite (list_to_map_proper data data' Hnd Hperm).
Qed.

(** The table of [ref] does not depend on the order in which the messages
    are received: two calls with the same arguments that both return, the
    one having received a permutation of the messages of the other, return
    the same table. *)
Theorem ref_order_independent (fuel1 fuel2 : nat) (tickers flds : StrOrList)
    (ov : list (string * Scalar)) (w1 w2 : World) (df1 df2 : DataFrame string) :
  (ref fuel1 tickers flds ov w1).1 = Ret df1 →
  (ref fuel2 tickers flds ov w2).1 = Ret df2 →
  received w1 (ref fuel1 tickers flds ov w1).2
    ≡ₚ received w2 (ref fuel2 tickers flds ov w2).2 →
  df1 = df2.
Proof.
  intros H1 H2 Hperm.
  apply fst_ret_inv in H1. apply fst_ret_inv in H2.
  pose proof H1 as H1'. pose proof H2 as H2'.
  apply ref_ret_inv in H1' as (k1 & d1 & _ & _ & _ & _ & Hf1 & Hdf1 & Hw1).
  apply ref_ret_inv in H2' as (k2 & d2 & _ & _ & _ & _ & Hf2 & Hdf2 & Hw2).
  rewrite Hw1, Hw2, !received_drained in Hperm by apply create_send_not_polled.
  apply ref_frame_table in Hdf1 as (_ & Hnd & ->).
  apply ref_frame_table in Hdf2 as (_ & _ & ->).
  apply ref_table_permutation; [done|].
  by eapply ref_msgs_permutation.
Qed.

Lemma ref_order_independent_witness :
  (ref 5 (Many ["A"; "B"]) (Many ["NAME"; "HOLDERS"]) [] ref_exchange).1
    = Ret name_holders_table ∧
  (ref 5 (Many ["A"; "B"]) (Many ["NAME"; "HOLDERS"]) [] ref_exchange_swapped).1
    = Ret name_holders_table ∧
  name_holders_table = name_holders_table.
Proof.
  assert ((ref 5 (Many ["A"; "B"]) (Many ["NAME"; "HOLDERS"]) [] ref_exchange).1
          = Ret name_holders_table) as H1 by (vm_compute; reflexivity).
  assert ((ref 5 (Many ["A"; "B"]) (Many ["NAME"; "HOLDERS"]) []
               ref_exchange_swapped).1
          = Ret name_holders_table) as H2 by (vm_compute; reflexivity).
  split; [exact H1|]. split; [exact H2|].
  apply (ref_order_independent 5 5 (Many ["A"; "B"]) (Many ["NAME"; "HOLDERS"]) []
           ref_exchange ref_exchange_swapped _ _ H1 H2).
  vm_compute. apply perm_swap.
Defined.

(** ** [custom_req] *)




(** ** [start] and the calls on a connection without its service *)

(** [start] never raises.  When the session does not start it returns at
    once; when the service does not open it returns after one event; in both
    cases the connection keeps the service it had, if any.  Otherwise it
    reads three events and holds the reference-data service. *)
Theorem start_outcomes (w : World) :
  ∃ w', start w = (Ret (), w') ∧
    call_log w w' = start_ops (session w) ∧
    fresh w' = fresh w ∧ created w' = created w ∧
    (start_ok (session w) = false →
       session w' = session w ∧ refDataService w' = refDataService w) ∧
    (start_ok (session w) = true → open_ok (session w) = false →
       session w' = pop (session w) ∧ refDataService w' = refDataService w) ∧
    (start_ok (session w) = true → open_ok (session w) = true →
       session w' = pop (pop (pop (session w))) ∧
       refDataService w' = Some "//blp/refdata").
Proof.
  unfold start. rewrite bind_eq. unfold Sess.start at 1.
  destruct (start_ok (session w)) eqn:Hs; cbn [negb].
  2:{ eexists. split; [reflexivity|]. cbn [session log_op refDataService fresh created].
      split; [by apply call_log_app; unfold start_ops; rewrite Hs|].
      repeat split; done. }
  rewrite bind_eq, nextEvent_eq. rewrite bind_eq. unfold Sess.openService at 1.
  cbn [session log_op set_session].
  assert (open_ok (pop (session w)) = open_ok (session w)) as Hpop.
  { unfold pop. by destruct (pending (session w)). }
  rewrite Hpop.
  destruct (open_ok (session w)) eqn:Ho; cbn [negb].
  - rewrite bind_eq, nextEvent_eq. rewrite bind_eq.
    unfold Sess.getService at 1. rewrite bind_eq, bind_eq, nextEvent_eq.
    eexists. split; [reflexivity|].
    cbn [session log_op set_session set_service refDataService fresh created].
    split.
    { apply call_log_app. cbn [log log_op set_session set_service].
      unfold start_ops. rewrite Hs, Ho. rewrite <- !app_assoc. reflexivity. }
    repeat split; done.
  - eexists. split; [reflexivity|].
    cbn [session log_op set_session refDataService fresh created].
    split.
    { apply call_log_app. cbn [log log_op set_session].
      unfold start_ops. rewrite Hs, Ho. rewrite <- !app_assoc. reflexivity. }
    repeat split; done.
Qed.

Lemma start_outcomes_witness :
  ∃ w', start unstarted_world = (Ret (), w') ∧
        session w' = dead_session ∧ refDataService w' = None.
Proof.
  destruct (start_outcomes unstarted_world) as (w' & Hstart & _ & _ & _ & Hdead & _).
  exists w'. split; [exact Hstart|]. exact (Hdead eq_refl).
Defined.

(** A fetch on a connection that has never obtained its service raises
    [AttributeError]: [bdh], [ref] and [bdib] after having drained the queue,
    [ref_hist] after a restart that did not open the service.  None of them
    creates or sends a request. *)
Theorem fetch_needs_service (fuel : nat) (w : World) :
  refDataService w = None →
  (length (pending (session w)) < fuel)%nat →
  (∀ tickers flds sd ed ps ov,
     bdh fuel tickers flds sd ed ps ov w = (Raise AttributeError, flushed w)) ∧
  (∀ tickers flds ov,
     ref fuel tickers flds ov w = (Raise AttributeError, flushed w)) ∧
  (∀ ticker sdt edt et interval,
     bdib fuel ticker sdt edt et interval w = (Raise AttributeError, flushed w)) ∧
  call_log w (flushed w) = drain_ops w ∧
  (start_ok (fresh w (created w)) && open_ok (fresh w (created w)) = false →
   ∀ tickers flds sd ed t,
     ref_hist fuel tickers flds sd ed t w = (Raise AttributeError, restarted w) ∧
     call_log w (restarted w)
     = NewSession (created w) :: start_ops (fresh w (created w))).
Proof.
  intros Hsvc Hlen. split; [|split; [|split; [|split]]].
  - intros tickers flds sd ed ps ov.
    exact (drained_call_no_service "HistoricalDataRequest"
             (λ request,
                fill_overrides ov
                  (request_set "endDate" (SStr ed)
                     (request_set "startDate" (SStr sd)
                        (request_set "periodicitySelection" (SStr ps)
                           (request_set "periodicityAdjustment" (SStr "ACTUAL")
                              (fill_request (as_list tickers) (as_list flds) request))))))
             (bdh_msg (as_list flds)) (bdh_frame (as_list tickers) (as_list flds)) ∅
             fuel w Hlen Hsvc).
  - intros tickers flds ov.
    exact (drained_call_no_service "ReferenceDataRequest"
             (λ request,
                fill_overrides ov (fill_request (as_list tickers) (as_list flds) request))
             (ref_msg (as_list flds)) (ref_frame (as_list tickers) (as_list flds)) []
             fuel w Hlen Hsvc).
  - intros ticker sdt edt et interval.
    exact (drained_call_no_service "IntradayBarRequest"
             (λ request,
                request_set "endDateTime" (SStr edt)
                  (request_set "startDateTime" (SStr sdt)
                     (request_set "interval" (SNum interval)
                        (request_set "eventType" (SStr et)
                           (request_set "security" (SStr ticker) request)))))
             (bdib_msg bar_flds) (bdib_frame bar_flds) ∅
             fuel w Hlen Hsvc).
  - by apply call_log_app.
  - intros Hfail tickers flds sd ed t. split.
    + apply ref_hist_no_service. cbn [restarted refDataService].
      by rewrite Hfail.
    + by apply call_log_app.
Qed.

Lemma fetch_needs_service_witness :
  ref 3 (One "IBM US Equity") (One "PX_LAST") [] unstarted_world
  = (Raise AttributeError, flushed unstarted_world).
Proof.
  destruct (fetch_needs_service 3 unstarted_world) as (_ & Href & _).
  - reflexivity.
  - cbn. lia.
  - apply Href.
Defined.

(** ** The requests the calls send *)

Lemma fill_request_eq tickers flds r :
  fill_request tickers flds r =
  {| operation := operation r; securities := securities r ++ tickers;
     fields := fields r ++ flds; settings := settings r;
     overrides := overrides r |}.
Proof.
  unfold fill_request.
  assert (∀ l r, foldl (λ r t, append_security t r) r l =
                 {| operation := operation r; securities := securities r ++ l;
                    fields := fields r; settings := settings r;
                    overrides := overrides r |}) as H1.
  { induction l as [|x l IHl]; intros r0; cbn [foldl].
    - destruct r0. cbn. by rewrite app_nil_r.
    - rewrite IHl. cbn. by rewrite <- app_assoc. }
  assert (∀ l r, foldl (λ r f, append_field f r) r l =
                 {| operation := operation r; securities := securities r;
                    fields := fields r ++ l; settings := settings r;
                    overrides := overrides r |}) as H2.
  { induction l as [|x l IHl]; intros r0; cbn [foldl].
    - destruct r0. cbn. by rewrite app_nil_r.
    - rewrite IHl. cbn. by rewrite <- app_assoc. }
  rewrite H2, H1. reflexivity.
Qed.

Lemma fill_overrides_eq ovrds r :
  fill_overrides ovrds r =
  {| operation := operation r; securities := securities r;
     fields := fields r; settings := settings r;
     overrides := overrides r ++ (override_of <$> ovrds) |}.
Proof.
  unfold fill_overrides. revert r.
  induction ovrds as [|p ovrds IH]; intros r; cbn [foldl].
  - destruct r. cbn. by rewrite app_nil_r.
  - rewrite IH. cbn. by rewrite <- app_assoc.
Qed.

Lemma sent_requests_drained w ops k :
  sent_requests (drain_ops w ++ ops ++ arrival_reads (Some 500) w k)
  = sent_requests ops.
Proof.
  unfold sent_requests, drain_ops, arrival_reads. rewrite !bind_app.
  assert (∀ evs, (TryNextEvent ∘ Some <$> evs) ≫= sent_request = []) as ->.
  { induction evs as [|ev evs IH]; [done|]. cbn. by rewrite IH. }
  assert (∀ evs, (NextEvent (Some 500) <$> evs) ≫= sent_request = []) as ->.
  { induction evs as [|ev evs IH]; [done|]. cbn. by rewrite IH. }
  cbn. by rewrite app_nil_r.
Qed.

Lemma bdh_log fuel tickers flds sd ed ps ov w :
  (length (pending (session w)) < fuel)%nat →
  ∃ k, (k ≤ fuel)%nat ∧
    call_log w (bdh fuel tickers flds sd ed ps ov w).2 =
    drain_ops w ++
    match refDataService w with
    | Some _ =>
        [CreateRequest "HistoricalDataRequest";
         SendRequest (bdh_request (as_list tickers) (as_list flds) sd ed ps ov) None]
        ++ arrival_reads (Some 500) w k
    | None => []
    end.
Proof.
  exact (drained_call_log "HistoricalDataRequest"
           (λ request,
              fill_overrides ov
                (request_set "endDate" (SStr ed)
                   (request_set "startDate" (SStr sd)
                      (request_set "periodicitySelection" (SStr ps)
                         (request_set "periodicityAdjustment" (SStr "ACTUAL")
                            (fill_request (as_list tickers) (as_list flds) request))))))
           (bdh_msg (as_list flds)) (bdh_frame (as_list tickers) (as_list flds)) ∅
           fuel w).
Qed.

Lemma ref_log fuel tickers flds ov w :
  (length (pending (session w)) < fuel)%nat →
  ∃ k, (k ≤ fuel)%nat ∧
    call_log w (ref fuel tickers flds ov w).2 =
    drain_ops w ++
    match refDataService w with
    | Some _ =>
        [CreateRequest "ReferenceDataRequest";
         SendRequest (ref_request (as_list tickers) (as_list flds) ov) None]
        ++ arrival_reads (Some 500) w k
    | None => []
    end.
Proof.
  exact (drained_call_log "ReferenceDataRequest"
           (λ request,
              fill_overrides ov (fill_request (as_list tickers) (as_list flds) request))
           (ref_msg (as_list flds)) (ref_frame (as_list tickers) (as_list flds)) []
           fuel w).
Qed.

Lemma bdib_log fuel ticker sdt edt et interval w :
  (length (pending (session w)) < fuel)%nat →
  ∃ k, (k ≤ fuel)%nat ∧
    call_log w (bdib fuel ticker sdt edt et interval w).2 =
    drain_ops w ++
    match refDataService w with
    | Some _ =>
        [CreateRequest "IntradayBarRequest";
         SendRequest (bdib_request ticker sdt edt et interval) None]
        ++ arrival_reads (Some 500) w k
    | None => []
    end.
Proof.
  exact (drained_call_log "IntradayBarRequest"
           (λ request,
              request_set "endDateTime" (SStr edt)
                (request_set "startDateTime" (SStr sdt)
                   (request_set "interval" (SNum interval)
                      (request_set "eventType" (SStr et)
                         (request_set "security" (SStr ticker) request)))))
           (bdib_msg bar_flds) (bdib_frame bar_flds) ∅
           fuel w).
Qed.

(** The one request a draining fetch sends (on a connection with its
    service): it names the caller's securities and fields in the caller's
    order, a single name standing for the list of it, carries the parameters
    of the call in the order the code sets them, and one override entry per
    pair of [ovrds], in order; it is sent without a correlation value. *)
Theorem requests_sent (fuel : nat) (w : World) :
  (length (pending (session w)) < fuel)%nat →
  is_Some (refDataService w) →
  (∀ tickers flds sd ed ps ov,
     sent_requests (call_log w (bdh fuel tickers flds sd ed ps ov w).2)
     = [({| operation := "HistoricalDataRequest";
            securities := as_list tickers; fields := as_list flds;
            settings := [("periodicityAdjustment", SStr "ACTUAL");
                         ("periodicitySelection", SStr ps);
                         ("startDate", SStr sd); ("endDate", SStr ed)];
            overrides := override_of <$> ov |}, None)]) ∧
  (∀ tickers flds ov,
     sent_requests (call_log w (ref fuel tickers flds ov w).2)
     = [({| operation := "ReferenceDataRequest";
            securities := as_list tickers; fields := as_list flds;
            settings := []; overrides := override_of <$> ov |}, None)]) ∧
  (∀ ticker sdt edt et interval,
     sent_requests (call_log w (bdib fuel ticker sdt edt et interval w).2)
     = [({| operation := "IntradayBarRequest"; securities := []; fields := [];
            settings := [("security", SStr ticker); ("eventType", SStr et);
                         ("interval", SNum interval);
                         ("startDateTime", SStr sdt); ("endDateTime", SStr edt)];
            overrides := [] |}, None)]).
Proof.
  intros Hlen [svc Hsvc]. split; [|split].
  - intros tickers flds sd ed ps ov.
    destruct (bdh_log fuel tickers flds sd ed ps ov w Hlen) as (k & _ & ->).
    rewrite Hsvc, sent_requests_drained.
    cbn [sent_requests mbind list_bind sent_request app]. unfold bdh_request.
    rewrite fill_overrides_eq, fill_request_eq. reflexivity.
  - intros tickers flds ov.
    destruct (ref_log fuel tickers flds ov w Hlen) as (k & _ & ->).
    rewrite Hsvc, sent_requests_drained.
    cbn [sent_requests mbind list_bind sent_request app]. unfold ref_request.
    rewrite fill_overrides_eq, fill_request_eq. reflexivity.
  - intros ticker sdt edt et interval.
    destruct (bdib_log fuel ticker sdt edt et interval w Hlen) as (k & _ & ->).
    rewrite Hsvc, sent_requests_drained. reflexivity.
Qed.

Lemma requests_sent_witness :
  sent_requests
    (call_log error_exchange
       (bdh 5 (One "IBM US Equity") (Many ["PX_LAST"; "VOLUME"]) "20200101"
            "20200131" "WEEKLY" [("currency", SStr "EUR")] error_exchange).2)
  = [({| operation := "HistoricalDataRequest";
         securities := ["IBM US Equity"]; fields := ["PX_LAST"; "VOLUME"];
         settings := [("periodicityAdjustment", SStr "ACTUAL");
                      ("periodicitySelection", SStr "WEEKLY");
                      ("startDate", SStr "20200101"); ("endDate", SStr "20200131")];
         overrides := [[("fieldId", SStr "currency"); ("value", SStr "EUR")]] |},
      None)].
Proof.
  destruct (requests_sent 5 error_exchange) as (Hbdh & _).
  - cbn. lia.
  - by eexists.
  - exact (Hbdh (One "IBM US Equity") (Many ["PX_LAST"; "VOLUME"]) "20200101"
             "20200131" "WEEKLY" [("currency", SStr "EUR")]).
Defined.

(** ** The loop of [ref_hist] *)





(** ** What a record must look like to go through *)

Lemma getElement_name e n c :
  Elem.getElement e n = Ok c → c ∈ Elem.elements e ∧ Elem.name c = n.
Proof.
  unfold Elem.getElement.
  destruct (list_find _ (Elem.elements e)) as [[i c']|] eqn:Hfind; [|done].
  intros Hc. injection Hc as <-. apply list_find_Some in Hfind as (Hi & Hn & _).
  split; [by eapply list_elem_of_lookup_2|done].
Qed.

Lemma getElement_absent e n :
  n ∉ Elem.name <$> Elem.elements e → Elem.getElement e n = Err NotFoundException.
Proof.
  intros Hn. unfold Elem.getElement.
  destruct (list_find _ (Elem.elements e)) as [[i c]|] eqn:Hfind; [|done].
  apply list_find_Some in Hfind as (Hi & Hc & _). exfalso. apply Hn.
  apply list_elem_of_fmap. exists c. split; [done|]. by eapply list_elem_of_lookup_2.
Qed.

Lemma ref_value_ok_name rfd fld val :
  ref_value rfd fld = Ok val → fld ∈ Elem.name <$> Elem.elements rfd.
Proof.
  unfold ref_value. intros H. apply bind_ok_inv in H as (e & He & _).
  apply getElement_name in He as [Hin Hn]. apply list_elem_of_fmap. by exists e.
Qed.

(** What the loops accept.  A row of [bdh] that goes through has its date
    element and at most as many further elements as there are requested
    fields (fewer are accepted).  A security of [ref] or [ref_hist] that
    goes through has at most as many field elements as there are requested
    fields, and among them one named after each of the first that many
    requested fields. *)
Theorem records_within_request (flds : list string) :
  (∀ ticker fldData i row data data',
     Elem.getValue fldData i = Ok (IElem row) →
     bdh_row flds ticker fldData i data = Ok data' →
     (1 ≤ Elem.numElements row ≤ S (length flds))%nat) ∧
  (∀ fldData i sec tk ticker rfd data data',
     Elem.getValue fldData i = Ok (IElem sec) →
     Elem.getElement sec "security" = Ok tk →
     Elem.getValue tk 0 = Ok ticker →
     Elem.getElement sec "fieldData" = Ok rfd →
     ref_security flds fldData i data = Ok data' →
     (Elem.numElements rfd ≤ length flds)%nat ∧
     ∀ j fld, (j < Elem.numElements rfd)%nat → flds !! j = Some fld →
              fld ∈ Elem.name <$> Elem.elements rfd) ∧
  (∀ corrID fldData i sec tk ticker rfd data data',
     Elem.getValue fldData i = Ok (IElem sec) →
     Elem.getElement sec "security" = Ok tk →
     Elem.getValue tk 0 = Ok ticker →
     Elem.getElement sec "fieldData" = Ok rfd →
     ref_hist_security flds corrID fldData i data = Ok data' →
     (Elem.numElements rfd ≤ length flds)%nat ∧
     ∀ j fld, (j < Elem.numElements rfd)%nat → flds !! j = Some fld →
              fld ∈ Elem.name <$> Elem.elements rfd).
Proof.
  split; [|split].
  - intros ticker fldData i row data data' Hrow. unfold bdh_row.
    rewrite Hrow. cbn [mbind result_bind as_element].
    intros H. apply bind_ok_inv in H as (e0 & He0 & H).
    apply bind_ok_inv in H as (dt & _ & H).
    assert (1 ≤ Elem.numElements row)%nat as Hge.
    { unfold Elem.getElementAt in He0.
      destruct (Elem.elements row !! 0%nat) as [c|] eqn:Hc; [|done].
      apply lookup_lt_Some in Hc. destruct row; cbn in *; lia. }
    split; [done|].
    destruct (decide (Elem.numElements row ≤ S (length flds))%nat) as [|Hgt]; [done|].
    assert (S (length flds) ∈ seq 1 (Elem.numElements row - 1)) as Hin.
    { apply elem_of_seq. lia. }
    destruct (foldM_ok_each _ _ _ _ _ H Hin) as (d0 & d1 & Hok).
    apply bind_ok_inv in Hok as (ej & _ & Hok).
    apply bind_ok_inv in Hok as (val & _ & Hok).
    apply bind_ok_inv in Hok as (fld & Hfld & _).
    unfold py_index in Hfld. rewrite lookup_ge_None_2 in Hfld by lia. done.
  - intros fldData i sec tk ticker rfd data data' Hsec Htk Ht Hrfd H.
    split; [by eapply ref_security_ok_bound|].
    intros j fld Hj Hfld. revert H. unfold ref_security.
    rewrite Hsec. cbn. rewrite Htk. cbn. rewrite Ht. cbn. rewrite Hrfd. cbn.
    intros H.
    assert (j ∈ seq 0 (Elem.numElements rfd)) as Hin by (apply elem_of_seq; lia).
    destruct (foldM_ok_each _ _ _ _ _ H Hin) as (d0 & d1 & Hok).
    unfold py_index in Hok. rewrite Hfld in Hok. cbn in Hok.
    apply bind_ok_inv in Hok as (val & Hval & _). by eapply ref_value_ok_name.
  - intros corrID fldData i sec tk ticker rfd data data' Hsec Htk Ht Hrfd.
    unfold ref_hist_security.
    rewrite Hsec. cbn. rewrite Htk. cbn. rewrite Ht. cbn. rewrite Hrfd. cbn.
    intros H. split.
    + destruct (decide (Elem.numElements rfd ≤ length flds)%nat) as [|Hgt]; [done|].
      assert (length flds ∈ seq 0 (Elem.numElements rfd)) as Hin
          by (apply elem_of_seq; lia).
      destruct (foldM_ok_each _ _ _ _ _ H Hin) as (d0 & d1 & Hok).
      unfold py_index in Hok. rewrite lookup_ge_None_2 in Hok by lia. done.
    + intros j fld Hj Hfld.
      assert (j ∈ seq 0 (Elem.numElements rfd)) as Hin by (apply elem_of_seq; lia).
      destruct (foldM_ok_each _ _ _ _ _ H Hin) as (d0 & d1 & Hok).
      unfold py_index in Hok. rewrite Hfld in Hok. cbn in Hok.
      apply bind_ok_inv in Hok as (e & He & _).
      apply getElement_name in He as [Hin' Hn]. apply list_elem_of_fmap. by exists e.
Qed.

Lemma records_within_request_witness :
  (Elem.numElements (Sequence "fieldData" [Simple "NAME" (SStr "ay")]) ≤
   length ["NAME"; "PX_LAST"])%nat ∧
  ∀ j fld, (j < Elem.numElements (Sequence "fieldData" [Simple "NAME" (SStr "ay")]))%nat →
           ["NAME"; "PX_LAST"] !! j = Some fld →
           fld ∈ Elem.name <$> Elem.elements
                   (Sequence "fieldData" [Simple "NAME" (SStr "ay")]).
Proof.
  destruct (records_within_request ["NAME"; "PX_LAST"]) as (_ & Href & _).
  apply (Href (Array "securityData"
                 [ref_security_data "A" [Simple "NAME" (SStr "ay")]])
           0%nat (ref_security_data "A" [Simple "NAME" (SStr "ay")])
           (Simple "security" (SStr "A")) (IScalar (SStr "A"))
           (Sequence "fieldData" [Simple "NAME" (SStr "ay")]) []
           [("NAME", "A", PItem (IScalar (SStr "ay")))]); reflexivity.
Defined.

Lemma mapM_all_ok {A B : Type} (g : A → result B) l :
  (∀ x, x ∈ l → ∃ r, g x = Ok r) → ∃ rs, mapM (M := result) g l = Ok rs.
Proof.
  induction l as [|x l IH]; intros Hall; [by exists []|].
  destruct (Hall x) as [r Hr]; [by left|].
  destruct IH as [rs Hrs]; [intros y Hy; apply Hall; by right|].
  exists (r :: rs). cbn. rewrite Hr. cbn. by rewrite Hrs.
Qed.

Lemma bdh_row_loop_overflow (flds : list string) (t : string) (d : Z)
    (row : Element) (es : list Element) (vs : list Item) (a : nat)
    (data : gmap (string * string) (gmap Z PyVal)) :
  drop (S a) (Elem.elements row) = es →
  values_of es = Ok vs →
  (length (drop a flds) < length es)%nat →
  foldM (λ j data,
           ej ← Elem.getElementAt row j;
           val ← Elem.getValue ej 0;
           fld ← py_index flds (j - 1);
           t ← as_str (IScalar (SStr t));
           d ← as_date (IScalar (SDate d));
           Ok (dict_put (t, fld) d (PItem val) data))
        (seq (S a) (length es)) data
  = Err IndexError.
Proof.
  revert vs a data. induction es as [|e es IH]; intros vs a data Hes Hvs Hlen;
    [cbn in Hlen; lia|].
  cbn in Hvs. destruct (Elem.getValue e 0) as [v|] eqn:Hv; [|done]. cbn in Hvs.
  destruct (mapM _ es) as [vs'|] eqn:Hvs'; [|done].
  destruct (py_index_drop _ _ _ _ Hes) as [He Hes'].
  assert (Elem.getElementAt row (S a) = Ok e) as He'.
  { unfold Elem.getElementAt. unfold py_index in He.
    by destruct (Elem.elements row !! S a). }
  cbn [length seq foldM]. rewrite He'. cbn [mbind result_bind].
  rewrite Hv. cbn [mbind result_bind].
  replace (S a - 1)%nat with a by lia.
  destruct (drop a flds) as [|fld rest] eqn:Hdrop.
  - unfold py_index. rewrite lookup_ge_None_2; [done|].
    apply (f_equal length) in Hdrop. rewrite length_drop in Hdrop. cbn in Hdrop. lia.
  - destruct (py_index_drop _ _ _ _ Hdrop) as [Hidx Hrest].
    rewrite Hidx. cbn [mbind result_bind as_str as_date].
    apply (IH vs' (S a)); [done|done|]. rewrite Hrest. cbn in Hlen. lia.
Qed.

(** Records that do not fit the request make the call raise.  In [bdh] a row
    with more values after its date than there are requested fields raises
    [IndexError].  In [ref] a security with [n] field elements none of which
    is named after the [j]-th requested field, [j < n], raises blpapi's
    [NotFoundException] when the fields before it went through, although
    the fields the security does carry may all have been requested. *)
Theorem record_mismatch_raises (flds : list string) :
  (∀ t d fldData i nm e0 es vs data,
     Elem.getValue fldData i = Ok (IElem (Sequence nm (e0 :: es))) →
     Elem.getValue e0 0 = Ok (IScalar (SDate d)) →
     values_of es = Ok vs →
     (length flds < length es)%nat →
     bdh_row flds (IScalar (SStr t)) fldData i data = Err IndexError) ∧
  (∀ fldData i sec tk t rfd data j fld,
     Elem.getValue fldData i = Ok (IElem sec) →
     Elem.getElement sec "security" = Ok tk →
     Elem.getValue tk 0 = Ok (IScalar (SStr t)) →
     Elem.getElement sec "fieldData" = Ok rfd →
     (j < Elem.numElements rfd)%nat →
     flds !! j = Some fld →
     (∀ f, f ∈ take j flds → ∃ val, ref_value rfd f = Ok val) →
     fld ∉ Elem.name <$> Elem.elements rfd →
     ref_security flds fldData i data = Err NotFoundException).
Proof.
  split.
  - intros t d fldData i nm e0 es vs data Hrow Hdt Hvs Hlen.
    unfold bdh_row. rewrite Hrow. cbn. rewrite Hdt. cbn.
    replace (length es - 0)%nat with (length es) by lia.
    exact (bdh_row_loop_overflow flds t d (Sequence nm (e0 :: es)) es vs 0 data
             eq_refl Hvs Hlen).
  - intros fldData i sec tk t rfd data j fld Hsec Htk Ht Hrfd Hj Hfld Hbefore Habs.
    unfold ref_security.
    rewrite Hsec. cbn. rewrite Htk. cbn. rewrite Ht. cbn. rewrite Hrfd. cbn.
    replace (Elem.numElements rfd) with (j + S (Elem.numElements rfd - S j))%nat by lia.
    rewrite seq_app, foldM_app.
    rewrite (foldM_ext _ (λ j data, fld ← py_index flds j;
                                     r ← (λ val, (fld, t, val)) <$> ref_value rfd fld;
                                     Ok (data ++ [r]))).
    2:{ intros j' d'. destruct (py_index flds j') as [f|]; [|done]. cbn.
        by destruct (ref_value rfd f). }
    rewrite (foldM_collect flds _ 0 j data).
    2:{ apply lookup_lt_Some in Hfld. lia. }
    destruct (mapM_all_ok (λ f, (λ val, (f, t, val)) <$> ref_value rfd f) (take j flds))
      as [rs Hrs].
    { intros f Hf. destruct (Hbefore f Hf) as [val Hval]. rewrite Hval. by eexists. }
    rewrite drop_0, Hrs. cbn [fmap result_fmap mbind result_bind seq foldM plus].
    assert (py_index flds j = Ok fld) as -> by (unfold py_index; by rewrite Hfld).
    cbn [mbind result_bind].
    assert (ref_value rfd fld = Err NotFoundException) as ->; [|done].
    unfold ref_value. by rewrite (getElement_absent rfd fld Habs).
Qed.

Lemma record_mismatch_raises_witness :
  ref_security ["NAME"; "PX_LAST"]
    (Array "securityData" [ref_security_data "A" [Simple "PX_LAST" (SNum 1)]]) 0 []
  = Err NotFoundException.
Proof.
  destruct (record_mismatch_raises ["NAME"; "PX_LAST"]) as [_ Href].
  apply (Href _ 0%nat (ref_security_data "A" [Simple "PX_LAST" (SNum 1)])
           (Simple "security" (SStr "A")) "A"
           (Sequence "fieldData" [Simple "PX_LAST" (SNum 1)]) [] 0%nat "NAME");
    try reflexivity.
  - cbn. lia.
  - intros f Hf. by apply elem_of_nil in Hf.
  - cbn. intros Hin. apply list_elem_of_singleton in Hin. discriminate Hin.
Defined.

(** ** The dictionary of dictionaries of [bdh] and [bdib] *)


(** ** Edge cases of the array-typed fields of [ref] *)

(** An array-typed field without entries is recorded as the empty list; an
    array whose first entry is a plain value, not a sequence, makes [ref]
    raise [AttributeError] (the code asks the value for its [elements()]);
    a field that is no array is recorded as its value. *)
Theorem ref_value_edges (rfd : Element) (fld : string) :
  (∀ nm, Elem.getElement rfd fld = Ok (Array nm []) →
         ref_value rfd fld = Ok (PList [])) ∧
  (∀ nm nm' v vals,
     Elem.getElement rfd fld = Ok (Array nm (Simple nm' v :: vals)) →
     ref_value rfd fld = Err AttributeError) ∧
  (∀ nm v, Elem.getElement rfd fld = Ok (Simple nm v) →
           ref_value rfd fld = Ok (PItem (IScalar v))).
Proof.
  split; [|split].
  - intros nm He. by rewrite (ref_value_array rfd fld nm [] He).
  - intros nm nm' v vals He.
    by rewrite (ref_value_array rfd fld nm (Simple nm' v :: vals) He).
  - intros nm v He. unfold ref_value. by rewrite He.
Qed.

Lemma ref_value_edges_witness :
  ref_value (Sequence "fieldData" [Array "TICKERS" [Simple "TICKERS" (SStr "IBM")]])
            "TICKERS"
  = Err AttributeError.
Proof.
  destruct (ref_value_edges
              (Sequence "fieldData" [Array "TICKERS" [Simple "TICKERS" (SStr "IBM")]])
              "TICKERS") as (_ & Hplain & _).
  by eapply Hplain.
Defined.

(** ** The table of [ref_hist] *)

Lemma skips_fold {D : Type} (f : Message → D → result D)
    (stop : Event → D → result bool) evs d d1 :
  skips f stop evs d d1 → foldM f (evs ≫= messages) d = Ok d1.
Proof.
  induction 1 as [d|ev evs d d1 d' Hf _ _ IH]; [done|].
  cbn. by eapply foldM_ok_app.
Qed.

Lemma mapM_ok_from {A B : Type} (g : A → result B) l rs r :
  mapM (M := result) g l = Ok rs → r ∈ rs → ∃ x, x ∈ l ∧ g x = Ok r.
Proof.
  revert rs. induction l as [|y l IH]; intros rs H Hr.
  - cbn in H. injection H as <-. by apply elem_of_nil in Hr.
  - cbn in H. destruct (g y) as [r0|] eqn:Hy; [|done]. cbn in H.
    destruct (mapM g l) as [rs'|] eqn:Hl; [|done]. cbn in H. injection H as <-.
    apply elem_of_cons in Hr as [->|Hr].
    + exists y. split; [by left|done].
    + destruct (IH rs' eq_refl Hr) as (x & Hx & Hgx). exists x. split; [by right|done].
Qed.

Lemma pivot_table_inv data df :
  pivot_table data = Ok df →
  ∃ keys, data ≠ [] ∧ mapM (M := result) hist_key data = Ok keys ∧ NoDup keys ∧
    df = mkDF (hist_rows keys) (MultiIndex (hist_cols keys))
           ((λ c, (λ r, hist_cells data keys !! (r, c)) <$> hist_rows keys)
              <$> hist_cols keys).
Proof.
  unfold pivot_table. destruct data as [|r data]; [done|].
  destruct (mapM hist_key (r :: data)) as [keys|] eqn:Hkeys; [|done].
  cbn [mbind result_bind]. destruct (decide (NoDup keys)) as [Hnd|]; [|done].
  intros H. injection H as <-. exists keys. done.
Qed.

Lemma ref_hist_security_fields flds corrID fldData i data data' :
  Forall (λ r : HistRecord, r.1.1.1 ∈ flds) data →
  ref_hist_security flds corrID fldData i data = Ok data' →
  Forall (λ r : HistRecord, r.1.1.1 ∈ flds) data'.
Proof.
  intros Hin. unfold ref_hist_security. intros H.
  apply bind_ok_inv in H as (sec_i & _ & H).
  apply bind_ok_inv in H as (sec & _ & H).
  apply bind_ok_inv in H as (tk & _ & H).
  apply bind_ok_inv in H as (tckr & _ & H).
  apply bind_ok_inv in H as (rfd & _ & H).
  revert H. apply foldM_invariant; [|done].
  clear. intros j d d' Hd H.
  apply bind_ok_inv in H as (fld & Hfld & H).
  apply bind_ok_inv in H as (e & _ & H).
  apply bind_ok_inv in H as (val & _ & H).
  apply bind_ok_inv in H as (t & _ & H).
  injection H as <-. apply Forall_app. split; [done|].
  constructor; [|constructor]. cbn. by eapply py_index_elem.
Qed.

Lemma ref_hist_msgs_fields flds msgs data :
  foldM (ref_hist_msg flds) msgs [] = Ok data →
  Forall (λ r : HistRecord, r.1.1.1 ∈ flds) data.
Proof.
  apply foldM_invariant; [|constructor].
  intros msg d d' Hd H. unfold ref_hist_msg in H.
  apply bind_ok_inv in H as (corrID & _ & H).
  apply bind_ok_inv in H as (fldData & _ & H).
  revert H. apply foldM_invariant; [|done].
  intros i d0 d1 Hd0 H. by eapply ref_hist_security_fields.
Qed.

Lemma hist_cols_elem keys c : c ∈ hist_cols keys ↔ c ∈ keys.*2.
Proof.
  unfold hist_cols. rewrite merge_sort_Permutation, elem_of_elements.
  apply elem_of_list_to_set.
Qed.

Lemma hist_cols_fields (flds : list string) (data : list HistRecord)
    (keys : list (Z * (string * string))) (c : string * string) :
  Forall (λ r : HistRecord, r.1.1.1 ∈ flds) data →
  mapM (M := result) hist_key data = Ok keys →
  c ∈ hist_cols keys → c.2 ∈ flds.
Proof.
  intros Hin Hkeys Hc. apply hist_cols_elem in Hc.
  apply list_elem_of_fmap in Hc as (key & -> & Hkey).
  destruct (mapM_ok_from _ _ _ _ Hkeys Hkey) as (r & Hr & Hk).
  unfold hist_key in Hk. apply bind_ok_inv in Hk as (d & _ & Hk).
  injection Hk as <-. cbn. rewrite Forall_forall in Hin. by apply Hin.
Qed.

Lemma hist_cells_absent data keys r c :
  c ∉ hist_cols keys → hist_cells data keys !! (r, c) = None.
Proof.
  intros Hc. unfold hist_cells. apply not_elem_of_list_to_map_1.
  intros Hin. apply Hc, hist_cols_elem.
  apply list_elem_of_fmap in Hin as ([k v] & Hk & Hkv). cbn in Hk. subst k.
  apply elem_of_zip_l in Hkv.
  apply list_elem_of_fmap. exists (r, c). done.
Qed.

Lemma ref_hist_frame_table (tickers flds : list string) (data : list HistRecord)
    (df : DataFrame Z) :
  Forall (λ r : HistRecord, r.1.1.1 ∈ flds) data →
  ref_hist_frame tickers flds data = Ok df →
  ∃ keys,
    data ≠ [] ∧ mapM (M := result) hist_key data = Ok keys ∧ NoDup keys ∧
    index df = hist_rows keys ∧
    (∀ f, flds = [f] →
       columns df = Index tickers ∧
       values df = (λ tk, (λ d, hist_cells data keys !! (d, (tk, f))) <$> hist_rows keys)
                     <$> tickers) ∧
    (length flds ≠ 1%nat →
       columns df = MultiIndex (hist_cols keys) ∧
       values df = (λ c, (λ d, hist_cells data keys !! (d, c)) <$> hist_rows keys)
                     <$> hist_cols keys).
Proof.
  intros Hin. unfold ref_hist_frame. intros H.
  apply bind_ok_inv in H as (df0 & Hpt & H).
  apply pivot_table_inv in Hpt as (keys & Hne & Hkeys & Hnd & ->).
  exists keys. split; [done|]. split; [done|]. split; [done|].
  destruct (decide (length flds = 1%nat)) as [Hone|Hmany].
  - destruct flds as [|f [|? ?]]; try done.
    unfold droplevel_last in H. cbn [columns index values mbind result_bind] in H.
    unfold loc_columns, one_level in H.
    cbn [columns index values mbind result_bind] in H.
    destruct (locate ((hist_cols keys).*1) tickers) as [ps|] eqn:Hps; [|done].
    cbn [mbind result_bind] in H. injection H as <-. cbn [index columns values].
    split; [done|]. split; [|done].
    intros f' Hf'. injection Hf' as <-.
    assert (∀ k, k ∈ hist_cols keys → k = (k.1, f)) as Hk.
    { intros [tk g] Hc. cbn. f_equal.
      apply (hist_cols_fields [f] data keys) in Hc; [|done..].
      cbn in Hc. by apply list_elem_of_singleton in Hc. }
    assert (NoDup ((hist_cols keys).*1)) as Hndc.
    { apply NoDup_fmap_2_strong; [|apply merge_sort_elements_NoDup].
      intros k1 k2 H1 H2 Heq. rewrite (Hk k1 H1), (Hk k2 H2). by rewrite Heq. }
    rewrite (locate_labels _ _ _ Hndc Hps). split; [done|].
    rewrite (list_fmap_ext _
               ((λ tk, (λ d, hist_cells data keys !! (d, (tk, f))) <$> hist_rows keys)
                  ∘ fst) (hist_cols keys)).
    2:{ intros i k Hki. cbn. apply list_elem_of_lookup_2 in Hki.
        apply list_fmap_ext. intros _ d _. by rewrite (Hk k Hki) at 1. }
    rewrite list_fmap_compose.
    apply (locate_pick ((hist_cols keys).*1) tickers ps
             (λ tk, (λ d, hist_cells data keys !! (d, (tk, f))) <$> hist_rows keys)
             _ Hndc); [|done].
    intros tk Htk. apply list_fmap_ext. intros _ d _.
    apply hist_cells_absent. intros Hc. apply Htk.
    by apply (list_elem_of_fmap_2' fst (hist_cols keys) (tk, f)).
  - injection H as <-. cbn [index columns values]. split; [done|].
    split; [|done]. intros f Hf. rewrite Hf in Hmany. done.
Qed.

(** The table [ref_hist] returns.  Every record received carries a date as
    its correlation id, and no two records carry the same date, security
    and field.  The rows are the distinct dates in ascending order.  For one
    requested field the columns are the requested securities in the order of
    the request (NaN for a security without a record); otherwise they are
    the (security, field) pairs of the records, each once and in ascending
    order, every field being a requested one. *)
Theorem ref_hist_returns_table (fuel : nat) (tickers flds : StrOrList)
    (sd ed t : Z) (w : World) (df : DataFrame Z) :
  (ref_hist fuel tickers flds sd ed t w).1 = Ret df →
  ∃ k data keys,
    foldM (ref_hist_msg (as_list flds))
      (upcoming_list (session (restarted w)) (S k) ≫= messages) [] = Ok data ∧
    data ≠ [] ∧ mapM (M := result) hist_key data = Ok keys ∧ NoDup keys ∧
    index df = hist_rows keys ∧ Sorted Z.le (index df) ∧ NoDup (index df) ∧
    (∀ f, as_list flds = [f] →
       columns df = Index (as_list tickers) ∧
       values df = (λ tk, (λ d, hist_cells data keys !! (d, (tk, f))) <$> hist_rows keys)
                     <$> as_list tickers) ∧
    (length (as_list flds) ≠ 1%nat →
       columns df = MultiIndex (hist_cols keys) ∧
       values df = (λ c, (λ d, hist_cells data keys !! (d, c)) <$> hist_rows keys)
                     <$> hist_cols keys ∧
       Sorted pair_le (hist_cols keys) ∧ NoDup (hist_cols keys) ∧
       ∀ c, c ∈ hist_cols keys → c.2 ∈ as_list flds).
Proof.
  intros H. apply fst_ret_inv in H.
  destruct (refDataService (restarted w)) as [svc|] eqn:Hsvc.
  2:{ by rewrite ref_hist_no_service in H. }
  rewrite ref_hist_eq in H by eauto. unfold finish in H.
  destruct (event_loop _ _ _ _ _ _) as [[data|e|] w2] eqn:Hloop; [|done..].
  apply lift_ret_inv in H as [Hdf _].
  apply event_loop_ret_inv in Hloop as (k & d1 & _ & Hsk & Hf & _ & _).
  apply skips_fold in Hsk.
  assert (foldM (ref_hist_msg (as_list flds))
            (upcoming_list (session (restarted w)) (S k) ≫= messages) [] = Ok data)
    as Hdata.
  { rewrite upcoming_list_snoc, bind_app. cbn [mbind list_bind]. rewrite app_nil_r.
    by eapply foldM_ok_app. }
  pose proof (ref_hist_msgs_fields _ _ _ Hdata) as Hin.
  destruct (ref_hist_frame_table _ _ _ _ Hin Hdf)
    as (keys & Hne & Hkeys & Hnd & Hidx & Hone & Hmany).
  exists k, data, keys. split; [done|]. split; [done|]. split; [done|].
  split; [done|]. split; [done|]. rewrite Hidx.
  split; [apply Sorted_merge_sort; apply _|].
  split; [apply merge_sort_elements_NoDup|].
  split; [done|]. intros Hlen. destruct (Hmany Hlen) as [Hc Hv].
  split; [done|]. split; [done|].
  split; [apply (@Sorted_merge_sort _ pair_le _ pair_le_total)|].
  split; [apply merge_sort_elements_NoDup|].
  intros c Hcin. by eapply hist_cols_fields.
Qed.

Lemma ref_hist_returns_table_witness :
  ∃ data keys,
    data ≠ [] ∧ mapM (M := result) hist_key data = Ok keys ∧ NoDup keys ∧
    [1; 2] = hist_rows keys ∧
    [[Some (PItem (IScalar (SNum 10))); Some (PItem (IScalar (SNum 11)))];
     [Some (PItem (IScalar (SNum 20))); Some (PItem (IScalar (SNum 21)))]]
    = (λ tk, (λ d, hist_cells data keys !! (d, (tk, "PX_LAST"))) <$> hist_rows keys)
        <$> ["A"; "B"].
Proof.
  destruct (ref_hist_returns_table 10 (Many ["A"; "B"]) (One "PX_LAST") 1 2 2000
              full_exchange
              (mkDF [1; 2] (Index ["A"; "B"])
                 [[Some (PItem (IScalar (SNum 10))); Some (PItem (IScalar (SNum 11)))];
                  [Some (PItem (IScalar (SNum 20))); Some (PItem (IScalar (SNum 21)))]]))
    as (k & data & keys & _ & Hne & Hkeys & Hnd & Hidx & _ & _ & Hone & _).
  - vm_compute. reflexivity.
  - exists data, keys. split; [exact Hne|]. split; [exact Hkeys|].
    split; [exact Hnd|]. split; [exact Hidx|].
    exact (proj2 (Hone "PX_LAST" eq_refl)).
Defined.

(** ** [ref_hist] on an empty request *)

(** At the first timeout event, [ref_hist] divides the number of records by
    the number of fields and by the number of securities: without a field
    or without a security the call raises [ZeroDivisionError].  Over a range
    without a business day no request is sent and the count of zero records
    is the expected one, so the loop is left, and the reshaping of the empty
    list of records raises [ValueError]: such a call returns no table. *)
Theorem ref_hist_empty_request (fuel : nat) (tickers flds : StrOrList)
    (sd ed t : Z) (w : World) (k : nat) (d1 data : list HistRecord) :
  let T := as_list tickers in
  let F := as_list flds in
  let dates := bdate_range sd ed in
  let s1 := session (restarted w) in
  is_Some (refDataService (restarted w)) → (k < fuel)%nat →
  skips (ref_hist_msg F) (ref_hist_stop F T dates) (upcoming_list s1 k) [] d1 →
  foldM (ref_hist_msg F) (messages (upcoming s1 k)) d1 = Ok data →
  eventType (upcoming s1 k) = TIMEOUT →
  (F = [] ∨ T = [] →
   (ref_hist fuel tickers flds sd ed t w).1 = Raise ZeroDivisionError) ∧
  (F ≠ [] → T ≠ [] → dates = [] → data = [] →
   (ref_hist fuel tickers flds sd ed t w).1 = Raise ValueError).
Proof.
  intros T F dates s1 Hsvc Hk Hsk Hf Hev. subst T F dates s1.
  assert (ref_hist fuel tickers flds sd ed t w =
          finish (ref_hist_frame (as_list tickers) (as_list flds))
            (match ref_hist_stop (as_list flds) (as_list tickers) (bdate_range sd ed)
                     (upcoming (session (restarted w)) k) data with
             | Err e => (Raise e, polls (Some t) (S k)
                           (hist_submitted (as_list tickers) (as_list flds)
                              (bdate_range sd ed) w))
             | Ok true => (Ret data, polls (Some t) (S k)
                             (hist_submitted (as_list tickers) (as_list flds)
                                (bdate_range sd ed) w))
             | Ok false =>
                 event_loop (fuel - S k) (Some t) (ref_hist_msg (as_list flds))
                   (ref_hist_stop (as_list flds) (as_list tickers) (bdate_range sd ed))
                   data
                   (polls (Some t) (S k)
                      (hist_submitted (as_list tickers) (as_list flds)
                         (bdate_range sd ed) w))
             end)) as ->.
  { rewrite ref_hist_eq by done.
    rewrite (event_loop_at _ _ _ k fuel [] d1) by done.
    cbn zeta.
    assert (session (hist_submitted (as_list tickers) (as_list flds)
                       (bdate_range sd ed) w) = session (restarted w)) as ->
        by reflexivity.
    by rewrite Hf. }
  split.
  - intros Hnil.
    assert (ref_hist_stop (as_list flds) (as_list tickers) (bdate_range sd ed)
              (upcoming (session (restarted w)) k) data = Err ZeroDivisionError) as ->;
      [|done].
    unfold ref_hist_stop. rewrite decide_True by done.
    assert (∀ a, truediv a (len (@nil string)) = Err ZeroDivisionError) as Hz.
    { intros a. unfold truediv.
      destruct (decide (len (@nil string) = 0%Qc)) as [|Hn]; [done|].
      exfalso. apply Hn. apply Z2Qc_inj_0. }
    destruct Hnil as [HF|HT].
    + by rewrite HF, Hz.
    + rewrite HT.
      destruct (truediv (len data) (len (as_list flds))) as [q|e] eqn:Hq.
      * cbn [mbind result_bind]. by rewrite Hz.
      * unfold truediv in Hq.
        destruct (decide (len (as_list flds) = 0%Qc)); [|done].
        by injection Hq as <-.
  - intros HF HT Hd ->.
    assert (ref_hist_stop (as_list flds) (as_list tickers) (bdate_range sd ed)
              (upcoming (session (restarted w)) k) [] = Ok true) as ->; [|done].
    unfold ref_hist_stop. rewrite decide_True by done. rewrite Hd.
    assert (∀ A (l : list A), l ≠ [] → len l ≠ 0%Qc) as Hlen.
    { intros A l Hl. unfold len. intros H0.
      rewrite <- Z2Qc_inj_0 in H0. apply Z2Qc_inj in H0.
      destruct l; [done|]. cbn in H0. lia. }
    unfold truediv. rewrite decide_False by auto. cbn [mbind result_bind].
    rewrite decide_False by auto.
    assert ((len (@nil HistRecord) / len (as_list flds) / len (as_list tickers))%Qc
            = len (@nil Z)) as ->.
    { unfold len at 1 4. cbn [length]. change (Z.of_nat 0) with 0.
      rewrite Z2Qc_inj_0. field. split; auto. }
    cbn [mbind result_bind]. by rewrite decide_True.
Qed.

Lemma ref_hist_empty_request_witness :
  (ref_hist 10 (Many ["A"; "B"]) (One "PX_LAST") 6 7 2000 silent_world).1
  = Raise ValueError.
Proof.
  destruct (ref_hist_empty_request 10 (Many ["A"; "B"]) (One "PX_LAST") 6 7 2000
              silent_world 0 [] []) as [_ Hempty].
  - by eexists.
  - lia.
  - apply skips_nil.
  - reflexivity.
  - reflexivity.
  - apply Hempty; [done|done|reflexivity|reflexivity].
Defined.

(** ** The connection a call leaves behind *)

Section drained_call_connection.
Context {D R : Type} (op : string) (build : Request → Request)
        (f : Message → D → result D) (post : D → result R) (d0 : D).

Let call (fuel : nat) : M R :=
  _ ← flush fuel;
  request ← createRequest op;
  _ ← Sess.sendRequest (build request) None;
  data ← event_loop fuel (Some 500) f stop_on_response d0;
  lift (post data).

Lemma drained_call_connection fuel w :
  (length (pending (session w)) < fuel)%nat →
  created (call fuel w).2 = created w ∧
  refDataService (call fuel w).2 = refDataService w ∧
  fresh (call fuel w).2 = fresh w ∧
  ∃ k, session (call fuel w).2 = Nat.iter k pop (clear_pending (session w)).
Proof.
  intros Hlen. unfold call. destruct (refDataService w) as [svc|] eqn:Hsvc.
  - rewrite (drained_call_eq op build f post d0) by eauto.
    rewrite finish_world.
    destruct (event_loop_world (Some 500) f stop_on_response fuel d0
                (submitted [CreateRequest op;
                            SendRequest (build (createRequest_obj op)) None] w))
      as (k & _ & ->).
    split; [done|]. split; [done|]. split; [done|]. by exists k.
  - rewrite (drained_call_no_service op build f post d0) by done.
    split; [done|]. split; [done|]. split; [done|]. by exists 0%nat.
Qed.

End drained_call_connection.

(** [bdh], [ref], [bdib] and [custom_req] work on the session of the
    connection: whether they return or raise, they create no session and
    leave the service as it was, and the session is the one they found, its
    queue drained and some of its events read.  [ref_hist] leaves the
    connection on a session created by the call, the old one unused. *)
Theorem calls_keep_connection (fuel : nat) (w : World) :
  (length (pending (session w)) < fuel)%nat →
  let kept := λ w' : World,
    created w' = created w ∧ refDataService w' = refDataService w ∧
    fresh w' = fresh w ∧
    ∃ k, session w' = Nat.iter k pop (clear_pending (session w)) in
  (∀ tickers flds sd ed ps ov, kept (bdh fuel tickers flds sd ed ps ov w).2) ∧
  (∀ tickers flds ov, kept (ref fuel tickers flds ov w).2) ∧
  (∀ ticker sdt edt et interval, kept (bdib fuel ticker sdt edt et interval w).2) ∧
  (∀ request, kept (custom_req fuel request w).2) ∧
  (∀ tickers flds sd ed t,
     let w' := (ref_hist fuel tickers flds sd ed t w).2 in
     created w' = S (created w) ∧ fresh w' = fresh w ∧
     ∃ k, session w' = Nat.iter k pop (fresh w (created w))).
Proof.
  intros Hlen kept. subst kept. cbn beta.
  split; [|split; [|split; [|split]]].
  - intros tickers flds sd ed ps ov.
    exact (drained_call_connection "HistoricalDataRequest"
             (λ request,
                fill_overrides ov
                  (request_set "endDate" (SStr ed)
                     (request_set "startDate" (SStr sd)
                        (request_set "periodicitySelection" (SStr ps)
                           (request_set "periodicityAdjustment" (SStr "ACTUAL")
                              (fill_request (as_list tickers) (as_list flds) request))))))
             (bdh_msg (as_list flds)) (bdh_frame (as_list tickers) (as_list flds)) ∅
             fuel w Hlen).
  - intros tickers flds ov.
    exact (drained_call_connection "ReferenceDataRequest"
             (λ request,
                fill_overrides ov (fill_request (as_list tickers) (as_list flds) request))
             (ref_msg (as_list flds)) (ref_frame (as_list tickers) (as_list flds)) []
             fuel w Hlen).
  - intros ticker sdt edt et interval.
    exact (drained_call_connection "IntradayBarRequest"
             (λ request,
                request_set "endDateTime" (SStr edt)
                  (request_set "startDateTime" (SStr sdt)
                     (request_set "interval" (SNum interval)
                        (request_set "eventType" (SStr et)
                           (request_set "security" (SStr ticker) request)))))
             (bdib_msg bar_flds) (bdib_frame bar_flds) ∅
             fuel w Hlen).
  - intros request. rewrite custom_req_eq by done.
    destruct (event_loop_world (Some 500)
                (λ (msg : Message) messages, Ok (messages ++ [msg]))
                stop_on_response fuel [] (submitted [SendRequest request None] w))
      as (k & _ & ->).
    split; [done|]. split; [done|]. split; [done|]. by exists k.
  - intros tickers flds sd ed t. cbn zeta.
    destruct (refDataService (restarted w)) as [svc|] eqn:Hsvc.
    + rewrite ref_hist_eq, finish_world by eauto.
      destruct (event_loop_world (Some t) (ref_hist_msg (as_list flds))
                  (ref_hist_stop (as_list flds) (as_list tickers) (bdate_range sd ed))
                  fuel []
                  (hist_submitted (as_list tickers) (as_list flds)
                     (bdate_range sd ed) w))
        as (k & _ & ->).
      split; [done|]. split; [done|].
      exists (k + start_polls (fresh w (created w)))%nat.
      rewrite polls_session, Nat.iter_add. reflexivity.
    + rewrite ref_hist_no_service by done.
      split; [done|]. split; [done|].
      by exists (start_polls (fresh w (created w))).
Qed.

Lemma calls_keep_connection_witness :
  created (bdh 5 (Many ["B"; "A"]) (One "PX_LAST") "20200101" "20200131" "DAILY" []
               px_exchange).2 = 1%nat ∧
  created (ref_hist 10 (Many ["A"; "B"]) (One "PX_LAST") 1 2 2000 full_exchange).2
  = 2%nat.
Proof.
  split.
  - destruct (calls_keep_connection 5 px_exchange) as (Hbdh & _); [cbn; lia|].
    exact (proj1 (Hbdh (Many ["B"; "A"]) (One "PX_LAST") "20200101" "20200131"
                    "DAILY" [])).
  - destruct (calls_keep_connection 10 full_exchange) as (_ & _ & _ & _ & Hhist);
      [cbn; lia|].
    exact (proj1 (Hhist (Many ["A"; "B"]) (One "PX_LAST") 1 2 2000)).
Defined.
